(** * disk_health_monitor.py: a shallow embedding and its verified properties

    The script enumerates block devices with [lsblk], classifies each disk
    with [smartctl -H], scans a log source for failure vocabulary, sends one
    alert e-mail when anything was found and then offers an interactive
    [fsck] repair of the partitions of the flagged disks.

    Layout of this file:
    - [PyStr]: the Python [str] operations the script uses
      ([strip], [split], [lower], [in], [splitlines], one [re.search]);
    - the host: the operating system as a machine that answers the script's
      external calls (processes, files, mail, terminal), and the monad in
      which the script runs against it, leaving a trace of events;
    - the functions of [disk_health_monitor.py], one definition per Python
      function, in source order, under the source's names;
    - the vocabulary of the specification and the observations on traces in
      which the properties are stated;
    - scripted hosts for concrete runs;
    - the lemmas, grouped by the property they establish.

    Modelling scope.  Text is modelled with [string]: a character is a code
    point below 256, and the character classes below are Python's on that
    range.  [print] always succeeds.  Asynchronous signals
    ([KeyboardInterrupt]) are not modelled, so every exception is an
    instance of [Exception] and is represented by its message. *)

From Stdlib Require Import String Ascii List Bool Arith ZArith Lia.
From Stdlib Require Import DecimalString.
Import ListNotations.

Local Open Scope string_scope.
Local Open Scope list_scope.
Local Open Scope nat_scope.

(** String concatenation, as in Python's [a + b] and f-strings; [++] is kept
    for lists. *)
Infix "+++" := String.append (right associativity, at level 60).

(* ===================================================================== *)
(** * Python [str] operations *)
(* ===================================================================== *)

Module PyStr.

Definition between (lo hi n : nat) : bool := (lo <=? n) && (n <=? hi).

(** [str.isspace] on one character: the code points below 256 that
    CPython treats as whitespace in [strip()] and [split()]. *)
Definition isspace (c : ascii) : bool :=
  let n := nat_of_ascii c in
  between 9 13 n || between 28 32 n || (n =? 133) || (n =? 160).

(** Characters with an upper-case/lower-case pair inside the range:
    A-Z, U+00C0-U+00D6 and U+00D8-U+00DE. *)
Definition isupper (c : ascii) : bool :=
  let n := nat_of_ascii c in
  between 65 90 n || between 192 214 n || between 216 222 n.

Definition lower_char (c : ascii) : ascii :=
  if isupper c then ascii_of_nat (nat_of_ascii c + 32) else c.

(** [s.lower()] *)
Fixpoint lower (s : string) : string :=
  match s with
  | EmptyString => EmptyString
  | String c s' => String (lower_char c) (lower s')
  end.

(** The class [\w] of [re] on [str] patterns: [c.isalnum()] or ['_']. *)
Definition isword (c : ascii) : bool :=
  let n := nat_of_ascii c in
  between 48 57 n || between 65 90 n || between 97 122 n || (n =? 95)
  || (n =? 170) || (n =? 178) || (n =? 179) || (n =? 181)
  || (n =? 185) || (n =? 186) || between 188 190 n
  || between 192 214 n || between 216 246 n || between 248 255 n.

(** [s.lstrip()], [s.rstrip()], [s.strip()] *)
Fixpoint lstrip (s : string) : string :=
  match s with
  | EmptyString => EmptyString
  | String c s' => if isspace c then lstrip s' else s
  end.

Fixpoint rstrip (s : string) : string :=
  match s with
  | EmptyString => EmptyString
  | String c s' =>
      match rstrip s' with
      | EmptyString => if isspace c then EmptyString else String c EmptyString
      | r => String c r
      end
  end.

Definition strip (s : string) : string := rstrip (lstrip s).

(** [s.split(sep)] for a one-character separator: empty fields are kept
    and the result always has at least one element. *)
Fixpoint split_on (sep : ascii) (s : string) : list string :=
  match s with
  | EmptyString => [EmptyString]
  | String c s' =>
      if Ascii.eqb c sep then EmptyString :: split_on sep s'
      else match split_on sep s' with
           | f :: fs => String c f :: fs
           | [] => [String c EmptyString]
           end
  end.

(** [s.split()]: fields are the maximal runs of non-whitespace. *)
Fixpoint split_ws_aux (cur : option string) (s : string) : list string :=
  match s with
  | EmptyString => match cur with Some f => [f] | None => [] end
  | String c s' =>
      if isspace c then
        match cur with
        | Some f => f :: split_ws_aux None s'
        | None => split_ws_aux None s'
        end
      else
        match cur with
        | Some f => split_ws_aux (Some (f +++ String c EmptyString)) s'
        | None => split_ws_aux (Some (String c EmptyString)) s'
        end
  end.

Definition split_ws (s : string) : list string := split_ws_aux None s.

(** [s.startswith(p)] *)
Fixpoint startswith (p s : string) : bool :=
  match p, s with
  | EmptyString, _ => true
  | String a p', String b s' => Ascii.eqb a b && startswith p' s'
  | String _ _, EmptyString => false
  end.

(** [needle in hay] *)
Fixpoint contains (needle hay : string) : bool :=
  startswith needle hay ||
  match hay with
  | EmptyString => false
  | String _ hay' => contains needle hay'
  end.

(** Line boundaries of [str.splitlines()] below 256. *)
Definition islinebreak (c : ascii) : bool :=
  let n := nat_of_ascii c in
  between 10 13 n || between 28 30 n || (n =? 133).

(** [s.splitlines()]: lines without their terminators; ["\r\n"] is one
    terminator; no empty last line after a final terminator. *)
Fixpoint splitlines_aux (cur : string) (s : string) : list string :=
  match s with
  | EmptyString => match cur with EmptyString => [] | _ => [cur] end
  | String c s' =>
      if islinebreak c then
        match s' with
        | String d s'' =>
            if (nat_of_ascii c =? 13) && (nat_of_ascii d =? 10)
            then cur :: splitlines_aux EmptyString s''
            else cur :: splitlines_aux EmptyString s'
        | EmptyString => [cur]
        end
      else splitlines_aux (cur +++ String c EmptyString) s'
  end.

Definition splitlines (s : string) : list string :=
  splitlines_aux EmptyString s.

(** The longest prefix of word characters: what a greedy [\w+] takes. *)
Fixpoint take_word (s : string) : string :=
  match s with
  | EmptyString => EmptyString
  | String c s' => if isword c then String c (take_word s') else EmptyString
  end.

Fixpoint drop (n : nat) (s : string) : string :=
  match n, s with
  | O, _ => s
  | S n', String _ s' => drop n' s'
  | S _, EmptyString => EmptyString
  end.

(** [re.search(lit + r'(\w+)', s)], returning group 1: the leftmost
    position at which [lit] is followed by at least one word character,
    and the greedy run of word characters there. *)
Fixpoint re_search_word_after (lit : string) (s : string) : option string :=
  let here :=
    if startswith lit s then
      match take_word (drop (String.length lit) s) with
      | EmptyString => None
      | tok => Some tok
      end
    else None in
  match here with
  | Some tok => Some tok
  | None =>
      match s with
      | EmptyString => None
      | String _ s' => re_search_word_after lit s'
      end
  end.

(** [x in (a, b, ...)] for strings *)
Definition mem (x : string) (l : list string) : bool :=
  existsb (String.eqb x) l.

(** [str(n)] for an integer *)
Definition str_of_Z (z : Z) : string := NilEmpty.string_of_int (Z.to_int z).

(** A character class, spelled out as the code points it holds. *)
Definition code_points (p : ascii -> bool) : list nat :=
  filter (fun n => p (ascii_of_nat n)) (seq 0 256).

Definition newline : ascii := ascii_of_nat 10.
Definition nl : string := String newline EmptyString.

End PyStr.

Import PyStr.


(* ===================================================================== *)
(** * The host and the monad of the script *)
(* ===================================================================== *)

(** What an external call does: it raises (the message of the exception is
    kept, it is what [print(f"...{e}")] shows) or it returns. *)
Inductive outcome (A : Type) : Type :=
| Raised (e : string)
| Returned (a : A).
Arguments Raised {A} e.
Arguments Returned {A} a.

(** [subprocess.CompletedProcess] *)
Record CompletedProcess : Type := mkCompleted {
  returncode : Z;
  stdout : string;
  stderr : string
}.

(** [email.message.EmailMessage] with the three headers the script sets. *)
Record EmailMessage : Type := mkEmail {
  msg_From : string;
  msg_To : string;
  msg_Subject : string;
  msg_content : string
}.

(** The SMTP session of [send_email]: relay, credentials and message. *)
Record SmtpSession : Type := mkSmtp {
  smtp_server : string;
  smtp_port : Z;
  smtp_user : string;
  smtp_pass : string;
  smtp_msg : EmailMessage
}.

(** The module [config] (see [config_example.py]).  [LOG_FILE] may be
    [None]. *)
Record Config : Type := mkConfig {
  LOG_FILE : option string;
  EMAIL_FROM : string;
  EMAIL_TO : string;
  SMTP_SERVER : string;
  SMTP_PORT : Z;
  SMTP_USER : string;
  SMTP_PASS : string
}.

(** The operating system, as a deterministic machine with state [W]: each
    external call gets an answer and moves the machine.
    - [host_run argv]: [subprocess.run(argv, ...)];
    - [host_readlines path]: [open(path, 'r')] followed by [readlines()];
    - [host_smtp session]: composing the message and the SMTP dialogue;
    - [host_input prompt]: [input(prompt)], which raises at end of file. *)
Record Host (W : Type) : Type := mkHost {
  host_run : list string -> W -> outcome CompletedProcess * W;
  host_readlines : string -> W -> outcome (list string) * W;
  host_smtp : SmtpSession -> W -> outcome unit * W;
  host_input : string -> W -> outcome string * W
}.
Arguments host_run {W} _ _ _.
Arguments host_readlines {W} _ _ _.
Arguments host_smtp {W} _ _ _.
Arguments host_input {W} _ _ _.

(** What a run leaves behind, in order. *)
Inductive event : Type :=
| EvRun (argv : list string) (r : outcome CompletedProcess)
| EvRead (path : string) (r : outcome (list string))
| EvSmtp (s : SmtpSession) (r : outcome unit)
| EvInput (prompt : string) (r : outcome string)
| EvPrint (text : string).

(** How a piece of the script ends: with a value, with an exception, or
    without an end within the given number of prompt rounds. *)
Inductive result (A : Type) : Type :=
| Ok (a : A)
| Exc (e : string)
| OutOfFuel.
Arguments Ok {A} a.
Arguments Exc {A} e.
Arguments OutOfFuel {A}.

(** A computation: from a host state to a result, the next host state and
    the events emitted on the way. *)
Definition M (W A : Type) : Type := W -> result A * W * list event.

Definition ret {W A} (a : A) : M W A := fun w => (Ok a, w, []).

Definition raise {W A} (e : string) : M W A := fun w => (Exc e, w, []).

Definition out_of_fuel {W A} : M W A := fun w => (OutOfFuel, w, []).

Definition bind {W A B} (m : M W A) (k : A -> M W B) : M W B :=
  fun w =>
    match m w with
    | (Ok a, w1, t1) => let '(r, w2, t2) := k a w1 in (r, w2, t1 ++ t2)
    | (Exc e, w1, t1) => (Exc e, w1, t1)
    | (OutOfFuel, w1, t1) => (OutOfFuel, w1, t1)
    end.

(** [try: body  except Exception as e: handler(e)] *)
Definition try_except {W A} (body : M W A) (handler : string -> M W A) : M W A :=
  fun w =>
    match body w with
    | (Exc e, w1, t1) => let '(r, w2, t2) := handler e w1 in (r, w2, t1 ++ t2)
    | other => other
    end.

Declare Scope py_scope.
Delimit Scope py_scope with py.
Notation "x <- m ;; k" := (bind m (fun x => k))
  (at level 61, m at next level, right associativity) : py_scope.
Notation "m ;;; k" := (bind m (fun _ => k))
  (at level 61, right associativity) : py_scope.
Local Open Scope py_scope.

(** [for x in xs: acc = body(acc, x)], the accumulator standing for the
    list that the loop body appends to. *)
Fixpoint for_each {W A B} (xs : list A) (acc : B) (body : B -> A -> M W B) : M W B :=
  match xs with
  | [] => ret acc
  | x :: rest => acc' <- body acc x ;; for_each rest acc' body
  end.

(** [for x in xs: body(x)] *)
Fixpoint for_ {W A} (xs : list A) (body : A -> M W unit) : M W unit :=
  match xs with
  | [] => ret tt
  | x :: rest => body x ;;; for_ rest body
  end.

(** Lifting an answer of the host into the monad, with its event. *)
Definition call {W A} (ask : W -> outcome A * W) (ev : outcome A -> event) : M W A :=
  fun w =>
    match ask w with
    | (Raised e, w1) => (Exc e, w1, [ev (Raised e)])
    | (Returned a, w1) => (Ok a, w1, [ev (Returned a)])
    end.

Definition print {W} (text : string) : M W unit :=
  fun w => (Ok tt, w, [EvPrint text]).

Section Primitives.
Context {W : Type} (host : Host W).

Definition subprocess_run (argv : list string) : M W CompletedProcess :=
  call (host_run host argv) (EvRun argv).

Definition open_readlines (path : string) : M W (list string) :=
  call (host_readlines host path) (EvRead path).

Definition smtp_send (s : SmtpSession) : M W unit :=
  call (host_smtp host s) (EvSmtp s).

Definition input (prompt : string) : M W string :=
  call (host_input host prompt) (EvInput prompt).
End Primitives.

(* ===================================================================== *)
(** * disk_health_monitor.py *)
(* ===================================================================== *)

(** [name, typ = fields]: unpacking a list into two names raises
    [ValueError] unless it has exactly two elements (the messages are
    CPython 3.11's). *)
Definition unpack2 {W} (fields : list string) : M W (string * string) :=
  match fields with
  | [name; typ] => ret (name, typ)
  | [] => raise "not enough values to unpack (expected 2, got 0)"
  | [_] => raise "not enough values to unpack (expected 2, got 1)"
  | _ => raise "too many values to unpack (expected 2)"
  end.

(** The vocabulary of [parse_log_for_errors]. *)
Definition error_keywords : list string :=
  ["I/O error"; "ata_error"; "fail"; "error"; "unresponsive"; "offline"; "faulty"].

(** [any(keyword.lower() in line.lower() for keyword in error_keywords)] *)
Definition any_keyword (line : string) : bool :=
  existsb (fun keyword => contains (lower keyword) (lower line)) error_keywords.

(** The loop of [parse_log_for_errors] over the lines read, [errors] being
    the list it appends to. *)
Definition scan_lines (logs : list string) : list string :=
  fold_left
    (fun errors line => if any_keyword line then errors ++ [strip line] else errors)
    logs [].

(** The literal part of the pattern of [check_smart_status]. *)
Definition smart_pattern : string :=
  "SMART overall-health self-assessment test result: ".

Definition subject_line : string := "Disk Health Alert on Red Hat System".

(** Lines 174-183 of [main]: the body of the alert, built by appending. *)
Definition compose_body (failed_disks log_errors : list string) : string :=
  let body := "The following disk issues were detected:" +++ nl +++ nl in
  let body :=
    match failed_disks with
    | [] => body
    | _ =>
        let body := body +++ "Failed or failing disks (SMART):" +++ nl in
        let body :=
          fold_left (fun body fdisk => body +++ " - " +++ fdisk +++ nl)
                    failed_disks body in
        body +++ nl
    end in
  match log_errors with
  | [] => body
  | _ =>
      let body := body +++ "Disk-related errors from system logs:" +++ nl in
      fold_left (fun body err => body +++ " - " +++ err +++ nl) log_errors body
  end.

Section Monitor.
Context {W : Type} (host : Host W) (config : Config).

Definition get_disks : M W (list string) :=
  try_except
    (result <- subprocess_run host ["lsblk"; "-dn"; "-o"; "NAME,TYPE"] ;;
     for_each (split_on newline (strip (stdout result))) []
       (fun disks line =>
          nt <- unpack2 (split_ws line) ;;
          if String.eqb (snd nt) "disk"
          then ret (disks ++ ["/dev/" +++ fst nt])
          else ret disks))
    (fun e => print ("Error getting disks: " +++ e) ;;; ret []).

Definition get_partitions (disk : string) : M W (list string) :=
  try_except
    (result <- subprocess_run host ["lsblk"; "-ln"; "-o"; "NAME,TYPE"; disk] ;;
     for_each (split_on newline (strip (stdout result))) []
       (fun partitions line =>
          nt <- unpack2 (split_ws line) ;;
          if String.eqb (snd nt) "part"
          then ret (partitions ++ ["/dev/" +++ fst nt])
          else ret partitions))
    (fun e =>
       print ("Error getting partitions for " +++ disk +++ ": " +++ e) ;;;
       ret []).

Definition check_smart_status (disk : string) : M W string :=
  try_except
    (result <- subprocess_run host ["smartctl"; "-H"; disk] ;;
     let output := stdout result in
     match re_search_word_after smart_pattern output with
     | Some group1 => ret group1
     | None => ret "UNKNOWN"
     end)
    (fun e =>
       print ("Error checking SMART status for " +++ disk +++ ": " +++ e) ;;;
       ret "ERROR").

(** [if config.LOG_FILE:] is false for [None] and for the empty string. *)
Definition parse_log_for_errors : M W (list string) :=
  try_except
    (logs <- (match LOG_FILE config with
              | Some (String _ _ as path) => open_readlines host path
              | _ =>
                  result <- subprocess_run host
                              ["journalctl"; "-k"; "--since"; "1 hour ago"] ;;
                  ret (splitlines (stdout result))
              end) ;;
     ret (scan_lines logs))
    (fun e => print ("Error parsing logs: " +++ e) ;;; ret []).

Definition send_email (subject body : string) : M W unit :=
  try_except
    (let msg := mkEmail (EMAIL_FROM config) (EMAIL_TO config) subject body in
     smtp_send host
       (mkSmtp (SMTP_SERVER config) (SMTP_PORT config)
               (SMTP_USER config) (SMTP_PASS config) msg) ;;;
     print "Alert email sent.")
    (fun e => print ("Failed to send email: " +++ e)).

Definition is_mounted (device : string) : M W bool :=
  try_except
    (result <- subprocess_run host ["mountpoint"; "-q"; device] ;;
     ret (Z.eqb (returncode result) 0))
    (fun e =>
       print ("Error checking mountpoint for " +++ device +++ ": " +++ e) ;;;
       ret false).

(** Lines 115-123 of [repair_filesystem]: the check itself. *)
Definition run_fsck (device : string) : M W bool :=
  print ("Running fsck on " +++ device +++ "...") ;;;
  result <- subprocess_run host ["fsck"; "-y"; device] ;;
  print (stdout result) ;;;
  if Z.eqb (returncode result) 0 then
    print ("Filesystem on " +++ device
           +++ " repaired successfully or no issues found.") ;;;
    ret true
  else
    print ("fsck returned exit code " +++ str_of_Z (returncode result)
           +++ ". Please review output.") ;;;
    ret false.

Definition repair_filesystem (device : string) : M W bool :=
  try_except
    (mounted <- is_mounted device ;;
     if mounted then
       print (device +++ " is currently mounted. Attempting to unmount...") ;;;
       umount_result <- subprocess_run host ["umount"; device] ;;
       if negb (Z.eqb (returncode umount_result) 0) then
         print ("Failed to unmount " +++ device +++ ": "
                +++ strip (stderr umount_result)) ;;;
         print "Skipping repair for this partition." ;;;
         ret false
       else
         print ("Successfully unmounted " +++ device +++ ".") ;;;
         run_fsck device
     else
       print (device +++ " is not mounted. Proceeding with repair.") ;;;
       run_fsck device)
    (fun e =>
       print ("Error running fsck on " +++ device +++ ": " +++ e) ;;;
       ret false).

(** The [while True] loop of [prompt_repair] for one partition; [fuel]
    bounds the number of times the question is asked. *)
Fixpoint ask_repair (fuel : nat) (part : string) : M W unit :=
  match fuel with
  | O => out_of_fuel
  | S fuel' =>
      typed <- input host
                 ("Do you want to run fsck repair on " +++ part
                  +++ "? (yes/no): ") ;;
      let ans := lower (strip typed) in
      if mem ans ["yes"; "y"] then
        repair_filesystem part ;;; ret tt
      else if mem ans ["no"; "n"] then
        print ("Skipping repair on " +++ part +++ ".")
      else
        print "Please answer 'yes' or 'no'." ;;;
        ask_repair fuel' part
  end.

Definition prompt_repair (fuel : nat) (disks : list string) : M W unit :=
  for_ disks (fun disk =>
    print (nl +++ "Disk " +++ disk
           +++ " has issues. Checking partitions for repair...") ;;;
    partitions <- get_partitions disk ;;
    match partitions with
    | [] => print ("No partitions found on " +++ disk +++ ".")
    | _ =>
        for_ partitions (fun part =>
          mounted <- is_mounted part ;;
          let status := if mounted then "mounted" else "unmounted" in
          print ("Partition " +++ part +++ " is " +++ status +++ ".") ;;;
          ask_repair fuel part)
    end).

(** Lines 159-164 of [main]: the classification loop, [failed_disks]
    being the list it appends to. *)
Definition classify_disks (disks : list string) : M W (list string) :=
  for_each disks []
    (fun failed_disks disk =>
       status <- check_smart_status disk ;;
       print (disk +++ ": SMART status = " +++ status) ;;;
       if negb (String.eqb (lower status) "passed")
       then ret (failed_disks ++ [disk])
       else ret failed_disks).

(** Lines 167-189 of [main]: what is done with the two findings. *)
Definition report (fuel : nat) (failed_disks log_errors : list string) : M W unit :=
  (match log_errors with
   | [] => ret tt
   | _ =>
       print (nl +++ "Disk-related errors found in system logs:") ;;;
       for_ log_errors print
   end) ;;;
  match failed_disks, log_errors with
  | [], [] =>
      print (nl +++ "All disks passed SMART checks and no disk errors found in logs.")
  | _, _ =>
      send_email subject_line (compose_body failed_disks log_errors) ;;;
      prompt_repair fuel failed_disks
  end.

Definition main (fuel : nat) : M W unit :=
  disks <- get_disks ;;
  match disks with
  | [] => print "No disks found."
  | _ =>
      failed_disks <- classify_disks disks ;;
      log_errors <- parse_log_for_errors ;;
      report fuel failed_disks log_errors
  end.

End Monitor.

(** The script as a process: the import guard of lines 8-12, then
    [main()].  [config] is [None] when [import config] raises
    [ImportError].  The exit status is [Some 1] after [exit(1)] and after
    an exception that nothing catches, [Some 0] when [main] returns, and
    [None] when the run has no end within [fuel]. *)
Definition script {W} (host : Host W) (config : option Config) (fuel : nat)
  : W -> option Z * W * list event :=
  fun w =>
    match config with
    | None =>
        (Some 1%Z, w,
         [EvPrint "Please create a config.py file based on config_example.py"])
    | Some cfg =>
        match main host cfg fuel w with
        | (Ok _, w1, t) => (Some 0%Z, w1, t)
        | (Exc _, w1, t) => (Some 1%Z, w1, t)
        | (OutOfFuel, w1, t) => (None, w1, t)
        end
    end.

(* ===================================================================== *)
(** * The vocabulary of the specification *)
(* ===================================================================== *)

(** The pass over the disks seen as a map: every disk with the status that
    [check_smart_status] reported for it, in enumeration order. *)
Definition health_statuses {W} (host : Host W) (disks : list string)
  : M W (list (string * string)) :=
  for_each disks []
    (fun statuses disk =>
       status <- check_smart_status host disk ;;
       print (disk +++ ": SMART status = " +++ status) ;;;
       ret (statuses ++ [(disk, status)])).

(** A status is [Passed] when it reads "passed" in any letter case. *)
Definition is_passed (status : string) : bool := String.eqb (lower status) "passed".

(** The failed set of a map of statuses: the disks whose status is not
    [Passed]. *)
Definition failed_set (statuses : list (string * string)) : list string :=
  map fst (filter (fun ds => negb (is_passed (snd ds))) statuses).

(** The four statuses, as the strings the classifier produces for them. *)
Definition four_statuses : list string := ["PASSED"; "FAILED"; "UNKNOWN"; "ERROR"].

(** One line [" - item"] per item. *)
Fixpoint itemize (items : list string) : string :=
  match items with
  | [] => ""
  | item :: rest => " - " +++ item +++ nl +++ itemize rest
  end.

Definition body_intro : string :=
  "The following disk issues were detected:" +++ nl +++ nl.

(** The part of the body for the failed disks: nothing when there are none. *)
Definition failed_section (failed : list string) : string :=
  match failed with
  | [] => ""
  | _ => "Failed or failing disks (SMART):" +++ nl +++ itemize failed +++ nl
  end.

(** The part of the body for the log lines: nothing when there are none. *)
Definition log_section (anomalies : list string) : string :=
  match anomalies with
  | [] => ""
  | _ => "Disk-related errors from system logs:" +++ nl +++ itemize anomalies
  end.

(** [line] case-insensitively contains [keyword]: a substring of [line] is
    [keyword] up to letter case. *)
Definition ci_contains (keyword line : string) : Prop :=
  exists pre mid post, line = pre +++ mid +++ post /\ lower mid = lower keyword.

Definition vocabulary : list string :=
  ["I/O error"; "ata_error"; "fail"; "error"; "unresponsive"; "offline"; "faulty"].

(** The registry rows the specification expects from an enumeration: the
    rows of two fields whose second field is [kind]; any other row is
    left out. *)
Definition well_formed_entries (kind : string) (output : string) : list string :=
  flat_map
    (fun line =>
       match split_ws line with
       | [name; typ] => if String.eqb typ kind then ["/dev/" +++ name] else []
       | _ => []
       end)
    (split_on newline (strip output)).

(** The body of the row loop of [get_disks] ([kind] is "disk") and of
    [get_partitions] ([kind] is "part"), which the two functions repeat. *)
Definition row_step {W} (kind : string) : list string -> string -> M W (list string) :=
  fun entries line =>
    nt <- unpack2 (split_ws line) ;;
    if String.eqb (snd nt) kind
    then ret (entries ++ ["/dev/" +++ fst nt])
    else ret entries.

(** The sequence of log lines that a scan works on: the lines of the
    configured file, or else the lines of the journal query; no line when
    the source cannot be read. *)
Definition log_lines {W} (host : Host W) (config : Config) (w : W) : list string :=
  match LOG_FILE config with
  | Some (String _ _ as path) =>
      match host_readlines host path w with
      | (Returned lines, _) => lines
      | (Raised _, _) => []
      end
  | _ =>
      match host_run host ["journalctl"; "-k"; "--since"; "1 hour ago"] w with
      | (Returned cp, _) => splitlines (stdout cp)
      | (Raised _, _) => []
      end
  end.

(** The SMTP session that [send_email] opens for a message. *)
Definition alert_session (config : Config) (subject body : string) : SmtpSession :=
  mkSmtp (SMTP_SERVER config) (SMTP_PORT config) (SMTP_USER config)
         (SMTP_PASS config)
         (mkEmail (EMAIL_FROM config) (EMAIL_TO config) subject body).

(** What [send_email] prints after the attempt. *)
Definition delivery_note (o : outcome unit) : string :=
  match o with
  | Returned _ => "Alert email sent."
  | Raised e => "Failed to send email: " +++ e
  end.

(** What [main] prints for the log findings before it decides. *)
Definition log_prints (log_errors : list string) : list event :=
  match log_errors with
  | [] => []
  | _ =>
      EvPrint (nl +++ "Disk-related errors found in system logs:")
      :: map EvPrint log_errors
  end.

(* ===================================================================== *)
(** * Observations on a run *)
(* ===================================================================== *)

Fixpoint same_argv (a b : list string) : bool :=
  match a, b with
  | [], [] => true
  | x :: a', y :: b' => String.eqb x y && same_argv a' b'
  | _, _ => false
  end.

(** A process that ran and returned status 0. *)
Definition succeeded (r : outcome CompletedProcess) : bool :=
  match r with
  | Returned cp => Z.eqb (returncode cp) 0
  | Raised _ => false
  end.

(** A process that ran and returned a status other than 0. *)
Definition returned_nonzero (r : outcome CompletedProcess) : bool :=
  match r with
  | Returned cp => negb (Z.eqb (returncode cp) 0)
  | Raised _ => false
  end.

Definition ran (argv : list string) (ev : event) : bool :=
  match ev with
  | EvRun a _ => same_argv a argv
  | _ => false
  end.

Definition ran_with (argv : list string) (p : outcome CompletedProcess -> bool)
    (ev : event) : bool :=
  match ev with
  | EvRun a r => same_argv a argv && p r
  | _ => false
  end.

(** The command lines of a run, in order. *)
Definition commands (tr : list event) : list (list string) :=
  flat_map (fun ev => match ev with EvRun argv _ => [argv] | _ => [] end) tr.

Definition is_smtp (ev : event) : bool :=
  match ev with EvSmtp _ _ => true | _ => false end.

(** The alert fires when the run hands a message to the mail relay. *)
Definition alert_fired (tr : list event) : bool := existsb is_smtp tr.

(** The messages handed to the mail relay. *)
Definition alerts (tr : list event) : list EmailMessage :=
  flat_map (fun ev => match ev with EvSmtp s _ => [smtp_msg s] | _ => [] end) tr.

(** Queries of the log source: reading the log file or asking the journal. *)
Definition is_log_query (ev : event) : bool :=
  match ev with
  | EvRead _ _ => true
  | EvRun ("journalctl" :: _) _ => true
  | _ => false
  end.

Definition log_scans (tr : list event) : nat := List.length (filter is_log_query tr).

(** Queries of the block-device registry and of the disks' self-assessment. *)
Definition is_device_scan (ev : event) : bool :=
  match ev with
  | EvRun ("lsblk" :: _) _ => true
  | EvRun ("smartctl" :: _) _ => true
  | _ => false
  end.

(** What the run has last seen of the mount state of a partition. *)
Inductive mount_view : Type := NotObserved | SeenMounted | SeenUnmounted.

(** A monitor for the mount guard on [device]: it follows the mount queries
    and the unmounts of a run and rejects the run at a filesystem check
    issued while the partition was last seen mounted, or never looked at.
    A mount query that does not return 0 (or cannot be launched) counts as
    seen unmounted, as [is_mounted] reports it. *)
Fixpoint fsck_guarded (device : string) (view : mount_view) (tr : list event) : bool :=
  match tr with
  | [] => true
  | EvRun argv r :: tr' =>
      if same_argv argv ["mountpoint"; "-q"; device] then
        fsck_guarded device (if succeeded r then SeenMounted else SeenUnmounted) tr'
      else if same_argv argv ["umount"; device] then
        fsck_guarded device (if succeeded r then SeenUnmounted else view) tr'
      else if same_argv argv ["fsck"; "-y"; device] then
        match view with
        | SeenUnmounted => fsck_guarded device view tr'
        | _ => false
        end
      else fsck_guarded device view tr'
  | _ :: tr' => fsck_guarded device view tr'
  end.

(** An unmount of [device] is attempted, and no filesystem check of it is
    issued before that attempt. *)
Fixpoint umount_before_fsck (device : string) (tr : list event) : bool :=
  match tr with
  | [] => false
  | ev :: tr' =>
      if ran ["umount"; device] ev then true
      else if ran ["fsck"; "-y"; device] ev then false
      else umount_before_fsck device tr'
  end.

Definition observed_mounted (device : string) (tr : list event) : bool :=
  existsb (ran_with ["mountpoint"; "-q"; device] succeeded) tr.

Definition umount_failed (device : string) (tr : list event) : bool :=
  existsb (ran_with ["umount"; device] returned_nonzero) tr.

Definition umount_attempted (device : string) (tr : list event) : bool :=
  existsb (ran ["umount"; device]) tr.

Definition fsck_invoked (device : string) (tr : list event) : bool :=
  existsb (ran ["fsck"; "-y"; device]) tr.

(** Neither mail nor a query of the log source. *)
Definition quiet (ev : event) : bool := negb (is_smtp ev) && negb (is_log_query ev).

(** [m] emits only events that satisfy [P]. *)
Definition emits {W A} (P : event -> bool) (m : M W A) : Prop :=
  forall w, forallb P (snd (m w)) = true.

(** [m] comes to an end on every host state: it does not run out of fuel. *)
Definition finite {W A} (m : M W A) : Prop :=
  forall w, fst (fst (m w)) <> OutOfFuel.

(** [m] returns normally on every host state. *)
Definition returns {W A} (m : M W A) : Prop :=
  forall w, exists a w1 t, m w = (Ok a, w1, t).

(** Not a filesystem check. *)
Definition no_fsck (ev : event) : bool :=
  match ev with
  | EvRun ("fsck" :: _) _ => false
  | _ => true
  end.

(** [m] keeps the mount guard of every partition, whatever had been seen
    of the partition before [m] started. *)
Definition guarded {W A} (m : M W A) : Prop :=
  forall device view w, fsck_guarded device view (snd (m w)) = true.

(** The trace ends with [input] raising [e]. *)
Definition raised_at_input (e : string) (tr : list event) : Prop :=
  exists prompt t, tr = t ++ [EvInput prompt (Raised e)].

(** An exception leaves [m] only when [input] has just raised it. *)
Definition escapes_only_at_input {W A} (m : M W A) : Prop :=
  forall w,
    match m w with
    | (Exc e, _, tr) => raised_at_input e tr
    | _ => True
    end.

(** The question of [prompt_repair] for a partition. *)
Definition repair_prompt (part : string) : string :=
  "Do you want to run fsck repair on " +++ part +++ "? (yes/no): ".

(** An answer that [prompt_repair] takes for yes, and one it takes for no:
    the typed line, stripped, in any letter case. *)
Definition means_yes (typed : string) : bool := mem (lower (strip typed)) ["yes"; "y"].
Definition means_no (typed : string) : bool := mem (lower (strip typed)) ["no"; "n"].

Definition said_yes (r : outcome string) : bool :=
  match r with
  | Returned typed => means_yes typed
  | Raised _ => false
  end.

(** A monitor for the confirmation of repairs on [device]: it follows the
    answers to the question for [device] and rejects the run at an [umount]
    or [fsck] of [device] issued when the latest answer was not a yes, or
    when the question was never asked. *)
Fixpoint confirmed_only (device : string) (armed : bool) (tr : list event) : bool :=
  match tr with
  | [] => true
  | EvInput prompt r :: tr' =>
      if String.eqb prompt (repair_prompt device)
      then confirmed_only device (said_yes r) tr'
      else confirmed_only device armed tr'
  | EvRun argv _ :: tr' =>
      if same_argv argv ["umount"; device] || same_argv argv ["fsck"; "-y"; device]
      then armed && confirmed_only device armed tr'
      else confirmed_only device armed tr'
  | _ :: tr' => confirmed_only device armed tr'
  end.

(** Neither a question to the user nor an [umount] or [fsck]. *)
Definition no_repair_step (ev : event) : bool :=
  match ev with
  | EvInput _ _ => false
  | EvRun ("umount" :: _) _ => false
  | EvRun ("fsck" :: _) _ => false
  | _ => true
  end.

(** [m] issues repairs only on confirmation, whatever was answered before
    [m] started. *)
Definition confirming {W A} (m : M W A) : Prop :=
  forall device armed w, confirmed_only device armed (snd (m w)) = true.

(** An event that is not a question left open: a question counts as
    answered when [input] returned a line that is taken for yes or for no;
    an unrecognised line and an [input] that raised leave it open. *)
Definition answer_given (ev : event) : bool :=
  match ev with
  | EvInput _ (Returned typed) => means_yes typed || means_no typed
  | EvInput _ (Raised _) => false
  | _ => true
  end.

(** In this run the user answered every question that was asked with a
    yes or a no. *)
Definition all_answered (tr : list event) : bool := forallb answer_given tr.

(** [m] comes to its end with a value in every run of it in which the
    user answered every question that was asked. *)
Definition completes {W A} (m : M W A) : Prop :=
  forall w, all_answered (snd (m w)) = true -> exists a w1 t, m w = (Ok a, w1, t).

(** A field of [s.split()]: not empty, and without whitespace. *)
Definition field (f : string) : Prop :=
  f <> "" /\ forall c, In c (list_ascii_of_string f) -> isspace c = false.

(** An entry of an enumeration: "/dev/" and a name that is a field. *)
Definition device_path (d : string) : Prop :=
  exists name, d = "/dev/" +++ name /\ field name.

(** The files a run has opened for reading, in order. *)
Definition reads (tr : list event) : list string :=
  flat_map (fun ev => match ev with EvRead path _ => [path] | _ => [] end) tr.

(** The events of a run that only looks: prints, the disk listing, the
    self-assessment queries and the query of the log source. *)
Definition looks_only (ev : event) : bool :=
  match ev with
  | EvPrint _ => true
  | EvRead _ _ => true
  | EvRun argv _ =>
      same_argv argv ["lsblk"; "-dn"; "-o"; "NAME,TYPE"]
      || same_argv argv ["journalctl"; "-k"; "--since"; "1 hour ago"]
      || match argv with
         | ["smartctl"; "-H"; _] => true
         | _ => false
         end
  | _ => false
  end.

(** A string of whitespace only. *)
Definition blank (s : string) : Prop :=
  forall c, In c (list_ascii_of_string s) -> isspace c = true.

Fixpoint last_char (s : string) : option ascii :=
  match s with
  | EmptyString => None
  | String c EmptyString => Some c
  | String _ s' => last_char s'
  end.

(** A text that is not empty and neither starts nor ends with whitespace. *)
Definition clean_ends (k : string) : bool :=
  match k with
  | String c _ => negb (isspace c)
  | EmptyString => false
  end
  && match last_char k with
     | Some c => negb (isspace c)
     | None => false
     end.

(** The phase of [main] that an event belongs to: 0 the disk listing, 1 the
    self-assessment queries, 2 the log scan, 3 the alert, 4 the repairs
    (partition listings, mount queries, questions, umount, fsck).  Printing
    belongs to no phase. *)
Definition phase (ev : event) : option nat :=
  match ev with
  | EvPrint _ => None
  | EvRun ("lsblk" :: "-dn" :: _) _ => Some 0
  | EvRun ("smartctl" :: _) _ => Some 1
  | EvRun ("journalctl" :: _) _ => Some 2
  | EvRead _ _ => Some 2
  | EvSmtp _ _ => Some 3
  | _ => Some 4
  end.

(** The phases of a trace never go back, starting from phase [cur]. *)
Fixpoint in_order (cur : nat) (tr : list event) : bool :=
  match tr with
  | [] => true
  | ev :: tr' =>
      match phase ev with
      | None => in_order cur tr'
      | Some p => (cur <=? p) && in_order p tr'
      end
  end.

Definition in_phase (n : nat) (ev : event) : bool :=
  match phase ev with
  | None => true
  | Some p => p =? n
  end.

Definition is_partition_listing (argv : list string) : bool :=
  match argv with
  | "lsblk" :: "-ln" :: _ => true
  | _ => false
  end.

(** The partitions that the listings of a run have shown, in order: the
    rows of type part of every partition listing that was printed, read
    row by row. *)
Definition listed_partitions (tr : list event) : list string :=
  flat_map
    (fun ev =>
       match ev with
       | EvRun argv (Returned cp) =>
           if is_partition_listing argv
           then well_formed_entries "part" (stdout cp)
           else []
       | _ => []
       end) tr.

(** Every row of the listing has exactly two fields. *)
Definition two_field_rows (out : string) : bool :=
  forallb (fun line => List.length (split_ws line) =? 2)
          (split_on newline (strip out)).

(** Not a partition listing with a row that lacks a field or has one too
    many. *)
Definition well_formed_listing (ev : event) : bool :=
  match ev with
  | EvRun argv (Returned cp) =>
      negb (is_partition_listing argv) || two_field_rows (stdout cp)
  | _ => true
  end.

(** Every partition listing printed in this run has two fields in every
    row. *)
Definition well_listed (tr : list event) : bool := forallb well_formed_listing tr.

(** The questions put to the user in a run, in order. *)
Definition questions (tr : list event) : list string :=
  flat_map (fun ev => match ev with EvInput prompt _ => [prompt] | _ => [] end) tr.

(** Neither a question nor a partition listing. *)
Definition no_question_no_listing (ev : event) : bool :=
  match ev with
  | EvInput _ _ => false
  | EvRun argv _ => negb (is_partition_listing argv)
  | _ => true
  end.

(* ===================================================================== *)
(** * A scripted host, for concrete runs *)
(* ===================================================================== *)

(** A host whose processes, files and mail relay answer by fixed tables and
    whose state is what is left on standard input: [input] returns the next
    line, and raises [EOFError] when there is none. *)
Definition scripted_host
    (run : list string -> outcome CompletedProcess)
    (readlines : string -> outcome (list string))
    (smtp : outcome unit) : Host (list string) :=
  {| host_run := fun argv stdin => (run argv, stdin);
     host_readlines := fun path stdin => (readlines path, stdin);
     host_smtp := fun _ stdin => (smtp, stdin);
     host_input := fun _ stdin =>
       match stdin with
       | [] => (Raised "EOF when reading a line", [])
       | line :: rest => (Returned line, rest)
       end |}.

Definition example_config : Config :=
  {| LOG_FILE := Some "/var/log/messages";
     EMAIL_FROM := "admin@example.com";
     EMAIL_TO := "you@example.com";
     SMTP_SERVER := "smtp.example.com";
     SMTP_PORT := 587%Z;
     SMTP_USER := "smtp_user";
     SMTP_PASS := "smtp_password" |}.

Definition exited (code : Z) (out : string) : outcome CompletedProcess :=
  Returned (mkCompleted code out "").

(** One disk [sda] with one partition [sda1], mounted and busy; [smartctl]
    reports FAILED; the log is quiet. *)
Definition failing_disk_run (argv : list string) : outcome CompletedProcess :=
  match argv with
  | ["lsblk"; "-dn"; "-o"; "NAME,TYPE"] => exited 0 ("sda disk" +++ nl)
  | ["lsblk"; "-ln"; "-o"; "NAME,TYPE"; _] =>
      exited 0 ("sda disk" +++ nl +++ "sda1 part" +++ nl)
  | ["smartctl"; "-H"; _] =>
      exited 8 ("SMART overall-health self-assessment test result: FAILED!" +++ nl)
  | ["mountpoint"; "-q"; _] => exited 0 ""
  | ["umount"; _] =>
      Returned (mkCompleted 32 "" ("umount: target is busy." +++ nl))
  | ["fsck"; "-y"; _] => exited 0 "clean"
  | _ => Raised "No such file or directory"
  end.

Definition quiet_log (path : string) : outcome (list string) :=
  Returned ["kernel: disk nominal" +++ nl].

Definition failing_disk_host : Host (list string) :=
  scripted_host failing_disk_run quiet_log (Returned tt).

(** A host without the [mountpoint] tool: the mount query cannot be
    launched; everything else answers as on [failing_disk_host]. *)
Definition no_mountpoint_run (argv : list string) : outcome CompletedProcess :=
  match argv with
  | ["mountpoint"; "-q"; _] =>
      Raised "[Errno 2] No such file or directory: 'mountpoint'"
  | _ => failing_disk_run argv
  end.

Definition no_mountpoint_host : Host (list string) :=
  scripted_host no_mountpoint_run quiet_log (Returned tt).

(** As [failing_disk_host], with a mail relay that refuses the connection. *)
Definition smtp_down_host : Host (list string) :=
  scripted_host failing_disk_run quiet_log
    (Raised "[Errno 111] Connection refused").

(** A host whose registry lists no device, while its log reports errors. *)
Definition no_disks_run (argv : list string) : outcome CompletedProcess :=
  match argv with
  | ["lsblk"; "-dn"; "-o"; "NAME,TYPE"] => exited 0 ""
  | _ => failing_disk_run argv
  end.

Definition noisy_log (path : string) : outcome (list string) :=
  Returned ["kernel: blk_update_request: I/O error, dev sda, sector 2048" +++ nl].

Definition no_disks_host : Host (list string) :=
  scripted_host no_disks_run noisy_log (Returned tt).

(** A registry listing with a row of one field between two good rows. *)
Definition ragged_listing : string :=
  "sda disk" +++ nl +++ "garbled" +++ nl +++ "sdb disk" +++ nl.

Definition ragged_partitions : string :=
  "sda disk" +++ nl +++ "sda1 part" +++ nl +++ "garbled" +++ nl
  +++ "sda2 part" +++ nl.

Definition ragged_run (argv : list string) : outcome CompletedProcess :=
  match argv with
  | ["lsblk"; "-dn"; "-o"; "NAME,TYPE"] => exited 0 ragged_listing
  | ["lsblk"; "-ln"; "-o"; "NAME,TYPE"; _] => exited 0 ragged_partitions
  | _ => failing_disk_run argv
  end.

Definition ragged_host : Host (list string) :=
  scripted_host ragged_run quiet_log (Returned tt).

(** A host whose self-assessment prints a word that is neither verdict. *)
Definition degraded_run (argv : list string) : outcome CompletedProcess :=
  match argv with
  | ["smartctl"; "-H"; _] =>
      exited 0
        ("SMART overall-health self-assessment test result: DEGRADED" +++ nl)
  | _ => failing_disk_run argv
  end.

Definition degraded_host : Host (list string) :=
  scripted_host degraded_run quiet_log (Returned tt).

(** Two disks: sda passes its self-assessment, sdb fails it; quiet log. *)
Definition two_disks_run (argv : list string) : outcome CompletedProcess :=
  match argv with
  | ["lsblk"; "-dn"; "-o"; "NAME,TYPE"] =>
      exited 0 ("sda disk" +++ nl +++ "sdb disk" +++ nl +++ "sr0 rom" +++ nl)
  | ["smartctl"; "-H"; "/dev/sda"] =>
      exited 0 ("SMART overall-health self-assessment test result: PASSED" +++ nl)
  | ["lsblk"; "-ln"; "-o"; "NAME,TYPE"; _] => exited 0 ("sdb disk" +++ nl)
  | _ => failing_disk_run argv
  end.

Definition two_disks_host : Host (list string) :=
  scripted_host two_disks_run quiet_log (Returned tt).

(** One disk that passes; quiet log. *)
Definition healthy_run (argv : list string) : outcome CompletedProcess :=
  match argv with
  | ["smartctl"; "-H"; _] =>
      exited 0 ("SMART overall-health self-assessment test result: PASSED" +++ nl)
  | _ => failing_disk_run argv
  end.

Definition healthy_host : Host (list string) :=
  scripted_host healthy_run quiet_log (Returned tt).

(** A host whose user answers every question with the same line. *)
Definition answering_host
    (run : list string -> outcome CompletedProcess)
    (readlines : string -> outcome (list string))
    (smtp : outcome unit) (answer : string) : Host unit :=
  {| host_run := fun argv u => (run argv, u);
     host_readlines := fun path u => (readlines path, u);
     host_smtp := fun _ u => (smtp, u);
     host_input := fun _ u => (Returned answer, u) |}.

(** The failing disk of [failing_disk_host], no tool of which can be
    launched after the listing, with a user who declines every repair. *)
Definition broken_tools_run (argv : list string) : outcome CompletedProcess :=
  match argv with
  | ["lsblk"; "-dn"; "-o"; "NAME,TYPE"] => exited 0 ("sda disk" +++ nl)
  | ["lsblk"; "-ln"; "-o"; "NAME,TYPE"; _] =>
      exited 0 ("sda disk" +++ nl +++ "sda1 part" +++ nl)
  | _ => Raised "[Errno 2] No such file or directory"
  end.

Definition declining_host : Host unit :=
  answering_host broken_tools_run (fun _ => Raised "[Errno 13] Permission denied")
    (Raised "[Errno 111] Connection refused") " No ".

(** The same machine with a terminal: no tool can be launched after the
    listings, the log cannot be read and the relay refuses. *)
Definition broken_tools_host : Host (list string) :=
  scripted_host broken_tools_run (fun _ => Raised "[Errno 13] Permission denied")
    (Raised "[Errno 111] Connection refused").

(* ===================================================================== *)
(** * Lemmas on strings *)
(* ===================================================================== *)

Example isspace_table :
  code_points isspace = [9; 10; 11; 12; 13; 28; 29; 30; 31; 32; 133; 160].
Proof. vm_compute. reflexivity. Qed.

Example islinebreak_table :
  code_points islinebreak = [10; 11; 12; 13; 28; 29; 30; 133].
Proof. vm_compute. reflexivity. Qed.

Example isupper_table :
  code_points isupper = seq 65 26 ++ seq 192 23 ++ seq 216 7.
Proof. vm_compute. reflexivity. Qed.

Example isword_table :
  code_points isword
  = seq 48 10 ++ seq 65 26 ++ [95] ++ seq 97 26
    ++ [170; 178; 179; 181; 185; 186; 188; 189; 190]
    ++ seq 192 23 ++ seq 216 31 ++ seq 248 8.
Proof. vm_compute. reflexivity. Qed.

Example strip_ex : strip ("  sda disk" +++ nl) = "sda disk".
Proof. reflexivity. Qed.

Example split_ex :
  split_on newline (strip ("sda disk" +++ nl +++ "sr0 rom" +++ nl))
  = ["sda disk"; "sr0 rom"]
  /\ split_on newline (strip "") = [""]
  /\ split_ws "  sda   disk " = ["sda"; "disk"]
  /\ split_ws "" = [].
Proof. repeat split; reflexivity. Qed.

Example splitlines_ex :
  splitlines ("ab" +++ nl +++ nl +++ "cd" +++ nl) = ["ab"; ""; "cd"]
  /\ splitlines "" = [].
Proof. split; reflexivity. Qed.

Lemma append_nil_r (s : string) : s +++ "" = s.
Proof. induction s as [|c s IH]; simpl; [reflexivity | now rewrite IH]. Qed.

Lemma append_assoc (a b c : string) : (a +++ b) +++ c = a +++ b +++ c.
Proof. induction a as [|x a IH]; simpl; [reflexivity | now rewrite IH]. Qed.

Lemma lower_app (a b : string) : lower (a +++ b) = lower a +++ lower b.
Proof. induction a as [|x a IH]; simpl; [reflexivity | now rewrite IH]. Qed.

(** A split of [lower s] comes from a split of [s]. *)
Lemma lower_split (s a b : string) :
  lower s = a +++ b ->
  exists a' b', s = a' +++ b' /\ lower a' = a /\ lower b' = b.
Proof.
  revert s; induction a as [|x a IH]; intros s H; simpl in H.
  - exists "", s. auto.
  - destruct s as [|c s]; simpl in H; [discriminate|].
    injection H as Hc Hs.
    destruct (IH _ Hs) as (a' & b' & -> & Ha & Hb).
    exists (String c a'), b'. simpl. now rewrite Hc, Ha, Hb.
Qed.

Lemma startswith_spec (p s : string) :
  startswith p s = true <-> exists t, s = p +++ t.
Proof.
  revert s; induction p as [|a p IH]; intros s; simpl.
  - split; [intros _; now exists s | auto].
  - destruct s as [|b s].
    + split; [discriminate | intros [t H]; discriminate].
    + rewrite andb_true_iff, Ascii.eqb_eq, IH. split.
      * intros [-> [t ->]]. now exists t.
      * intros [t H]. injection H as -> ->. split; [reflexivity | now exists t].
Qed.

(** [needle in hay] is the substring relation. *)
Lemma contains_spec (needle hay : string) :
  contains needle hay = true <->
  exists pre post, hay = pre +++ needle +++ post.
Proof.
  induction hay as [|c hay IH].
  - simpl. rewrite orb_false_r, startswith_spec. split.
    + intros [t H]. now exists "", t.
    + intros (pre & post & H). destruct pre; simpl in H.
      * now exists post.
      * discriminate.
  - cbn [contains]. rewrite orb_true_iff, startswith_spec, IH. split.
    + intros [[t H] | (pre & post & H)].
      * now exists "", t.
      * exists (String c pre), post. simpl. now rewrite H.
    + intros (pre & post & H). destruct pre as [|x pre]; simpl in H.
      * left. now exists post.
      * right. injection H as _ H. now exists pre, post.
Qed.

Lemma take_word_all (s : string) :
  forall c, In c (list_ascii_of_string (take_word s)) -> isword c = true.
Proof.
  induction s as [|x s IH]; simpl; [tauto|].
  destruct (isword x) eqn:E; simpl; [|tauto].
  intros c [<- | H]; auto.
Qed.

(** [take_word] splits off a prefix, and stops at the end or in front of a
    character that is not a word character. *)
Lemma take_word_split (s : string) :
  exists rest, s = take_word s +++ rest /\
    match rest with
    | EmptyString => True
    | String c _ => isword c = false
    end.
Proof.
  induction s as [|x s (rest & IH & Hrest)]; simpl.
  - now exists "".
  - destruct (isword x) eqn:E.
    + exists rest. simpl. now rewrite <- IH.
    + exists (String x s). auto.
Qed.

Lemma drop_app (a b : string) : drop (String.length a) (a +++ b) = b.
Proof. induction a as [|x a IH]; simpl; auto. Qed.

(** What [re.search] finds: when it answers [Some tok], the text holds the
    literal followed by [tok], [tok] is a non-empty run of word characters,
    and the run cannot be extended (the match is greedy). *)
Lemma re_search_some (lit s tok : string) :
  re_search_word_after lit s = Some tok ->
  tok <> "" /\
  (forall c, In c (list_ascii_of_string tok) -> isword c = true) /\
  exists pre post,
    s = pre +++ lit +++ tok +++ post /\
    match post with
    | EmptyString => True
    | String c _ => isword c = false
    end.
Proof.
  induction s as [|c s IH].
  - cbn [re_search_word_after].
    destruct (startswith lit "") eqn:E.
    + destruct (take_word (drop (String.length lit) "")) eqn:T; [discriminate|].
      destruct lit; simpl in T; discriminate.
    + discriminate.
  - cbn [re_search_word_after].
    destruct (startswith lit (String c s)) eqn:E.
    + apply startswith_spec in E as [t E]. rewrite E, drop_app.
      destruct (take_word t) as [|x tk] eqn:T.
      * rewrite <- E. intros H. destruct (IH H) as (H1 & H2 & pre & post & H3 & H4).
        repeat split; auto. exists (String c pre), post. simpl. now rewrite <- H3.
      * intros H. injection H as <-. rewrite <- T.
        destruct (take_word_split t) as (rest & Ht & Hrest).
        repeat split.
        -- rewrite T; discriminate.
        -- apply take_word_all.
        -- exists "", rest. simpl. now rewrite <- Ht.
    + intros H. destruct (IH H) as (H1 & H2 & pre & post & H3 & H4).
      repeat split; auto. exists (String c pre), post. simpl. now rewrite <- H3.
Qed.

(** When [re.search] answers [None], the literal is nowhere followed by a
    word character. *)
Lemma re_search_none (lit s : string) :
  re_search_word_after lit s = None ->
  forall pre c post, isword c = true -> s <> pre +++ lit +++ String c post.
Proof.
  induction s as [|x s IH]; intros H pre c post Hc Hs.
  - destruct pre; [|discriminate]. destruct lit; discriminate.
  - cbn [re_search_word_after] in H.
    destruct pre as [|y pre].
    + simpl in Hs.
      assert (E : startswith lit (String x s) = true)
        by (apply startswith_spec; now exists (String c post)).
      rewrite E, Hs, drop_app in H. simpl in H. rewrite Hc in H. discriminate.
    + injection Hs as _ Hs.
      destruct (if startswith lit (String x s)
                then match take_word (drop (String.length lit) (String x s)) with
                     | "" => None
                     | String a s0 => Some (String a s0)
                     end
                else None); [discriminate|].
      exact (IH H pre c post Hc Hs).
Qed.

(* ===================================================================== *)
(** * Lemmas on runs *)
(* ===================================================================== *)

Lemma same_argv_refl (a : list string) : same_argv a a = true.
Proof. induction a as [|x a IH]; simpl; [reflexivity | now rewrite String.eqb_refl]. Qed.

(** Unfolds the monad and asks the host for its next answer, case by case. *)
Ltac unfold_monad :=
  unfold try_except, bind, subprocess_run, open_readlines, smtp_send, input,
    call, print, ret, raise, out_of_fuel.

Ltac ask_host :=
  match goal with
  | |- context [host_run ?h ?a ?w] =>
      let e := fresh "e" in let cp := fresh "cp" in let w' := fresh "w" in
      let E := fresh "Hrun" in
      destruct (host_run h a w) as [[e|cp] w'] eqn:E
  | |- context [Z.eqb (returncode ?cp) 0] =>
      let E := fresh "Hrc" in destruct (Z.eqb (returncode cp) 0) eqn:E
  end.

Ltac run_to_end := unfold_monad; repeat (cbn -[String.eqb append]; try ask_host).


(** The monitor at work on two hand-written runs. *)
Example monitor_rejects_check_of_mounted :
  fsck_guarded "/dev/sda1" NotObserved
    [EvRun ["mountpoint"; "-q"; "/dev/sda1"] (exited 0 "");
     EvRun ["umount"; "/dev/sda1"] (exited 32 "");
     EvRun ["fsck"; "-y"; "/dev/sda1"] (exited 0 "")] = false.
Proof. reflexivity. Qed.

Example monitor_accepts_check_after_unmount :
  fsck_guarded "/dev/sda1" NotObserved
    [EvRun ["mountpoint"; "-q"; "/dev/sda1"] (exited 0 "");
     EvRun ["umount"; "/dev/sda1"] (exited 0 "");
     EvRun ["fsck"; "-y"; "/dev/sda1"] (exited 0 "")] = true.
Proof. reflexivity. Qed.

Section MountQueryFailure.
Context {W : Type} (host : Host W).

(** C10: when the mount query cannot be launched, [is_mounted] reports
    the error and returns [False]; [repair_filesystem] then attempts no
    unmount and goes straight to the filesystem check. *)
Theorem mount_query_failure_reads_as_unmounted
    (device e : string) (w w1 : W) :
  host_run host ["mountpoint"; "-q"; device] w = (Raised e, w1) ->
  is_mounted host device w =
    (Ok false, w1,
     [EvRun ["mountpoint"; "-q"; device] (Raised e);
      EvPrint ("Error checking mountpoint for " +++ device +++ ": " +++ e)])
  /\ let '(_, _, tr) := repair_filesystem host device w in
     umount_attempted device tr = false
     /\ fsck_invoked device tr = true
     /\ commands tr = [["mountpoint"; "-q"; device]; ["fsck"; "-y"; device]].
Proof.
  intros Hq. split.
  - unfold is_mounted. unfold_monad. now rewrite Hq.
  - unfold repair_filesystem, is_mounted, run_fsck. unfold_monad.
    rewrite Hq. cbn -[String.eqb append].
    repeat (try ask_host; cbn -[String.eqb append]);
      rewrite ?String.eqb_refl; cbn; auto.
Qed.
End MountQueryFailure.

Lemma mount_query_failure_reads_as_unmounted_witness :
  is_mounted no_mountpoint_host "/dev/sda1" [] =
    (Ok false, [],
     [EvRun ["mountpoint"; "-q"; "/dev/sda1"]
        (Raised "[Errno 2] No such file or directory: 'mountpoint'");
      EvPrint ("Error checking mountpoint for /dev/sda1: "
               +++ "[Errno 2] No such file or directory: 'mountpoint'")])
  /\ commands (snd (repair_filesystem no_mountpoint_host "/dev/sda1" [])) =
       [["mountpoint"; "-q"; "/dev/sda1"]; ["fsck"; "-y"; "/dev/sda1"]].
Proof.
  destruct (mount_query_failure_reads_as_unmounted no_mountpoint_host
              "/dev/sda1" "[Errno 2] No such file or directory: 'mountpoint'"
              [] [] eq_refl) as [H1 H2].
  split; [exact H1|].
  destruct (repair_filesystem no_mountpoint_host "/dev/sda1" []) as [[r w'] tr].
  apply H2.
Defined.

(* --------------------------------------------------------------------- *)
(** ** What a computation emits, and whether it ends *)
(* --------------------------------------------------------------------- *)

Lemma bind_ok {W A B} (m : M W A) (k : A -> M W B) (w : W) a w1 t1 :
  m w = (Ok a, w1, t1) ->
  bind m k w = (let '(r, w2, t2) := k a w1 in (r, w2, t1 ++ t2)).
Proof. intros H. unfold bind. now rewrite H. Qed.

Lemma bind_trace_prefix {W A B} (m : M W A) (k : A -> M W B) (w : W) :
  exists t, snd (bind m k w) = snd (m w) ++ t.
Proof.
  unfold bind. destruct (m w) as [[[a|e|] w1] t1]; cbn [snd].
  - destruct (k a w1) as [[r w2] t2]. now exists t2.
  - exists []. now rewrite app_nil_r.
  - exists []. now rewrite app_nil_r.
Qed.

Lemma subprocess_run_returned {W} (host : Host W) argv (w w1 : W) cp :
  host_run host argv w = (Returned cp, w1) ->
  subprocess_run host argv w = (Ok cp, w1, [EvRun argv (Returned cp)]).
Proof. intros H. unfold subprocess_run, call. now rewrite H. Qed.

Lemma subprocess_run_raised {W} (host : Host W) argv (w w1 : W) e :
  host_run host argv w = (Raised e, w1) ->
  subprocess_run host argv w = (Exc e, w1, [EvRun argv (Raised e)]).
Proof. intros H. unfold subprocess_run, call. now rewrite H. Qed.

Section Combinators.
Context {W : Type}.
Variable P : event -> bool.

Lemma emits_ret {A} (a : A) : emits P (@ret W A a).
Proof. intros w; reflexivity. Qed.

Lemma emits_raise {A} e : emits P (@raise W A e).
Proof. intros w; reflexivity. Qed.

Lemma emits_out_of_fuel {A} : emits P (@out_of_fuel W A).
Proof. intros w; reflexivity. Qed.

Lemma emits_print text : P (EvPrint text) = true -> emits P (@print W text).
Proof. intros H w; simpl. now rewrite H. Qed.

Lemma emits_call {A} (ask : W -> outcome A * W) ev :
  (forall o, P (ev o) = true) -> emits P (call ask ev).
Proof.
  intros H w. unfold call. destruct (ask w) as [[e|a] w1]; simpl; now rewrite H.
Qed.

Lemma emits_bind {A B} (m : M W A) (k : A -> M W B) :
  emits P m -> (forall a, emits P (k a)) -> emits P (bind m k).
Proof.
  intros Hm Hk w. unfold bind. specialize (Hm w).
  destruct (m w) as [[[a|e|] w1] t1]; simpl in *; auto.
  specialize (Hk a w1). destruct (k a w1) as [[r w2] t2]; simpl in *.
  rewrite forallb_app. now rewrite Hm, Hk.
Qed.

Lemma emits_try_except {A} (body : M W A) handler :
  emits P body -> (forall e, emits P (handler e)) ->
  emits P (try_except body handler).
Proof.
  intros Hb Hh w. unfold try_except. specialize (Hb w).
  destruct (body w) as [[[a|e|] w1] t1]; simpl in *; auto.
  specialize (Hh e w1). destruct (handler e w1) as [[r w2] t2]; simpl in *.
  rewrite forallb_app. now rewrite Hb, Hh.
Qed.

Lemma emits_for_each {A B} (xs : list A) (acc : B) body :
  (forall acc x, emits P (body acc x)) -> emits P (@for_each W A B xs acc body).
Proof.
  intros Hb. revert acc. induction xs as [|x xs IH]; intros acc; simpl.
  - apply emits_ret.
  - apply emits_bind; auto.
Qed.

Lemma emits_for {A} (xs : list A) body :
  (forall x, emits P (body x)) -> emits P (@for_ W A xs body).
Proof.
  intros Hb. induction xs as [|x xs IH]; simpl.
  - apply emits_ret.
  - apply emits_bind; auto.
Qed.
End Combinators.

Section Termination.
Context {W : Type}.

Lemma returns_finite {A} (m : M W A) : returns m -> finite m.
Proof. intros H w. destruct (H w) as (a & w1 & t & ->). discriminate. Qed.

Lemma returns_ret {A} (a : A) : returns (@ret W A a).
Proof. intros w. now exists a, w, []. Qed.

Lemma returns_print text : returns (@print W text).
Proof. intros w. now exists tt, w, [EvPrint text]. Qed.

Lemma returns_bind {A B} (m : M W A) (k : A -> M W B) :
  returns m -> (forall a, returns (k a)) -> returns (bind m k).
Proof.
  intros Hm Hk w. unfold bind. destruct (Hm w) as (a & w1 & t1 & ->).
  destruct (Hk a w1) as (b & w2 & t2 & ->). now exists b, w2, (t1 ++ t2).
Qed.

Lemma returns_for_each {A B} (xs : list A) (acc : B) body :
  (forall acc x, returns (body acc x)) -> returns (@for_each W A B xs acc body).
Proof.
  intros Hb. revert acc. induction xs as [|x xs IH]; intros acc; simpl.
  - apply returns_ret.
  - apply returns_bind; auto.
Qed.

Lemma returns_for {A} (xs : list A) body :
  (forall x, returns (body x)) -> returns (@for_ W A xs body).
Proof.
  intros Hb. induction xs as [|x xs IH]; simpl.
  - apply returns_ret.
  - apply returns_bind; auto.
Qed.

Lemma finite_raise {A} e : finite (@raise W A e).
Proof. intros w. discriminate. Qed.

Lemma finite_call {A} (ask : W -> outcome A * W) ev : finite (call ask ev).
Proof. intros w. unfold call. destruct (ask w) as [[e|a] w1]; discriminate. Qed.

Lemma finite_bind {A B} (m : M W A) (k : A -> M W B) :
  finite m -> (forall a, finite (k a)) -> finite (bind m k).
Proof.
  intros Hm Hk w. unfold bind. specialize (Hm w).
  destruct (m w) as [[[a|e|] w1] t1]; simpl in *; try discriminate; auto.
  specialize (Hk a w1). now destruct (k a w1) as [[r w2] t2].
Qed.

Lemma finite_for_each {A B} (xs : list A) (acc : B) body :
  (forall acc x, finite (body acc x)) -> finite (@for_each W A B xs acc body).
Proof.
  intros Hb. revert acc. induction xs as [|x xs IH]; intros acc; simpl.
  - apply returns_finite, returns_ret.
  - apply finite_bind; auto.
Qed.

(** [try/except Exception] around a body that ends, with a handler that
    returns: the whole returns. *)
Lemma returns_try_except {A} (body : M W A) handler :
  finite body -> (forall e, returns (handler e)) ->
  returns (try_except body handler).
Proof.
  intros Hb Hh w. unfold try_except. specialize (Hb w).
  destruct (body w) as [[[a|e|] w1] t1]; simpl in *.
  - now exists a, w1, t1.
  - destruct (Hh e w1) as (a & w2 & t2 & ->). now exists a, w2, (t1 ++ t2).
  - congruence.
Qed.
End Termination.

(** Goes through a definition of the script, combinator by combinator. *)
Ltac walk :=
  repeat match goal with
  | |- emits _ (bind _ _) => apply emits_bind; [|intros ?]
  | |- emits _ (try_except _ _) => apply emits_try_except; [|intros ?]
  | |- emits _ (for_each _ _ _) => apply emits_for_each; intros ? ?
  | |- emits _ (for_ _ _) => apply emits_for; intros ?
  | |- emits _ (ret _) => apply emits_ret
  | |- emits _ (raise _) => apply emits_raise
  | |- emits _ out_of_fuel => apply emits_out_of_fuel
  | |- emits _ (print _) => apply emits_print; reflexivity
  | |- emits _ (subprocess_run _ _) => apply emits_call; intros ?; reflexivity
  | |- emits _ (input _ _) => apply emits_call; intros ?; reflexivity
  | |- emits _ (open_readlines _ _) => apply emits_call; intros ?; reflexivity
  | |- emits _ (smtp_send _ _) => apply emits_call; intros ?; reflexivity
  | |- returns (bind _ _) => apply returns_bind; [|intros ?]
  | |- returns (try_except _ _) => apply returns_try_except; [|intros ?]
  | |- returns (for_each _ _ _) => apply returns_for_each; intros ? ?
  | |- returns (for_ _ _) => apply returns_for; intros ?
  | |- returns (ret _) => apply returns_ret
  | |- returns (print _) => apply returns_print
  | |- finite (bind _ _) => apply finite_bind; [|intros ?]
  | |- finite (for_each _ _ _) => apply finite_for_each; intros ? ?
  | |- finite (raise _) => apply finite_raise
  | |- finite (subprocess_run _ _) => apply finite_call
  | |- finite (open_readlines _ _) => apply finite_call
  | |- finite (smtp_send _ _) => apply finite_call
  | |- finite (ret _) => apply returns_finite, returns_ret
  | |- finite (print _) => apply returns_finite, returns_print
  | |- _ (unpack2 ?x) => unfold unpack2
  | |- _ (match ?x with _ => _ end) => destruct x
  end.

Section Functions.
Context {W : Type} (host : Host W) (config : Config).

Lemma get_disks_returns : returns (get_disks host).
Proof. unfold get_disks. walk. Qed.

Lemma get_partitions_returns disk : returns (get_partitions host disk).
Proof. unfold get_partitions. walk. Qed.

Lemma check_smart_status_returns disk : returns (check_smart_status host disk).
Proof. unfold check_smart_status. walk. Qed.

Lemma classify_disks_returns disks : returns (classify_disks host disks).
Proof. unfold classify_disks. walk; apply check_smart_status_returns. Qed.

Lemma parse_log_for_errors_returns : returns (parse_log_for_errors host config).
Proof. unfold parse_log_for_errors. walk. Qed.

Lemma send_email_returns subject body : returns (send_email host config subject body).
Proof. unfold send_email. walk. Qed.

Lemma is_mounted_returns device : returns (is_mounted host device).
Proof. unfold is_mounted. walk. Qed.

Lemma repair_filesystem_returns device : returns (repair_filesystem host device).
Proof.
  unfold repair_filesystem, run_fsck. apply returns_try_except; [|intros; walk].
  apply finite_bind; [apply returns_finite, is_mounted_returns|intros ?]. walk.
Qed.

Lemma get_disks_quiet : emits quiet (get_disks host).
Proof. unfold get_disks. walk. Qed.

Lemma get_partitions_quiet disk : emits quiet (get_partitions host disk).
Proof. unfold get_partitions. walk. Qed.

Lemma check_smart_status_quiet disk : emits quiet (check_smart_status host disk).
Proof. unfold check_smart_status. walk. Qed.

Lemma classify_disks_quiet disks : emits quiet (classify_disks host disks).
Proof. unfold classify_disks. walk. apply check_smart_status_quiet. Qed.

Lemma is_mounted_quiet device : emits quiet (is_mounted host device).
Proof. unfold is_mounted. walk. Qed.

Lemma repair_filesystem_quiet device : emits quiet (repair_filesystem host device).
Proof.
  unfold repair_filesystem, run_fsck.
  apply emits_try_except; [|intros; walk].
  apply emits_bind; [apply is_mounted_quiet|intros ?]. walk.
Qed.

Lemma ask_repair_quiet fuel part : emits quiet (ask_repair host fuel part).
Proof.
  induction fuel as [|fuel IH]; cbn [ask_repair]; walk;
    auto using repair_filesystem_quiet.
Qed.

Lemma prompt_repair_quiet fuel disks : emits quiet (prompt_repair host fuel disks).
Proof.
  unfold prompt_repair. apply emits_for; intros disk.
  apply emits_bind; [walk|intros _].
  apply emits_bind; [apply get_partitions_quiet|intros parts].
  destruct parts; [walk|].
  apply emits_for; intros part.
  apply emits_bind; [apply is_mounted_quiet|intros m].
  apply emits_bind; [destruct m; walk|intros _].
  apply ask_repair_quiet.
Qed.
End Functions.

(* --------------------------------------------------------------------- *)
(** ** Quiet traces *)
(* --------------------------------------------------------------------- *)

Lemma quiet_no_alert (tr : list event) :
  forallb quiet tr = true -> alert_fired tr = false /\ alerts tr = [].
Proof.
  unfold alert_fired. induction tr as [|ev tr IH]; simpl; [auto|].
  rewrite andb_true_iff. intros [Hq Htr]. destruct (IH Htr) as [IH1 IH2].
  rewrite IH1, IH2.
  destruct ev; simpl in *; auto; discriminate.
Qed.

Lemma quiet_no_log_scan (tr : list event) :
  forallb quiet tr = true -> log_scans tr = 0.
Proof.
  unfold log_scans. induction tr as [|ev tr IH]; simpl; [auto|].
  rewrite andb_true_iff. intros [Hq Htr].
  unfold quiet in Hq. apply andb_true_iff in Hq as [_ Hq].
  apply negb_true_iff in Hq. rewrite Hq. auto.
Qed.

Lemma log_scans_app (t1 t2 : list event) :
  log_scans (t1 ++ t2) = log_scans t1 + log_scans t2.
Proof. unfold log_scans. now rewrite filter_app, length_app. Qed.

Lemma alert_fired_app (t1 t2 : list event) :
  alert_fired (t1 ++ t2) = alert_fired t1 || alert_fired t2.
Proof. apply existsb_app. Qed.

Lemma alerts_app (t1 t2 : list event) : alerts (t1 ++ t2) = alerts t1 ++ alerts t2.
Proof. apply flat_map_app. Qed.

Lemma log_prints_quiet (log_errors : list string) :
  forallb quiet (log_prints log_errors) = true.
Proof.
  assert (H : forall l, forallb quiet (map EvPrint l) = true)
    by (induction l as [|x l IH]; simpl; auto).
  destruct log_errors as [|x l]; [reflexivity|].
  cbn [log_prints forallb]. now rewrite H.
Qed.

(* --------------------------------------------------------------------- *)
(** ** The decision of [main] *)
(* --------------------------------------------------------------------- *)

Section Decision.
Context {W : Type} (host : Host W) (config : Config).

Lemma for_print_run (lines : list string) (w : W) :
  for_ lines print w = (Ok tt, w, map EvPrint lines).
Proof.
  induction lines as [|x l IH]; [reflexivity|].
  cbn [for_ map]. unfold bind at 1. cbn [print]. now rewrite IH.
Qed.

Lemma send_email_run (subject body : string) (w : W) :
  send_email host config subject body w =
    let '(o, w1) := host_smtp host (alert_session config subject body) w in
    (Ok tt, w1,
     [EvSmtp (alert_session config subject body) o; EvPrint (delivery_note o)]).
Proof.
  unfold send_email, alert_session. unfold_monad.
  destruct (host_smtp host _ w) as [[e|[]] w1]; reflexivity.
Qed.

(** [report] step by step: the log findings are printed; with nothing to
    report the run says so; otherwise the message goes to the relay, the
    outcome of the delivery is printed, and [prompt_repair] runs on the
    failed disks from the host state that the delivery attempt left. *)
Lemma report_run (fuel : nat) (failed_disks log_errors : list string) (w : W) :
  report host config fuel failed_disks log_errors w =
    match failed_disks, log_errors with
    | [], [] =>
        (Ok tt, w,
         [EvPrint (nl +++ "All disks passed SMART checks and no disk errors found in logs.")])
    | _, _ =>
        let s := alert_session config subject_line
                   (compose_body failed_disks log_errors) in
        let '(o, w1) := host_smtp host s w in
        let '(r, w2, t2) := prompt_repair host fuel failed_disks w1 in
        (r, w2,
         log_prints log_errors ++ [EvSmtp s o; EvPrint (delivery_note o)] ++ t2)
    end.
Proof.
  unfold report.
  assert (Hlog :
    (match log_errors with
     | [] => ret tt
     | _ => print (nl +++ "Disk-related errors found in system logs:") ;;;
            for_ log_errors print
     end) w = (Ok tt, w, log_prints log_errors)).
  { destruct log_errors as [|x l]; [reflexivity|].
    unfold bind at 1. cbn [print]. rewrite for_print_run. reflexivity. }
  unfold bind at 1. rewrite Hlog.
  destruct failed_disks as [|d ds], log_errors as [|x l];
    try reflexivity;
    unfold bind; rewrite send_email_run;
    destruct (host_smtp host _ w) as [o w1];
    destruct (prompt_repair host fuel _ w1) as [[r w2] t2];
    cbn [log_prints app]; rewrite <- ?app_assoc; reflexivity.
Qed.

Lemma report_alert_fired (fuel : nat) (failed_disks log_errors : list string) (w : W) :
  alert_fired (snd (report host config fuel failed_disks log_errors w)) = true
  <-> failed_disks <> [] \/ log_errors <> [].
Proof.
  rewrite report_run.
  destruct failed_disks as [|d ds], log_errors as [|x l];
    [ simpl; split; [discriminate | intros [H|H]; congruence] | | | ];
    cbv zeta;
    match goal with
    | |- context [host_smtp host ?s w] =>
        destruct (host_smtp host s w) as [o w1]
    end;
    match goal with
    | |- context [prompt_repair host fuel ?l ?w'] =>
        destruct (prompt_repair host fuel l w') as [[r w2] t2]
    end;
    cbn [snd]; rewrite !alert_fired_app; cbn; rewrite ?orb_true_r;
    (split; [intros _ | reflexivity]);
    solve [left; discriminate | right; discriminate].
Qed.

Lemma failed_set_app (a b : list (string * string)) :
  failed_set (a ++ b) = failed_set a ++ failed_set b.
Proof. unfold failed_set. now rewrite filter_app, map_app. Qed.

Lemma failed_set_one (disk status : string) :
  failed_set [(disk, status)] =
    if negb (String.eqb (lower status) "passed") then [disk] else [].
Proof.
  unfold failed_set, is_passed. cbn [filter snd].
  now destruct (negb (String.eqb (lower status) "passed")).
Qed.

Lemma failed_set_In (statuses : list (string * string)) (d : string) :
  In d (failed_set statuses) <->
  exists s, In (d, s) statuses /\ lower s <> "passed".
Proof.
  unfold failed_set. rewrite in_map_iff. split.
  - intros ([d' s] & <- & H). apply filter_In in H as [H1 H2]. simpl in *.
    exists s. split; [exact H1|].
    unfold is_passed in H2. apply negb_true_iff in H2.
    now apply String.eqb_neq.
  - intros (s & H1 & H2). exists (d, s). split; [reflexivity|].
    apply filter_In. split; [exact H1|]. simpl. unfold is_passed.
    apply negb_true_iff. now apply String.eqb_neq.
Qed.

(** The loop of [main] appends to [failed_disks] exactly the failed set
    of the statuses it sees, whatever the lists were before. *)
Lemma classify_loop_statuses (disks : list string) :
  forall (before : list (string * string)) (w : W),
  exists seen w1 t1,
    for_each disks before
      (fun statuses disk =>
         status <- check_smart_status host disk ;;
         print (disk +++ ": SMART status = " +++ status) ;;;
         ret (statuses ++ [(disk, status)])) w
      = (Ok (before ++ seen), w1, t1)
    /\ map fst seen = disks
    /\ for_each disks (failed_set before)
         (fun failed_disks disk =>
            status <- check_smart_status host disk ;;
            print (disk +++ ": SMART status = " +++ status) ;;;
            if negb (String.eqb (lower status) "passed")
            then ret (failed_disks ++ [disk])
            else ret failed_disks) w
       = (Ok (failed_set (before ++ seen)), w1, t1).
Proof.
  set (bs := fun (statuses : list (string * string)) (disk : string) => _).
  set (bf := fun (failed_disks : list string) (disk : string) => _).
  induction disks as [|disk disks IH]; intros before w.
  - exists [], w, []. rewrite app_nil_r. auto.
  - cbn [for_each].
    destruct (check_smart_status_returns host disk w) as (status & w1 & t1 & Hs).
    pose (t := t1 ++ [EvPrint (disk +++ ": SMART status = " +++ status)]).
    assert (Hbs : bs before disk w = (Ok (before ++ [(disk, status)]), w1, t)).
    { unfold bs, bind. rewrite Hs. cbn [print ret]. now rewrite app_nil_r. }
    assert (Hbf : bf (failed_set before) disk w
                  = (Ok (failed_set (before ++ [(disk, status)])), w1, t)).
    { unfold bf, bind. rewrite Hs. cbn [print].
      rewrite failed_set_app, failed_set_one.
      destruct (negb (String.eqb (lower status) "passed"));
        cbn [ret]; now rewrite !app_nil_r. }
    destruct (IH (before ++ [(disk, status)]) w1)
      as (seen & w2 & t2 & H1 & H2 & H3).
    exists ((disk, status) :: seen), w2, (t ++ t2).
    replace (before ++ (disk, status) :: seen)
      with ((before ++ [(disk, status)]) ++ seen)
      by now rewrite <- app_assoc.
    split; [|split].
    + rewrite (bind_ok _ _ _ _ _ _ Hbs). now rewrite H1.
    + simpl. now rewrite H2.
    + rewrite (bind_ok _ _ _ _ _ _ Hbf). now rewrite H3.
Qed.

(** [parse_log_for_errors] hands nothing to the mail relay. *)
Lemma parse_log_for_errors_sends_nothing (w : W) :
  alert_fired (snd (parse_log_for_errors host config w)) = false.
Proof.
  unfold parse_log_for_errors. unfold_monad.
  destruct (LOG_FILE config) as [[|c path]|].
  - destruct (host_run host _ w) as [[e|cp] w1]; reflexivity.
  - destruct (host_readlines host _ w) as [[e|logs] w1]; reflexivity.
  - destruct (host_run host _ w) as [[e|cp] w1]; reflexivity.
Qed.

(** A run of [main] that found disks, in its four parts: the enumeration,
    the classification loop, the log scan, and [report] applied to what the
    loop and the scan returned. *)
Lemma main_run (fuel : nat) (w w0 w1 w2 : W) (d : string)
    (ds failed anomalies : list string) (t0 t1 t2 : list event) :
  get_disks host w = (Ok (d :: ds), w0, t0) ->
  classify_disks host (d :: ds) w0 = (Ok failed, w1, t1) ->
  parse_log_for_errors host config w1 = (Ok anomalies, w2, t2) ->
  main host config fuel w =
    (let '(r, w3, t3) := report host config fuel failed anomalies w2 in
     (r, w3, t0 ++ t1 ++ t2 ++ t3)).
Proof.
  intros Hd Hf He. unfold main.
  rewrite (bind_ok _ _ _ _ _ _ Hd), (bind_ok _ _ _ _ _ _ Hf),
    (bind_ok _ _ _ _ _ _ He).
  now destruct (report host config fuel failed anomalies w2) as [[r w3] t3].
Qed.

(** C2: in every run of [main] that reaches the decision (lines 159-188),
    the loop computes the failed set of the map of statuses, a disk being
    in that set exactly when its status is not [Passed]; [main] hands that
    set and the anomalies returned by the log scan to the decision, and the
    run sends the alert if and only if the failed set or the sequence of
    anomalies is non-empty.  The decision itself does so for every failed
    set and every sequence of anomalies.  A run that enumerates no disk
    does not reach the decision and sends nothing. *)
Theorem alert_iff_failed_or_anomalous (fuel : nat) (w : W) :
  exists disks w0 t0,
    get_disks host w = (Ok disks, w0, t0)
    /\ match disks with
       | [] =>
           main host config fuel w = (Ok tt, w0, t0 ++ [EvPrint "No disks found."])
           /\ alert_fired (snd (main host config fuel w)) = false
       | _ :: _ =>
           exists statuses w1 t1 anomalies w2 t2,
             health_statuses host disks w0 = (Ok statuses, w1, t1)
             /\ map fst statuses = disks
             /\ classify_disks host disks w0 = (Ok (failed_set statuses), w1, t1)
             /\ parse_log_for_errors host config w1 = (Ok anomalies, w2, t2)
             /\ main host config fuel w =
                  (let '(r, w3, t3) :=
                     report host config fuel (failed_set statuses) anomalies w2 in
                   (r, w3, t0 ++ t1 ++ t2 ++ t3))
             /\ (forall d, In d (failed_set statuses) <->
                           exists s, In (d, s) statuses /\ is_passed s = false)
             /\ (alert_fired (snd (main host config fuel w)) = true
                 <-> failed_set statuses <> [] \/ anomalies <> [])
       end
    /\ is_passed "PASSED" = true
    /\ Forall (fun s => is_passed s = false) ["FAILED"; "UNKNOWN"; "ERROR"]
    /\ forall (failed_disks log_errors : list string) (w' : W),
         alert_fired
           (snd (report host config fuel failed_disks log_errors w')) = true
         <-> failed_disks <> [] \/ log_errors <> [].
Proof.
  pose proof (get_disks_quiet host w) as Hq.
  destruct (get_disks_returns host w) as (disks & w0 & t0 & Hd).
  rewrite Hd in Hq. cbn [snd] in Hq.
  exists disks, w0, t0. split; [exact Hd|].
  split; [|split; [reflexivity|split; [repeat constructor|]]].
  - destruct disks as [|d ds].
    + assert (Hmain : main host config fuel w
                      = (Ok tt, w0, t0 ++ [EvPrint "No disks found."]))
        by (unfold main; now rewrite (bind_ok _ _ _ _ _ _ Hd)).
      split; [exact Hmain|]. rewrite Hmain. cbn [snd].
      rewrite alert_fired_app, (proj1 (quiet_no_alert _ Hq)). reflexivity.
    + destruct (classify_loop_statuses (d :: ds) [] w0)
        as (seen & w1 & t1 & H1 & H2 & H3).
      cbn [app] in H1, H3.
      change (classify_disks host (d :: ds) w0 = (Ok (failed_set seen), w1, t1)) in H3.
      change (health_statuses host (d :: ds) w0 = (Ok seen, w1, t1)) in H1.
      pose proof (classify_disks_quiet host (d :: ds) w0) as Hc.
      rewrite H3 in Hc. cbn [snd] in Hc.
      pose proof (parse_log_for_errors_sends_nothing w1) as Hp.
      destruct (parse_log_for_errors_returns host config w1)
        as (anomalies & w2 & t2 & He).
      rewrite He in Hp. cbn [snd] in Hp.
      pose proof (main_run fuel _ _ _ _ _ _ _ _ _ _ _ Hd H3 He) as Hmain.
      exists seen, w1, t1, anomalies, w2, t2.
      split; [exact H1|]. split; [exact H2|]. split; [exact H3|].
      split; [exact He|]. split; [exact Hmain|]. split.
      * intros x. rewrite failed_set_In. unfold is_passed.
        split; intros (s & Hs & Hpass); exists s; (split; [exact Hs|]);
          now apply String.eqb_neq.
      * rewrite Hmain.
        pose proof (report_alert_fired fuel (failed_set seen) anomalies w2) as Hr.
        destruct (report host config fuel (failed_set seen) anomalies w2)
          as [[r w3] t3].
        cbn [snd] in *. rewrite !alert_fired_app.
        rewrite (proj1 (quiet_no_alert _ Hq)), (proj1 (quiet_no_alert _ Hc)), Hp.
        exact Hr.
  - intros failed_disks log_errors w'. apply report_alert_fired.
Qed.
End Decision.

(** The two runs of the specification's example: of a passing and a
    failing disk, only the failing one is listed in the alert; when every
    disk passes and the log is quiet, no alert is sent. *)
Example alert_lists_only_failed_disk :
  fst (fst (classify_disks two_disks_host ["/dev/sda"; "/dev/sdb"] [])) = Ok ["/dev/sdb"]
  /\ map msg_content (alerts (snd (main two_disks_host example_config 1 [])))
     = ["The following disk issues were detected:" +++ nl +++ nl
        +++ "Failed or failing disks (SMART):" +++ nl
        +++ " - /dev/sdb" +++ nl +++ nl].
Proof. split; reflexivity. Qed.

Example no_alert_when_all_passed :
  main healthy_host example_config 1 []
  = (Ok tt, [],
     [EvRun ["lsblk"; "-dn"; "-o"; "NAME,TYPE"] (exited 0 ("sda disk" +++ nl));
      EvRun ["smartctl"; "-H"; "/dev/sda"]
        (exited 0 ("SMART overall-health self-assessment test result: PASSED" +++ nl));
      EvPrint "/dev/sda: SMART status = PASSED";
      EvRead "/var/log/messages" (Returned ["kernel: disk nominal" +++ nl]);
      EvPrint (nl +++ "All disks passed SMART checks and no disk errors found in logs.")]).
Proof. reflexivity. Qed.

(* --------------------------------------------------------------------- *)
(** ** The alert payload *)
(* --------------------------------------------------------------------- *)

Lemma fold_items (items : list string) (body : string) :
  fold_left (fun body item => body +++ " - " +++ item +++ nl) items body
  = body +++ itemize items.
Proof.
  revert body. induction items as [|x items IH]; intros body.
  - simpl. now rewrite append_nil_r.
  - cbn [fold_left itemize]. rewrite IH. now rewrite !append_assoc.
Qed.

Lemma compose_body_sections (failed_disks log_errors : list string) :
  compose_body failed_disks log_errors
  = body_intro +++ failed_section failed_disks +++ log_section log_errors.
Proof.
  unfold compose_body, failed_section, log_section.
  fold body_intro.
  destruct failed_disks as [|d ds], log_errors as [|x l];
    rewrite ?fold_items, ?append_assoc, ?append_nil_r; cbn [append];
    rewrite ?append_assoc, ?append_nil_r; reflexivity.
Qed.

Section Payload.
Context {W : Type} (host : Host W) (config : Config).

(** C7: the body of the alert is the introduction, then the failed disks
    itemized, then the anomalous log lines itemized, an empty category
    adding nothing; and every message that [main] hands to the relay has
    the fixed subject and that body. *)
Theorem alert_payload_structure :
  (forall failed_disks log_errors,
      compose_body failed_disks log_errors
      = body_intro +++ failed_section failed_disks +++ log_section log_errors)
  /\ failed_section [] = "" /\ log_section [] = ""
  /\ (forall fuel failed_disks log_errors (w : W) msg,
        In msg (alerts (snd (report host config fuel failed_disks log_errors w))) ->
        msg_Subject msg = subject_line
        /\ msg_content msg
           = body_intro +++ failed_section failed_disks +++ log_section log_errors).
Proof.
  split; [exact compose_body_sections|].
  split; [reflexivity|]. split; [reflexivity|].
  intros fuel failed_disks log_errors w msg. rewrite report_run.
  assert (Hq : forall l w1, alerts (snd (prompt_repair host fuel l w1)) = [])
    by (intros l w1; apply quiet_no_alert, prompt_repair_quiet).
  destruct failed_disks as [|d ds], log_errors as [|x l];
    [ simpl; tauto | | | ];
    cbv zeta;
    match goal with
    | |- context [host_smtp host ?s w] =>
        destruct (host_smtp host s w) as [o w1]
    end;
    match goal with
    | |- context [prompt_repair host fuel ?l ?w'] =>
        specialize (Hq l w');
        destruct (prompt_repair host fuel l w') as [[r w2] t2]
    end;
    cbn [snd] in *; rewrite !alerts_app, Hq;
    rewrite (proj2 (quiet_no_alert _ (log_prints_quiet _)));
    cbn [alerts flat_map app smtp_msg alert_session];
    (intros [<- | []]); cbn [msg_Subject msg_content];
    (split; [reflexivity | apply compose_body_sections]).
Qed.
End Payload.

(** Witness for C7: the alert of the run on [failing_disk_host]. *)
Lemma alert_payload_structure_witness :
  let msg := mkEmail "admin@example.com" "you@example.com"
               "Disk Health Alert on Red Hat System"
               ("The following disk issues were detected:" +++ nl +++ nl
                +++ "Failed or failing disks (SMART):" +++ nl
                +++ " - /dev/sda" +++ nl +++ nl) in
  In msg (alerts (snd (report failing_disk_host example_config 2 ["/dev/sda"] [] ["no"])))
  /\ msg_content msg = body_intro +++ failed_section ["/dev/sda"] +++ log_section [].
Proof.
  cbv zeta. split.
  - vm_compute. left. reflexivity.
  - apply (proj2 (proj2 (proj2 (alert_payload_structure failing_disk_host example_config)))
             2 ["/dev/sda"] [] ["no"]).
    vm_compute. left. reflexivity.
Defined.

(* --------------------------------------------------------------------- *)
(** ** Delivery failures *)
(* --------------------------------------------------------------------- *)

Section Delivery.
Context {W : Type} (host : Host W) (config : Config).

(** C8: when the alert fires, whatever the delivery attempt does ([o] is
    its outcome: it raised [e], or it went through), [send_email] returns
    normally after printing the outcome, and [main] goes on with
    [prompt_repair] on the same failed disks, from the host state that
    the attempt left; a failed delivery changes the printed note only. *)
Theorem delivery_failure_keeps_repair
    (fuel : nat) (failed_disks log_errors : list string) (w w1 : W)
    (o : outcome unit) :
  failed_disks <> [] \/ log_errors <> [] ->
  let body := compose_body failed_disks log_errors in
  let s := alert_session config subject_line body in
  host_smtp host s w = (o, w1) ->
  send_email host config subject_line body w
    = (Ok tt, w1, [EvSmtp s o; EvPrint (delivery_note o)])
  /\ (forall e, o = Raised e ->
                delivery_note o = "Failed to send email: " +++ e)
  /\ report host config fuel failed_disks log_errors w
     = let '(r, w2, t2) := prompt_repair host fuel failed_disks w1 in
       (r, w2,
        log_prints log_errors ++ [EvSmtp s o; EvPrint (delivery_note o)] ++ t2).
Proof.
  intros Hfire body s Hs. split; [|split].
  - rewrite send_email_run. fold s. now rewrite Hs.
  - intros e ->. reflexivity.
  - rewrite report_run. fold body. fold s.
    destruct failed_disks as [|d ds], log_errors as [|x l];
      [destruct Hfire; congruence | | | ]; cbv zeta; now rewrite Hs.
Qed.
End Delivery.

(** Witness for C8: the relay refuses the connection; the repair prompt for
    /dev/sda1 still comes, and is answered "no". *)
Lemma delivery_failure_keeps_repair_witness :
  report smtp_down_host example_config 2 ["/dev/sda"] [] ["no"]
  = (Ok tt, [],
     [EvSmtp (alert_session example_config subject_line (compose_body ["/dev/sda"] []))
        (Raised "[Errno 111] Connection refused");
      EvPrint "Failed to send email: [Errno 111] Connection refused";
      EvPrint (nl +++ "Disk /dev/sda has issues. Checking partitions for repair...");
      EvRun ["lsblk"; "-ln"; "-o"; "NAME,TYPE"; "/dev/sda"]
        (exited 0 ("sda disk" +++ nl +++ "sda1 part" +++ nl));
      EvRun ["mountpoint"; "-q"; "/dev/sda1"] (exited 0 "");
      EvPrint "Partition /dev/sda1 is mounted.";
      EvInput "Do you want to run fsck repair on /dev/sda1? (yes/no): " (Returned "no");
      EvPrint "Skipping repair on /dev/sda1."]).
Proof.
  destruct (delivery_failure_keeps_repair smtp_down_host example_config
              2 ["/dev/sda"] [] ["no"] ["no"]
              (Raised "[Errno 111] Connection refused")
              (or_introl (fun H => @nil_cons _ _ _ (eq_sym H)))
              eq_refl) as (_ & _ & H).
  rewrite H. vm_compute. reflexivity.
Defined.

(* --------------------------------------------------------------------- *)
(** ** The log scan *)
(* --------------------------------------------------------------------- *)

Section LogScan.
Context {W : Type} (host : Host W) (config : Config).

(** One call of [parse_log_for_errors] queries the log source once,
    whether the source answers or not. *)
Lemma parse_log_for_errors_scans_once (w : W) :
  log_scans (snd (parse_log_for_errors host config w)) = 1
  /\ alert_fired (snd (parse_log_for_errors host config w)) = false.
Proof.
  unfold parse_log_for_errors. unfold_monad.
  destruct (LOG_FILE config) as [[|c path]|].
  - destruct (host_run host _ w) as [[e|cp] w1]; split; reflexivity.
  - destruct (host_readlines host _ w) as [[e|logs] w1]; split; reflexivity.
  - destruct (host_run host _ w) as [[e|cp] w1]; split; reflexivity.
Qed.

Lemma report_no_log_scan (fuel : nat) (failed_disks log_errors : list string) (w : W) :
  log_scans (snd (report host config fuel failed_disks log_errors w)) = 0.
Proof.
  rewrite report_run.
  pose proof (fun l w1 => quiet_no_log_scan _ (prompt_repair_quiet host fuel l w1)) as Hq.
  pose proof (quiet_no_log_scan _ (log_prints_quiet log_errors)) as Hl.
  destruct failed_disks as [|d ds], log_errors as [|x l];
    [ reflexivity | | | ];
    cbv zeta;
    match goal with
    | |- context [host_smtp host ?s w] =>
        destruct (host_smtp host s w) as [o w1]
    end;
    match goal with
    | |- context [prompt_repair host fuel ?l ?w'] =>
        specialize (Hq l w');
        destruct (prompt_repair host fuel l w') as [[r w2] t2]
    end;
    cbn [snd] in *; rewrite !log_scans_app, Hq, Hl; reflexivity.
Qed.

(** C3, as the code has it: [get_disks] always returns; when it returns
    no disk, [main] prints "No disks found." and returns at once, so the
    log source is not queried and no alert fires; when it returns at least
    one disk, the log source is queried exactly once in the run, whatever
    the classification gives. *)
Theorem log_scan_once_when_disks_found (fuel : nat) (w : W) :
  match get_disks host w with
  | (Ok [], w1, t1) =>
      main host config fuel w = (Ok tt, w1, t1 ++ [EvPrint "No disks found."])
      /\ log_scans (snd (main host config fuel w)) = 0
      /\ alert_fired (snd (main host config fuel w)) = false
  | (Ok (_ :: _), _, _) =>
      log_scans (snd (main host config fuel w)) = 1
  | _ => False
  end.
Proof.
  pose proof (get_disks_quiet host w) as Hq.
  destruct (get_disks_returns host w) as (disks & w1 & t1 & Hd).
  unfold main. rewrite (bind_ok _ _ _ _ _ _ Hd). rewrite Hd in *. cbn [snd] in Hq.
  destruct disks as [|d ds].
  - cbn [print snd]. split; [reflexivity|].
    rewrite log_scans_app, alert_fired_app, (quiet_no_log_scan _ Hq),
      (proj1 (quiet_no_alert _ Hq)). split; reflexivity.
  - pose proof (classify_disks_quiet host (d :: ds) w1) as Hc.
    destruct (classify_disks_returns host (d :: ds) w1) as (failed & w2 & t2 & Hf).
    rewrite (bind_ok _ _ _ _ _ _ Hf). rewrite Hf in Hc. cbn [snd] in Hc.
    destruct (parse_log_for_errors_scans_once w2) as [Hp _].
    destruct (parse_log_for_errors_returns host config w2) as (errs & w3 & t3 & He).
    rewrite (bind_ok _ _ _ _ _ _ He). rewrite He in Hp. cbn [snd] in Hp.
    pose proof (report_no_log_scan fuel failed errs w3) as Hr.
    destruct (report host config fuel failed errs w3) as [[r w4] t4].
    cbn [snd] in *. rewrite !log_scans_app.
    rewrite (quiet_no_log_scan _ Hq), (quiet_no_log_scan _ Hc), Hp, Hr.
    reflexivity.
Qed.
End LogScan.

(** Counterexample to C3 as stated: the registry lists no device and the
    log holds an I/O error.  The scan, if run, returns that line; but [main]
    stops after "No disks found.", having queried no log source and sent no
    alert. *)
Lemma empty_enumeration_skips_log_scan :
  fst (fst (parse_log_for_errors no_disks_host example_config []))
    = Ok ["kernel: blk_update_request: I/O error, dev sda, sector 2048"]
  /\ main no_disks_host example_config 1 []
     = (Ok tt, [],
        [EvRun ["lsblk"; "-dn"; "-o"; "NAME,TYPE"] (exited 0 "");
         EvPrint "Error getting disks: not enough values to unpack (expected 2, got 0)";
         EvPrint "No disks found."])
  /\ log_scans (snd (main no_disks_host example_config 1 [])) <> 1
  /\ alert_fired (snd (main no_disks_host example_config 1 [])) = false.
Proof.
  split; [reflexivity|]. split; [reflexivity|]. split; [|reflexivity].
  vm_compute. discriminate.
Qed.

(* --------------------------------------------------------------------- *)
(** ** Enumeration and malformed rows *)
(* --------------------------------------------------------------------- *)

Section Rows.
Context {W : Type}.
Variable kind : string.


Lemma row_malformed (entries : list string) (line : string) (w : W) :
  List.length (split_ws line) <> 2 ->
  exists e, row_step (W:=W) kind entries line w = (Exc e, w, []).
Proof.
  intros H. unfold row_step, bind, unpack2.
  destruct (split_ws line) as [|a [|b [|c l]]]; cbn [raise];
    try (eexists; reflexivity).
  now contradiction H.
Qed.

Lemma row_result (entries : list string) (line : string) (w : W) :
  (exists e, row_step (W:=W) kind entries line w = (Exc e, w, []))
  \/ (exists entries', row_step (W:=W) kind entries line w = (Ok entries', w, [])).
Proof.
  unfold row_step, bind, unpack2.
  destruct (split_ws line) as [|a [|b [|c l]]]; cbn [raise ret snd fst];
    try (left; eexists; reflexivity).
  right. destruct (String.eqb b kind); eexists; reflexivity.
Qed.

(** When every row has two fields, the loop collects the rows of the right
    kind. *)
Lemma rows_collect (lines : list string) :
  forall (entries : list string) (w : W),
    Forall (fun line => List.length (split_ws line) = 2) lines ->
    for_each lines entries (row_step kind) w
    = (Ok (entries ++
           flat_map
             (fun line =>
                match split_ws line with
                | [name; typ] => if String.eqb typ kind then ["/dev/" +++ name] else []
                | _ => []
                end) lines), w, []).
Proof.
  induction lines as [|l lines IH]; intros entries w Hall.
  - cbn. now rewrite app_nil_r.
  - inversion Hall as [|? ? Hl Hrest]; subst. cbn [for_each flat_map].
    destruct (split_ws l) as [|name [|typ [|c r]]] eqn:E; try discriminate.
    assert (Hstep : row_step (W:=W) kind entries l w
                    = (Ok (entries ++ (if String.eqb typ kind
                                       then ["/dev/" +++ name] else [])), w, [])).
    { unfold row_step, bind, unpack2. rewrite E. cbn [ret snd fst].
      destruct (String.eqb typ kind); cbn [ret]; now rewrite ?app_nil_r. }
    rewrite (bind_ok _ _ _ _ _ _ Hstep), IH by exact Hrest.
    now rewrite <- app_assoc.
Qed.

(** One malformed row anywhere makes the whole loop raise. *)
Lemma rows_abort (lines : list string) :
  forall (entries : list string) (w : W),
    (exists line, In line lines /\ List.length (split_ws line) <> 2) ->
    exists e, for_each lines entries (row_step kind) w = (Exc e, w, []).
Proof.
  induction lines as [|l lines IH]; intros entries w (line & Hin & Hbad).
  - destruct Hin.
  - cbn [for_each]. destruct (row_result entries l w) as [[e He] | [entries' He]].
    + exists e. unfold bind. now rewrite He.
    + destruct Hin as [-> | Hin].
      * destruct (row_malformed entries line w Hbad) as [e He']. congruence.
      * destruct (IH entries' w (ex_intro _ line (conj Hin Hbad))) as [e Hrest].
        exists e. rewrite (bind_ok _ _ _ _ _ _ He). now rewrite Hrest.
Qed.
End Rows.

Section Enumeration.
Context {W : Type} (host : Host W).

(** C4, as the code has it: the rows of a registry output are its lines
    after the whitespace at the two ends of the whole output has been
    stripped; a row with fewer than two fields aborts the enumeration:
    [get_disks] and [get_partitions] print the error and return the empty
    list, the entries of the other rows included. *)
Theorem malformed_row_empties_enumeration
    (cp : CompletedProcess) (line : string) (w w1 : W) :
  In line (split_on newline (strip (stdout cp))) ->
  List.length (split_ws line) < 2 ->
  (host_run host ["lsblk"; "-dn"; "-o"; "NAME,TYPE"] w = (Returned cp, w1) ->
   exists e,
     get_disks host w =
       (Ok [], w1,
        [EvRun ["lsblk"; "-dn"; "-o"; "NAME,TYPE"] (Returned cp);
         EvPrint ("Error getting disks: " +++ e)]))
  /\ (forall disk,
        host_run host ["lsblk"; "-ln"; "-o"; "NAME,TYPE"; disk] w = (Returned cp, w1) ->
        exists e,
          get_partitions host disk w =
            (Ok [], w1,
             [EvRun ["lsblk"; "-ln"; "-o"; "NAME,TYPE"; disk] (Returned cp);
              EvPrint ("Error getting partitions for " +++ disk +++ ": " +++ e)])).
Proof.
  intros Hin Hlen.
  assert (Hbad : exists l, In l (split_on newline (strip (stdout cp)))
                           /\ List.length (split_ws l) <> 2)
    by (exists line; split; [exact Hin | lia]).
  split; [|intros disk]; intros Hrun.
  - destruct (rows_abort "disk" _ [] w1 Hbad) as [e He]. exists e.
    unfold get_disks, try_except.
    rewrite (bind_ok _ _ _ _ _ _ (subprocess_run_returned _ _ _ _ _ Hrun)).
    change (for_each (split_on newline (strip (stdout cp))) [] _ w1)
      with (for_each (split_on newline (strip (stdout cp))) []
              (row_step (W:=W) "disk") w1).
    rewrite He. reflexivity.
  - destruct (rows_abort "part" _ [] w1 Hbad) as [e He]. exists e.
    unfold get_partitions, try_except.
    rewrite (bind_ok _ _ _ _ _ _ (subprocess_run_returned _ _ _ _ _ Hrun)).
    change (for_each (split_on newline (strip (stdout cp))) [] _ w1)
      with (for_each (split_on newline (strip (stdout cp))) []
              (row_step (W:=W) "part") w1).
    rewrite He. reflexivity.
Qed.

(** On a listing without malformed rows the enumeration is what the
    specification describes. *)
Lemma get_disks_well_formed (cp : CompletedProcess) (w w1 : W) :
  host_run host ["lsblk"; "-dn"; "-o"; "NAME,TYPE"] w = (Returned cp, w1) ->
  Forall (fun line => List.length (split_ws line) = 2)
         (split_on newline (strip (stdout cp))) ->
  get_disks host w =
    (Ok (well_formed_entries "disk" (stdout cp)), w1,
     [EvRun ["lsblk"; "-dn"; "-o"; "NAME,TYPE"] (Returned cp)]).
Proof.
  intros Hrun Hall. unfold get_disks, try_except.
  rewrite (bind_ok _ _ _ _ _ _ (subprocess_run_returned _ _ _ _ _ Hrun)).
  change (for_each (split_on newline (strip (stdout cp))) [] _ w1)
    with (for_each (split_on newline (strip (stdout cp))) []
            (row_step (W:=W) "disk") w1).
  rewrite (rows_collect "disk" _ [] w1 Hall). reflexivity.
Qed.

Lemma get_partitions_well_formed (disk : string) (cp : CompletedProcess) (w w1 : W) :
  host_run host ["lsblk"; "-ln"; "-o"; "NAME,TYPE"; disk] w = (Returned cp, w1) ->
  Forall (fun line => List.length (split_ws line) = 2)
         (split_on newline (strip (stdout cp))) ->
  get_partitions host disk w =
    (Ok (well_formed_entries "part" (stdout cp)), w1,
     [EvRun ["lsblk"; "-ln"; "-o"; "NAME,TYPE"; disk] (Returned cp)]).
Proof.
  intros Hrun Hall. unfold get_partitions, try_except.
  rewrite (bind_ok _ _ _ _ _ _ (subprocess_run_returned _ _ _ _ _ Hrun)).
  change (for_each (split_on newline (strip (stdout cp))) [] _ w1)
    with (for_each (split_on newline (strip (stdout cp))) []
            (row_step (W:=W) "part") w1).
  rewrite (rows_collect "part" _ [] w1 Hall). reflexivity.
Qed.
End Enumeration.

(** Witness for C4: the listing of [ragged_host]. *)
Lemma malformed_row_empties_enumeration_witness :
  In "garbled" (split_on newline (strip ragged_listing))
  /\ List.length (split_ws "garbled") < 2
  /\ exists e,
       get_disks ragged_host [] =
         (Ok [], [],
          [EvRun ["lsblk"; "-dn"; "-o"; "NAME,TYPE"] (exited 0 ragged_listing);
           EvPrint ("Error getting disks: " +++ e)]).
Proof.
  assert (Hin : In "garbled" (split_on newline (strip ragged_listing)))
    by (vm_compute; auto).
  assert (Hlen : List.length (split_ws "garbled") < 2) by (vm_compute; lia).
  split; [exact Hin|]. split; [exact Hlen|].
  exact (proj1 (malformed_row_empties_enumeration ragged_host
                  (mkCompleted 0 ragged_listing "") "garbled" [] [] Hin Hlen)
               eq_refl).
Defined.

(** Counterexample to C4 as stated: the listing has two good disk rows
    around the malformed one, and the enumeration returns neither; the same
    for the partitions. *)
Lemma malformed_row_drops_good_rows :
  well_formed_entries "disk" ragged_listing = ["/dev/sda"; "/dev/sdb"]
  /\ fst (fst (get_disks ragged_host [])) = Ok []
  /\ well_formed_entries "part" ragged_partitions = ["/dev/sda1"; "/dev/sda2"]
  /\ fst (fst (get_partitions ragged_host "/dev/sda" [])) = Ok [].
Proof. repeat split; reflexivity. Qed.

(** Whitespace around the whole output, blank lines included, is stripped
    before the output is split into rows: it makes no row, and so aborts
    nothing. *)
Lemma rstrip_app_blank (s post : string) :
  blank post -> rstrip (s +++ post) = rstrip s.
Proof.
  intros Hb. induction s as [|c s IH]; cbn [append rstrip].
  - induction post as [|x post IHp]; [reflexivity|]. cbn [rstrip].
    rewrite IHp by (intros y Hy; apply Hb; now right).
    now rewrite (Hb x (or_introl eq_refl)).
  - now rewrite IH.
Qed.

Lemma strip_blank_ends (pre out post : string) :
  blank pre -> blank post -> strip (pre +++ out +++ post) = strip out.
Proof.
  intros Hpre Hpost. unfold strip.
  induction pre as [|x pre IH]; cbn [append lstrip].
  - induction out as [|c out IHo]; cbn [append lstrip].
    + assert (Hl : lstrip post = "").
      { induction post as [|y post IHp]; [reflexivity|]. cbn [lstrip].
        rewrite (Hpost y (or_introl eq_refl)).
        apply IHp. intros z Hz. apply Hpost. now right. }
      now rewrite Hl.
    + destruct (isspace c); [exact IHo|].
      exact (rstrip_app_blank (String c out) post Hpost).
  - rewrite (Hpre x (or_introl eq_refl)).
    apply IH. intros z Hz. apply Hpre. now right.
Qed.

Example blank_lines_at_the_ends_are_no_rows :
  split_on newline (strip (nl +++ "sda disk" +++ nl +++ nl)) = ["sda disk"]
  /\ get_disks (scripted_host
                  (fun _ => exited 0 (nl +++ "sda disk" +++ nl +++ nl))
                  quiet_log (Returned tt)) []
     = (Ok ["/dev/sda"], [],
        [EvRun ["lsblk"; "-dn"; "-o"; "NAME,TYPE"]
           (exited 0 (nl +++ "sda disk" +++ nl +++ nl))]).
Proof. split; reflexivity. Qed.

(* --------------------------------------------------------------------- *)
(** ** The health classifier *)
(* --------------------------------------------------------------------- *)

Section Classifier.
Context {W : Type} (host : Host W).

(** C5, as the code has it: [check_smart_status] always returns, and what
    it returns is decided as follows.  The tool cannot be launched (or
    [subprocess.run] raises otherwise): "ERROR", after printing the
    error.  The tool ran, with any exit status, and its output holds the
    pattern followed by a word: that word, as printed, whatever it is.
    The tool ran and the output holds no such place: "UNKNOWN". *)
Theorem classifier_total (disk : string) (w : W) :
  match host_run host ["smartctl"; "-H"; disk] w with
  | (Raised e, w1) =>
      check_smart_status host disk w =
        (Ok "ERROR", w1,
         [EvRun ["smartctl"; "-H"; disk] (Raised e);
          EvPrint ("Error checking SMART status for " +++ disk +++ ": " +++ e)])
  | (Returned cp, w1) =>
      exists status,
        check_smart_status host disk w =
          (Ok status, w1, [EvRun ["smartctl"; "-H"; disk] (Returned cp)])
        /\ ((status <> ""
             /\ (forall c, In c (list_ascii_of_string status) -> isword c = true)
             /\ exists pre post,
                  stdout cp = pre +++ smart_pattern +++ status +++ post
                  /\ match post with
                     | EmptyString => True
                     | String c _ => isword c = false
                     end)
            \/ (status = "UNKNOWN"
                /\ forall pre c post,
                     isword c = true ->
                     stdout cp <> pre +++ smart_pattern +++ String c post))
  end.
Proof.
  destruct (host_run host ["smartctl"; "-H"; disk] w) as [[e|cp] w1] eqn:Hrun.
  - unfold check_smart_status, try_except.
    unfold bind at 1. rewrite (subprocess_run_raised _ _ _ _ _ Hrun).
    reflexivity.
  - unfold check_smart_status, try_except.
    rewrite (bind_ok _ _ _ _ _ _ (subprocess_run_returned _ _ _ _ _ Hrun)).
    destruct (re_search_word_after smart_pattern (stdout cp)) as [tok|] eqn:Hre.
    + exists tok. split; [reflexivity|]. left.
      exact (re_search_some _ _ _ Hre).
    + exists "UNKNOWN". split; [reflexivity|]. right.
      split; [reflexivity|]. exact (re_search_none _ _ Hre).
Qed.
End Classifier.

(** Counterexample to C5 as stated: the tool prints DEGRADED where the
    verdict stands; the classifier reports "DEGRADED", which is none of the
    four statuses, and [main] lists the disk as failed. *)
Lemma classifier_reports_a_fifth_status :
  check_smart_status degraded_host "/dev/sda" [] =
    (Ok "DEGRADED", [],
     [EvRun ["smartctl"; "-H"; "/dev/sda"]
        (exited 0 ("SMART overall-health self-assessment test result: DEGRADED" +++ nl))])
  /\ ~ In "DEGRADED" four_statuses.
Proof.
  split; [reflexivity|].
  unfold four_statuses. simpl. intros [H|[H|[H|[H|[]]]]]; discriminate.
Qed.

Example classifier_passed :
  re_search_word_after smart_pattern
    ("=== START OF READ SMART DATA SECTION ===" +++ nl
     +++ "SMART overall-health self-assessment test result: PASSED" +++ nl)
  = Some "PASSED".
Proof. reflexivity. Qed.

Example classifier_failed :
  re_search_word_after smart_pattern
    ("SMART overall-health self-assessment test result: FAILED!" +++ nl)
  = Some "FAILED".
Proof. reflexivity. Qed.

Example classifier_unknown :
  re_search_word_after smart_pattern ("SMART Health Status: OK" +++ nl) = None.
Proof. reflexivity. Qed.

(* --------------------------------------------------------------------- *)
(** ** Keyword matching *)
(* --------------------------------------------------------------------- *)

Lemma ci_contains_iff (keyword line : string) :
  contains (lower keyword) (lower line) = true <-> ci_contains keyword line.
Proof.
  rewrite contains_spec. unfold ci_contains. split.
  - intros (pre & post & H).
    destruct (lower_split _ _ _ H) as (pre' & rest & -> & Hpre & Hrest).
    destruct (lower_split _ _ _ Hrest) as (mid & post' & -> & Hmid & Hpost).
    now exists pre', mid, post'.
  - intros (pre & mid & post & -> & Hmid).
    exists (lower pre), (lower post). now rewrite !lower_app, Hmid.
Qed.

Lemma scan_lines_filter (logs : list string) :
  scan_lines logs = map strip (filter any_keyword logs).
Proof.
  unfold scan_lines.
  assert (H : forall errors,
             fold_left
               (fun errors line =>
                  if any_keyword line then errors ++ [strip line] else errors)
               logs errors
             = errors ++ map strip (filter any_keyword logs)).
  { induction logs as [|line logs IH]; intros errors; cbn [fold_left filter].
    - now rewrite app_nil_r.
    - rewrite IH. destruct (any_keyword line); [|reflexivity].
      cbn [map]. now rewrite <- app_assoc. }
  exact (H []).
Qed.

(** The scanner on its source: the anomalies are the flagged lines of the
    source, in order, stripped; a source that cannot be read gives none. *)
Lemma parse_log_for_errors_result {W} (host : Host W) (config : Config) (w : W) :
  fst (fst (parse_log_for_errors host config w))
  = Ok (map strip (filter any_keyword (log_lines host config w))).
Proof.
  unfold parse_log_for_errors, log_lines. unfold_monad.
  destruct (LOG_FILE config) as [[|c path]|].
  - destruct (host_run host _ w) as [[e|cp] w1]; cbn [fst];
      now rewrite ?scan_lines_filter.
  - destruct (host_readlines host _ w) as [[e|logs] w1]; cbn [fst];
      now rewrite ?scan_lines_filter.
  - destruct (host_run host _ w) as [[e|cp] w1]; cbn [fst];
      now rewrite ?scan_lines_filter.
Qed.

(** C6: a line is flagged exactly when it case-insensitively contains a
    keyword of the vocabulary, as a substring; the scanner returns the
    flagged lines of its source, in order, stripped; 'ATA bus ERROR
    detected' is flagged and 'disk nominal' is not, while 'errorless' is
    (no word boundary is required). *)
Theorem keyword_matching :
  (forall line,
      any_keyword line = true <->
      exists keyword, In keyword vocabulary /\ ci_contains keyword line)
  /\ (forall W (host : Host W) config w,
        fst (fst (parse_log_for_errors host config w))
        = Ok (map strip (filter any_keyword (log_lines host config w))))
  /\ any_keyword "ATA bus ERROR detected" = true
  /\ any_keyword "disk nominal" = false
  /\ any_keyword "errorless" = true.
Proof.
  split; [|split; [intros; apply parse_log_for_errors_result
                  | repeat split; reflexivity]].
  intros line. unfold any_keyword. rewrite existsb_exists.
  change error_keywords with vocabulary.
  split; intros (keyword & Hin & H); exists keyword; (split; [exact Hin|]);
    now apply ci_contains_iff.
Qed.

(* --------------------------------------------------------------------- *)
(** ** Exit status *)
(* --------------------------------------------------------------------- *)

Section ExitStatus.
Context {W : Type} (host : Host W).

(** Without the configuration module the process prints the instruction
    and exits with status 1 before it has asked the host for anything. *)
Lemma script_without_config (fuel : nat) (w : W) :
  script host None fuel w =
    (Some 1%Z, w,
     [EvPrint "Please create a config.py file based on config_example.py"]).
Proof. reflexivity. Qed.

(** With the configuration module, the first thing the process does is
    the device scan. *)
Lemma script_with_config_scans (config : Config) (fuel : nat) (w : W) :
  exists r tr,
    snd (script host (Some config) fuel w)
    = EvRun ["lsblk"; "-dn"; "-o"; "NAME,TYPE"] r :: tr.
Proof.
  assert (Hg : exists r t,
             snd (get_disks host w)
             = EvRun ["lsblk"; "-dn"; "-o"; "NAME,TYPE"] r :: t).
  { unfold get_disks, try_except.
    destruct (host_run host ["lsblk"; "-dn"; "-o"; "NAME,TYPE"] w)
      as [[e|cp] w1] eqn:Hrun.
    - unfold bind at 1. rewrite (subprocess_run_raised _ _ _ _ _ Hrun).
      eexists; eexists; reflexivity.
    - rewrite (bind_ok _ _ _ _ _ _ (subprocess_run_returned _ _ _ _ _ Hrun)).
      match goal with
      | |- context [for_each ?l ?a ?f w1] =>
          destruct (for_each l a f w1) as [[[entries|e|] w2] t2]
      end; eexists; eexists; reflexivity. }
  destruct Hg as (r & t & Hg). exists r.
  destruct (bind_trace_prefix (get_disks host)
              (fun disks =>
                 match disks with
                 | [] => print "No disks found."
                 | _ :: _ =>
                     failed_disks <- classify_disks host disks ;;
                     log_errors <- parse_log_for_errors host config ;;
                     report host config fuel failed_disks log_errors
                 end) w) as [t' Ht].
  exists (t ++ t').
  unfold script. fold (main host config fuel w) in Ht.
  destruct (main host config fuel w) as [[[u|e|] w1] tr];
    cbn [snd] in *; now rewrite Ht, Hg.
Qed.

Lemma escapes_of_returns {A} (m : M W A) : returns m -> escapes_only_at_input m.
Proof. intros H w. now destruct (H w) as (a & w1 & t & ->). Qed.

Lemma escapes_bind {A B} (m : M W A) (k : A -> M W B) :
  escapes_only_at_input m -> (forall a, escapes_only_at_input (k a)) ->
  escapes_only_at_input (bind m k).
Proof.
  intros Hm Hk w. unfold bind. specialize (Hm w).
  destruct (m w) as [[[a|e|] w1] t1]; auto.
  specialize (Hk a w1). destruct (k a w1) as [[[b|e|] w2] t2]; auto.
  destruct Hk as (prompt & t & ->). exists prompt, (t1 ++ t).
  now rewrite app_assoc.
Qed.

Lemma escapes_for {A} (xs : list A) (body : A -> M W unit) :
  (forall x, escapes_only_at_input (body x)) ->
  escapes_only_at_input (for_ xs body).
Proof.
  intros Hb. induction xs as [|x xs IH]; cbn [for_].
  - apply escapes_of_returns, returns_ret.
  - apply escapes_bind; auto.
Qed.

Lemma escapes_input (prompt : string) : escapes_only_at_input (input host prompt).
Proof.
  intros w. unfold input, call.
  destruct (host_input host prompt w) as [[e|typed] w1]; auto.
  now exists prompt, [].
Qed.

Lemma escapes_ask_repair (fuel : nat) (part : string) :
  escapes_only_at_input (ask_repair host fuel part).
Proof.
  induction fuel as [|fuel IH]; cbn [ask_repair].
  - intros w. exact I.
  - apply escapes_bind; [apply escapes_input|intros typed].
    destruct (mem (lower (strip typed)) ["yes"; "y"]).
    + apply escapes_of_returns. apply returns_bind; [|intros _; apply returns_ret].
      apply repair_filesystem_returns.
    + destruct (mem (lower (strip typed)) ["no"; "n"]).
      * apply escapes_of_returns, returns_print.
      * apply escapes_bind; [apply escapes_of_returns, returns_print|intros _; exact IH].
Qed.

Lemma escapes_prompt_repair (fuel : nat) (disks : list string) :
  escapes_only_at_input (prompt_repair host fuel disks).
Proof.
  unfold prompt_repair. apply escapes_for; intros disk.
  apply escapes_bind; [apply escapes_of_returns, returns_print|intros _].
  apply escapes_bind;
    [apply escapes_of_returns, get_partitions_returns|intros parts].
  destruct parts; [apply escapes_of_returns, returns_print|].
  apply escapes_for; intros part.
  apply escapes_bind; [apply escapes_of_returns, is_mounted_returns|intros m].
  apply escapes_bind; [apply escapes_of_returns, returns_print|intros _].
  apply escapes_ask_repair.
Qed.

Lemma escapes_main (config : Config) (fuel : nat) :
  escapes_only_at_input (main host config fuel).
Proof.
  unfold main.
  apply escapes_bind; [apply escapes_of_returns, get_disks_returns|intros disks].
  destruct disks; [apply escapes_of_returns, returns_print|].
  apply escapes_bind;
    [apply escapes_of_returns, classify_disks_returns|intros failed].
  apply escapes_bind;
    [apply escapes_of_returns, parse_log_for_errors_returns|intros errs].
  unfold report.
  apply escapes_bind; [apply escapes_of_returns; destruct errs; walk|intros _].
  destruct failed, errs;
    [apply escapes_of_returns, returns_print | | | ];
    (apply escapes_bind;
     [apply escapes_of_returns, send_email_returns
     |intros _; apply escapes_prompt_repair]).
Qed.

(** The exit status of the process, case by case: without configuration it
    is 1 and nothing was asked of the host; with configuration it is 0 when
    [main] returns, and 1 only when [input] raised at a repair prompt, which
    nothing in the script catches. *)
Lemma script_exit_status (config : option Config) (fuel : nat) (w : W) :
  let '(status, _, tr) := script host config fuel w in
  match config with
  | None =>
      status = Some 1%Z
      /\ tr = [EvPrint "Please create a config.py file based on config_example.py"]
  | Some cfg =>
      match main host cfg fuel w with
      | (Ok _, _, _) => status = Some 0%Z
      | (Exc e, _, _) => status = Some 1%Z /\ raised_at_input e tr
      | (OutOfFuel, _, _) => status = None
      end
  end.
Proof.
  destruct config as [cfg|]; [|now split].
  unfold script. pose proof (escapes_main cfg fuel w) as H.
  destruct (main host cfg fuel w) as [[[u|e|] w1] tr]; auto.
Qed.
End ExitStatus.

(** C9 at its failing input: the configuration is present, /dev/sda fails
    its self-assessment and has one partition, and standard input is at end
    of file.  [input] raises [EOFError] at the first repair prompt, nothing
    catches it, and the process ends with exit status 1, after the device
    scan and after the alert. *)
Theorem exit_status_at_end_of_input :
  let '(status, _, tr) := script failing_disk_host (Some example_config) 1 [] in
  status = Some 1%Z
  /\ existsb is_device_scan tr = true
  /\ alert_fired tr = true
  /\ last tr (EvPrint "")
     = EvInput "Do you want to run fsck repair on /dev/sda1? (yes/no): "
         (Raised "EOF when reading a line").
Proof. vm_compute. repeat split; reflexivity. Qed.

(* --------------------------------------------------------------------- *)
(** ** The mount guard *)
(* --------------------------------------------------------------------- *)

Lemma same_argv_fsck (argv : list string) (device : string) :
  same_argv argv ["fsck"; "-y"; device] = true ->
  exists rest, argv = "fsck" :: rest.
Proof.
  destruct argv as [|x rest]; [discriminate|]. cbn [same_argv].
  rewrite andb_true_iff. intros [H _]. apply String.eqb_eq in H. subst.
  now exists rest.
Qed.

(** A trace without filesystem checks passes the monitor from any view. *)
Lemma no_fsck_guarded (tr : list event) :
  forallb no_fsck tr = true ->
  forall device view, fsck_guarded device view tr = true.
Proof.
  induction tr as [|ev tr IH]; [reflexivity|].
  cbn [forallb]. rewrite andb_true_iff. intros [Hev Htr] device view.
  destruct ev as [argv r| | | |]; cbn [fsck_guarded]; auto.
  destruct (same_argv argv ["mountpoint"; "-q"; device]); auto.
  destruct (same_argv argv ["umount"; device]); auto.
  destruct (same_argv argv ["fsck"; "-y"; device]) eqn:E; auto.
  apply same_argv_fsck in E as [rest ->]. discriminate.
Qed.

(** The monitor goes through a trace piece by piece. *)
Lemma fsck_guarded_app (device : string) (t1 t2 : list event) :
  forall view,
    fsck_guarded device view t1 = true ->
    (forall view', fsck_guarded device view' t2 = true) ->
    fsck_guarded device view (t1 ++ t2) = true.
Proof.
  induction t1 as [|ev t1 IH]; intros view H1 H2; [apply H2|].
  destruct ev as [argv r| | | |]; cbn [app fsck_guarded] in *; auto.
  destruct (same_argv argv ["mountpoint"; "-q"; device]); auto.
  destruct (same_argv argv ["umount"; device]); auto.
  destruct (same_argv argv ["fsck"; "-y"; device]); auto.
  destruct view; auto; discriminate.
Qed.

Section Guard.
Context {W : Type} (host : Host W) (config : Config).

Lemma guarded_of_no_fsck {A} (m : M W A) : emits no_fsck m -> guarded m.
Proof. intros H device view w. apply no_fsck_guarded, H. Qed.

Lemma guarded_bind {A B} (m : M W A) (k : A -> M W B) :
  guarded m -> (forall a, guarded (k a)) -> guarded (bind m k).
Proof.
  intros Hm Hk device view w. unfold bind. specialize (Hm device view w).
  destruct (m w) as [[[a|e|] w1] t1]; cbn [snd] in *; auto.
  pose proof (fun v => Hk a device v w1) as Hk'.
  destruct (k a w1) as [[r w2] t2]; cbn [snd] in *.
  now apply fsck_guarded_app.
Qed.

Lemma guarded_for {A} (xs : list A) (body : A -> M W unit) :
  (forall x, guarded (body x)) -> guarded (for_ xs body).
Proof.
  intros Hb. induction xs as [|x xs IH]; cbn [for_].
  - intros device view w. reflexivity.
  - apply guarded_bind; auto.
Qed.

(** One call of [repair_filesystem] keeps the guard of every partition:
    of its own, because it starts by looking at the mount state and checks
    only after seeing the partition unmounted or unmounting it; of the
    others, because it does not touch them. *)
Lemma repair_filesystem_guarded (part : string) : guarded (repair_filesystem host part).
Proof.
  intros device view w.
  unfold repair_filesystem, is_mounted, run_fsck.
  destruct (String.eqb part device) eqn:Hd.
  - apply String.eqb_eq in Hd. subst device.
    run_to_end;
      rewrite ?String.eqb_refl; cbn -[String.eqb append];
      rewrite ?String.eqb_refl; cbn -[String.eqb append];
      rewrite ?String.eqb_refl; cbn; first [reflexivity | congruence].
  - run_to_end; rewrite ?Hd; cbn; rewrite ?andb_false_r;
      first [reflexivity | congruence].
Qed.

Lemma ask_repair_guarded (fuel : nat) (part : string) :
  guarded (ask_repair host fuel part).
Proof.
  induction fuel as [|fuel IH]; cbn [ask_repair].
  - intros device view w. reflexivity.
  - apply guarded_bind; [apply guarded_of_no_fsck; walk|intros typed].
    destruct (mem (lower (strip typed)) ["yes"; "y"]).
    + apply guarded_bind; [apply repair_filesystem_guarded|intros _].
      apply guarded_of_no_fsck; walk.
    + destruct (mem (lower (strip typed)) ["no"; "n"]).
      * apply guarded_of_no_fsck; walk.
      * apply guarded_bind; [apply guarded_of_no_fsck; walk|intros _; exact IH].
Qed.

Lemma prompt_repair_guarded (fuel : nat) (disks : list string) :
  guarded (prompt_repair host fuel disks).
Proof.
  unfold prompt_repair. apply guarded_for; intros disk.
  apply guarded_bind; [apply guarded_of_no_fsck; walk|intros _].
  apply guarded_bind;
    [apply guarded_of_no_fsck; unfold get_partitions; walk|intros parts].
  destruct parts; [apply guarded_of_no_fsck; walk|].
  apply guarded_for; intros part.
  apply guarded_bind;
    [apply guarded_of_no_fsck; unfold is_mounted; walk|intros m].
  apply guarded_bind; [apply guarded_of_no_fsck; destruct m; walk|intros _].
  apply ask_repair_guarded.
Qed.

Lemma main_guarded (fuel : nat) : guarded (main host config fuel).
Proof.
  unfold main.
  apply guarded_bind;
    [apply guarded_of_no_fsck; unfold get_disks; walk|intros disks].
  destruct disks; [apply guarded_of_no_fsck; walk|].
  apply guarded_bind;
    [apply guarded_of_no_fsck; unfold classify_disks, check_smart_status; walk
    |intros failed].
  apply guarded_bind;
    [apply guarded_of_no_fsck; unfold parse_log_for_errors; walk|intros errs].
  unfold report.
  apply guarded_bind; [apply guarded_of_no_fsck; walk|intros _].
  destruct failed, errs;
    [apply guarded_of_no_fsck; walk | | | ];
    (apply guarded_bind;
     [apply guarded_of_no_fsck; unfold send_email; walk
     |intros _; apply prompt_repair_guarded]).
Qed.

(** C1: in a whole run of [main], for every partition, the monitor of the
    mount guard never rejects: no filesystem check is issued for a
    partition that was last seen mounted (or not looked at).  And in each
    run of [repair_filesystem]: when the mount query saw the partition
    mounted, an unmount is attempted before any filesystem check; when the
    unmount returned a nonzero status, the function returns [False] and
    the filesystem check is not invoked. *)
Theorem repair_never_checks_mounted (device : string) (w : W) :
  (forall fuel w0, fsck_guarded device NotObserved (snd (main host config fuel w0)) = true)
  /\ let '(r, _, tr) := repair_filesystem host device w in
     fsck_guarded device NotObserved tr = true
     /\ (observed_mounted device tr = true -> umount_before_fsck device tr = true)
     /\ (umount_failed device tr = true ->
         r = Ok false /\ fsck_invoked device tr = false).
Proof.
  split; [intros fuel w0; apply main_guarded|].
  unfold repair_filesystem, is_mounted, run_fsck.
  run_to_end;
    rewrite ?String.eqb_refl; cbn -[String.eqb append];
    rewrite ?String.eqb_refl; cbn -[String.eqb append];
    rewrite ?Hrc, ?Hrc0, ?Hrc1; cbn;
    repeat split; intros; try reflexivity; try discriminate.
Qed.
End Guard.

(** Witness for C1: a mounted, busy partition; the unmount returns 32. *)
Lemma repair_never_checks_mounted_witness :
  repair_filesystem failing_disk_host "/dev/sda1" [] =
    (Ok false, [],
     [EvRun ["mountpoint"; "-q"; "/dev/sda1"] (exited 0 "");
      EvPrint "/dev/sda1 is currently mounted. Attempting to unmount...";
      EvRun ["umount"; "/dev/sda1"]
        (Returned (mkCompleted 32 "" ("umount: target is busy." +++ nl)));
      EvPrint "Failed to unmount /dev/sda1: umount: target is busy.";
      EvPrint "Skipping repair for this partition."])
  /\ observed_mounted "/dev/sda1"
       (snd (repair_filesystem failing_disk_host "/dev/sda1" [])) = true
  /\ umount_failed "/dev/sda1"
       (snd (repair_filesystem failing_disk_host "/dev/sda1" [])) = true
  /\ fsck_invoked "/dev/sda1"
       (snd (repair_filesystem failing_disk_host "/dev/sda1" [])) = false.
Proof.
  pose proof (proj2 (repair_never_checks_mounted failing_disk_host example_config
                       "/dev/sda1" [])) as H.
  destruct (repair_filesystem failing_disk_host "/dev/sda1" []) as [[r w'] tr] eqn:E.
  vm_compute in E. injection E as <- <- <-.
  destruct H as (_ & _ & H).
  split; [reflexivity|].
  split; [reflexivity|].
  split; [reflexivity|].
  apply H. reflexivity.
Defined.

(* ===================================================================== *)
(** * Further properties of the script *)
(* ===================================================================== *)

(* --------------------------------------------------------------------- *)
(** ** Repairs need a yes *)
(* --------------------------------------------------------------------- *)

Lemma same_argv_head (argv rest : list string) (head : string) :
  same_argv argv (head :: rest) = true -> exists tail, argv = head :: tail.
Proof.
  destruct argv as [|x tail]; [discriminate|]. cbn [same_argv].
  rewrite andb_true_iff. intros [H _]. apply String.eqb_eq in H. subst.
  now exists tail.
Qed.

(** A trace without questions and repairs passes the monitor from any
    state. *)
Lemma no_repair_step_confirmed (tr : list event) :
  forallb no_repair_step tr = true ->
  forall device armed, confirmed_only device armed tr = true.
Proof.
  induction tr as [|ev tr IH]; [reflexivity|].
  cbn [forallb]. rewrite andb_true_iff. intros [Hev Htr] device armed.
  destruct ev as [argv r| | |prompt r|]; cbn [confirmed_only]; auto;
    [|discriminate].
  destruct (same_argv argv ["umount"; device]) eqn:Eu.
  - apply same_argv_head in Eu as [tail ->]. discriminate.
  - destruct (same_argv argv ["fsck"; "-y"; device]) eqn:Ef; cbn [orb]; auto.
    apply same_argv_head in Ef as [tail ->]. discriminate.
Qed.

Lemma confirmed_only_app (device : string) (t1 t2 : list event) :
  forall armed,
    confirmed_only device armed t1 = true ->
    (forall armed', confirmed_only device armed' t2 = true) ->
    confirmed_only device armed (t1 ++ t2) = true.
Proof.
  induction t1 as [|ev t1 IH]; intros armed H1 H2; [apply H2|].
  destruct ev as [argv r| | |prompt r|]; cbn [app confirmed_only] in *; auto.
  - destruct (same_argv argv ["umount"; device] || same_argv argv ["fsck"; "-y"; device]);
      auto.
    apply andb_true_iff in H1 as [-> H1]. cbn [andb]. auto.
  - destruct (String.eqb prompt (repair_prompt device)); auto.
Qed.

Section Confirmation.
Context {W : Type} (host : Host W) (config : Config).

Lemma confirming_of_no_repair_step {A} (m : M W A) :
  emits no_repair_step m -> confirming m.
Proof. intros H device armed w. apply no_repair_step_confirmed, H. Qed.

Lemma confirming_bind {A B} (m : M W A) (k : A -> M W B) :
  confirming m -> (forall a, confirming (k a)) -> confirming (bind m k).
Proof.
  intros Hm Hk device armed w. unfold bind. specialize (Hm device armed w).
  destruct (m w) as [[[a|e|] w1] t1]; cbn [snd] in *; auto.
  pose proof (fun v => Hk a device v w1) as Hk'.
  destruct (k a w1) as [[r w2] t2]; cbn [snd] in *.
  now apply confirmed_only_app.
Qed.

Lemma confirming_for {A} (xs : list A) (body : A -> M W unit) :
  (forall x, confirming (body x)) -> confirming (for_ xs body).
Proof.
  intros Hb. induction xs as [|x xs IH]; cbn [for_].
  - intros device armed w. reflexivity.
  - apply confirming_bind; auto.
Qed.

(** [repair_filesystem] on [part] passes the monitor of [device] after a
    yes, and from any state when [device] is another partition. *)
Lemma repair_filesystem_confirmed (part device : string) (armed : bool) (w : W) :
  armed = true \/ String.eqb part device = false ->
  confirmed_only device armed (snd (repair_filesystem host part w)) = true.
Proof.
  intros H. unfold repair_filesystem, is_mounted, run_fsck.
  destruct (String.eqb part device) eqn:Hd.
  - destruct H as [-> | H]; [|discriminate].
    run_to_end; rewrite ?Hd; cbn; reflexivity.
  - run_to_end; rewrite ?Hd; cbn; rewrite ?andb_false_r; reflexivity.
Qed.

Lemma repair_prompt_other (part device : string) :
  String.eqb (repair_prompt part) (repair_prompt device) = false ->
  String.eqb part device = false.
Proof.
  intros H. apply String.eqb_neq. intros ->.
  now rewrite String.eqb_refl in H.
Qed.

Lemma ask_repair_confirming (fuel : nat) (part : string) :
  confirming (ask_repair host fuel part).
Proof.
  induction fuel as [|fuel IH]; intros device armed w; cbn [ask_repair].
  - reflexivity.
  - fold (repair_prompt part). unfold bind at 1, input, call.
    destruct (host_input host (repair_prompt part) w) as [[e|typed] w1].
    + cbn [snd confirmed_only]. now destruct (String.eqb _ _).
    + match goal with
      | |- context [(if ?c then ?a else ?b) w1] =>
          destruct ((if c then a else b) w1) as [[r w2] t2] eqn:Hk
      end.
      cbn [snd app confirmed_only].
      assert (Ht2 : t2 = snd ((if mem (lower (strip typed)) ["yes"; "y"]
                               then repair_filesystem host part ;;; ret tt
                               else if mem (lower (strip typed)) ["no"; "n"]
                                    then print ("Skipping repair on " +++ part +++ ".")
                                    else print "Please answer 'yes' or 'no'." ;;;
                                         ask_repair host fuel part) w1))
        by now rewrite Hk.
      assert (Hrest : forall a,
                 a = true \/ String.eqb part device = false
                 \/ mem (lower (strip typed)) ["yes"; "y"] = false ->
                 confirmed_only device a t2 = true).
      { intros a Ha. rewrite Ht2.
        destruct (mem (lower (strip typed)) ["yes"; "y"]) eqn:Hy.
        - unfold bind.
          pose proof (repair_filesystem_confirmed part device a w1) as Hr.
          destruct (repair_filesystem host part w1) as [[[b|e|] w3] t3];
            cbn [snd ret] in *; rewrite ?app_nil_r; apply Hr;
            destruct Ha as [Ha|[Ha|Ha]]; auto; discriminate.
        - destruct (mem (lower (strip typed)) ["no"; "n"]); [reflexivity|].
          unfold bind at 1. cbn [print].
          pose proof (IH device a w1) as Hi.
          destruct (ask_repair host fuel part w1) as [[r' w3] t3].
          cbn [snd app confirmed_only] in *. exact Hi. }
      destruct (String.eqb (repair_prompt part) (repair_prompt device)) eqn:Hp.
      * apply Hrest. unfold said_yes, means_yes.
        destruct (mem (lower (strip typed)) ["yes"; "y"]); auto.
      * apply Hrest. right. left. now apply repair_prompt_other.
Qed.

Lemma prompt_repair_confirming (fuel : nat) (disks : list string) :
  confirming (prompt_repair host fuel disks).
Proof.
  unfold prompt_repair. apply confirming_for; intros disk.
  apply confirming_bind; [apply confirming_of_no_repair_step; walk|intros _].
  apply confirming_bind;
    [apply confirming_of_no_repair_step; unfold get_partitions; walk|intros parts].
  destruct parts; [apply confirming_of_no_repair_step; walk|].
  apply confirming_for; intros part.
  apply confirming_bind;
    [apply confirming_of_no_repair_step; unfold is_mounted; walk|intros m].
  apply confirming_bind;
    [apply confirming_of_no_repair_step; destruct m; walk|intros _].
  apply ask_repair_confirming.
Qed.

Lemma main_confirming (fuel : nat) : confirming (main host config fuel).
Proof.
  unfold main.
  apply confirming_bind;
    [apply confirming_of_no_repair_step; unfold get_disks; walk|intros disks].
  destruct disks; [apply confirming_of_no_repair_step; walk|].
  apply confirming_bind;
    [apply confirming_of_no_repair_step;
     unfold classify_disks, check_smart_status; walk|intros failed].
  apply confirming_bind;
    [apply confirming_of_no_repair_step; unfold parse_log_for_errors; walk
    |intros errs].
  unfold report.
  apply confirming_bind; [apply confirming_of_no_repair_step; walk|intros _].
  destruct failed, errs;
    [apply confirming_of_no_repair_step; walk | | | ];
    (apply confirming_bind;
     [apply confirming_of_no_repair_step; unfold send_email; walk
     |intros _; apply prompt_repair_confirming]).
Qed.

(** X1: in a whole run of [main], for every partition, an [umount] or an
    [fsck] of the partition is issued only when the latest answer to the
    question for that partition was yes or y (stripped, in any letter
    case); nothing before the questions unmounts or checks anything. *)
Theorem repairs_only_after_yes (fuel : nat) (device : string) (w : W) :
  confirmed_only device false (snd (main host config fuel w)) = true.
Proof.
  apply main_confirming.
Qed.
End Confirmation.

(** The monitor at work: it rejects a check that follows a no. *)
Example confirmation_monitor_rejects :
  confirmed_only "/dev/sda1" false
    [EvInput (repair_prompt "/dev/sda1") (Returned "no");
     EvRun ["fsck"; "-y"; "/dev/sda1"] (exited 0 "")] = false
  /\ confirmed_only "/dev/sda1" false
       [EvInput (repair_prompt "/dev/sda1") (Returned " Yes ");
        EvRun ["umount"; "/dev/sda1"] (exited 0 "");
        EvRun ["fsck"; "-y"; "/dev/sda1"] (exited 0 "")] = true.
Proof. split; reflexivity. Qed.

(* --------------------------------------------------------------------- *)
(** ** How a run ends *)
(* --------------------------------------------------------------------- *)

Section Completion.
Context {W : Type} (host : Host W) (config : Config).

Lemma all_answered_app (t1 t2 : list event) :
  all_answered (t1 ++ t2) = all_answered t1 && all_answered t2.
Proof. apply forallb_app. Qed.

Lemma completes_of_returns {A} (m : M W A) : returns m -> completes m.
Proof. intros H w _. apply H. Qed.

Lemma completes_bind {A B} (m : M W A) (k : A -> M W B) :
  completes m -> (forall a, completes (k a)) -> completes (bind m k).
Proof.
  intros Hm Hk w. specialize (Hm w). unfold bind.
  destruct (m w) as [[[a|e|] w1] t1]; cbn [snd] in *.
  - specialize (Hk a w1). destruct (k a w1) as [[r w2] t2]. cbn [snd] in *.
    rewrite all_answered_app, andb_true_iff. intros [_ H2].
    destruct (Hk H2) as (b & w3 & t3 & Heq). injection Heq as -> -> ->.
    now exists b, w3, (t1 ++ t3).
  - intros H. destruct (Hm H) as (a & w2 & t2 & Heq). discriminate.
  - intros H. destruct (Hm H) as (a & w2 & t2 & Heq). discriminate.
Qed.

Lemma completes_for {A} (xs : list A) (body : A -> M W unit) :
  (forall x, completes (body x)) -> completes (for_ xs body).
Proof.
  intros Hb. induction xs as [|x xs IH]; cbn [for_].
  - apply completes_of_returns, returns_ret.
  - apply completes_bind; auto.
Qed.

(** One round of the [while True] loop of [prompt_repair]. *)
Lemma ask_repair_step (fuel : nat) (part : string) (w : W) :
  ask_repair host (S fuel) part w =
    match host_input host (repair_prompt part) w with
    | (Raised e, w1) => (Exc e, w1, [EvInput (repair_prompt part) (Raised e)])
    | (Returned typed, w1) =>
        let '(r, w2, t2) :=
          (if means_yes typed then repair_filesystem host part ;;; ret tt
           else if means_no typed then print ("Skipping repair on " +++ part +++ ".")
           else print "Please answer 'yes' or 'no'." ;;; ask_repair host fuel part) w1 in
        (r, w2, EvInput (repair_prompt part) (Returned typed) :: t2)
    end.
Proof.
  cbn [ask_repair]. unfold bind at 1, input, call.
  fold (repair_prompt part).
  destruct (host_input host (repair_prompt part) w) as [[e|typed] w1]; reflexivity.
Qed.

(** One round of the question is enough when the answer is a yes or a no:
    after any other line, and after an [input] that raised, the question
    was left open. *)
Lemma completes_ask_repair (fuel : nat) (part : string) :
  completes (ask_repair host (S fuel) part).
Proof.
  intros w. rewrite ask_repair_step.
  destruct (host_input host (repair_prompt part) w) as [[e|typed] w1];
    [discriminate|].
  destruct (means_yes typed) eqn:Hyes.
  - intros _.
    destruct (returns_bind (repair_filesystem host part) (fun _ => ret tt)
                (repair_filesystem_returns host part)
                (fun _ => returns_ret tt) w1) as (u & w2 & t2 & ->).
    eexists; eexists; eexists; reflexivity.
  - destruct (means_no typed) eqn:Hno.
    + intros _. cbn [print]. eexists; eexists; eexists; reflexivity.
    + match goal with
      | |- context [bind ?m ?k w1] => destruct (bind m k w1) as [[r w2] t2]
      end.
      cbn [snd all_answered forallb answer_given]. rewrite Hyes, Hno. discriminate.
Qed.

Lemma completes_prompt_repair (fuel : nat) (disks : list string) :
  completes (prompt_repair host (S fuel) disks).
Proof.
  unfold prompt_repair. apply completes_for; intros disk.
  apply completes_bind; [apply completes_of_returns, returns_print|intros _].
  apply completes_bind;
    [apply completes_of_returns, get_partitions_returns|intros parts].
  destruct parts; [apply completes_of_returns, returns_print|].
  apply completes_for; intros part.
  apply completes_bind; [apply completes_of_returns, is_mounted_returns|intros m].
  apply completes_bind; [apply completes_of_returns, returns_print|intros _].
  apply completes_ask_repair.
Qed.

Lemma completes_main (fuel : nat) : completes (main host config (S fuel)).
Proof.
  unfold main.
  apply completes_bind; [apply completes_of_returns, get_disks_returns|intros disks].
  destruct disks; [apply completes_of_returns, returns_print|].
  apply completes_bind;
    [apply completes_of_returns, classify_disks_returns|intros failed].
  apply completes_bind;
    [apply completes_of_returns, parse_log_for_errors_returns|intros errs].
  unfold report.
  apply completes_bind; [apply completes_of_returns; destruct errs; walk|intros _].
  destruct failed, errs;
    [apply completes_of_returns, returns_print | | | ];
    (apply completes_bind;
     [apply completes_of_returns, send_email_returns
     |intros _; apply completes_prompt_repair]).
Qed.

(** X2: a run in which the user answered every repair question that was
    asked with a yes or a no comes to its end with exit status 0, whatever
    the tools, the log source and the mail relay did in it: no failure of
    lsblk, smartctl, journalctl, the log file, SMTP, mountpoint, umount or
    fsck is fatal, and the run does not wait for more input. *)
Theorem run_completes_when_questions_answered (fuel : nat) (w : W) :
  all_answered (snd (script host (Some config) (S fuel) w)) = true ->
  fst (fst (script host (Some config) (S fuel) w)) = Some 0%Z.
Proof.
  unfold script. pose proof (completes_main fuel w) as H.
  destruct (main host config (S fuel) w) as [[[u|e|] w1] tr]; cbn [fst snd] in *;
    [reflexivity | |];
    intros Hans; destruct (H Hans) as (a & w2 & t & Heq); discriminate.
Qed.

(** X3: with the configuration present, an exit status 1 has one cause
    only: [input] raised at a repair question (end of input on the
    terminal), and that is the last thing the run did. *)
Theorem exit_one_means_question_unanswered (fuel : nat) (w : W) :
  fst (fst (script host (Some config) fuel w)) = Some 1%Z ->
  exists e, raised_at_input e (snd (script host (Some config) fuel w)).
Proof.
  unfold script. pose proof (escapes_main host config fuel w) as H.
  destruct (main host config fuel w) as [[[u|e|] w1] tr]; cbn [fst snd];
    try discriminate.
  intros _. now exists e.
Qed.
End Completion.

(** Witness for X2: no tool can be launched, the log cannot be read, the
    relay refuses, and the user declines the one repair that is offered;
    standard input holds that one line. *)
Lemma run_completes_when_questions_answered_witness :
  all_answered (snd (script broken_tools_host (Some example_config) 1 [" No "])) = true
  /\ fst (fst (script broken_tools_host (Some example_config) 1 [" No "])) = Some 0%Z.
Proof.
  assert (Hans : all_answered
                   (snd (script broken_tools_host (Some example_config) 1 [" No "]))
                 = true) by reflexivity.
  split; [exact Hans|].
  exact (run_completes_when_questions_answered broken_tools_host example_config
           0 [" No "] Hans).
Defined.

(** Two runs on [failing_disk_host]: with "no" on standard input the one
    question is answered and the exit status is 0; with a line that is
    neither yes nor no followed by the end of input, the question is left
    open and the exit status is 1. *)
Example exit_status_by_answer :
  fst (fst (script failing_disk_host (Some example_config) 1 ["no"])) = Some 0%Z
  /\ all_answered (snd (script failing_disk_host (Some example_config) 1 ["no"])) = true
  /\ fst (fst (script failing_disk_host (Some example_config) 2 ["maybe"])) = Some 1%Z
  /\ all_answered (snd (script failing_disk_host (Some example_config) 2 ["maybe"]))
     = false.
Proof. repeat split; reflexivity. Qed.

(** Witness for X3: the run of [failing_disk_host] at end of input. *)
Lemma exit_one_means_question_unanswered_witness :
  exists e,
    raised_at_input e (snd (script failing_disk_host (Some example_config) 1 [])).
Proof.
  exact (exit_one_means_question_unanswered failing_disk_host example_config
           1 [] eq_refl).
Defined.

(* --------------------------------------------------------------------- *)
(** ** What [repair_filesystem] returns *)
(* --------------------------------------------------------------------- *)

Section RepairResult.
Context {W : Type} (host : Host W).

(** X4: [repair_filesystem] never raises, and it returns [True] exactly
    when [fsck -y] was run on the device and returned status 0; a tool that
    cannot be launched, a failed unmount and a nonzero status of [fsck] all
    give [False]. *)
Theorem repair_true_iff_fsck_clean (device : string) (w : W) :
  exists b w1 tr,
    repair_filesystem host device w = (Ok b, w1, tr)
    /\ (b = true <->
        existsb (ran_with ["fsck"; "-y"; device] succeeded) tr = true).
Proof.
  unfold repair_filesystem, is_mounted, run_fsck.
  run_to_end;
    (eexists; eexists; eexists; split; [reflexivity|]);
    cbn -[String.eqb append]; rewrite ?String.eqb_refl;
    cbn -[String.eqb append]; rewrite ?Hrc, ?Hrc0, ?Hrc1, ?Hrc2;
    cbn; split; intros; first [reflexivity | congruence].
Qed.

(** When the partition is seen mounted and [umount] cannot be launched, the
    error is reported under the name of fsck, [False] is returned, and no
    check is run. *)
Lemma repair_umount_launch_failure (device e : string) (cp : CompletedProcess)
    (w w1 w2 : W) :
  host_run host ["mountpoint"; "-q"; device] w = (Returned cp, w1) ->
  returncode cp = 0%Z ->
  host_run host ["umount"; device] w1 = (Raised e, w2) ->
  repair_filesystem host device w =
    (Ok false, w2,
     [EvRun ["mountpoint"; "-q"; device] (Returned cp);
      EvPrint (device +++ " is currently mounted. Attempting to unmount...");
      EvRun ["umount"; device] (Raised e);
      EvPrint ("Error running fsck on " +++ device +++ ": " +++ e)]).
Proof.
  intros Hm Hrc Hu. unfold repair_filesystem, is_mounted. unfold_monad.
  rewrite Hm. cbn -[append]. rewrite Hrc. cbn -[append]. rewrite Hu. reflexivity.
Qed.
End RepairResult.

(* --------------------------------------------------------------------- *)
(** ** What an enumeration returns *)
(* --------------------------------------------------------------------- *)

Lemma list_ascii_app (a b : string) :
  list_ascii_of_string (a +++ b) = list_ascii_of_string a ++ list_ascii_of_string b.
Proof. induction a as [|c a IH]; simpl; [reflexivity | now rewrite IH]. Qed.

Lemma field_snoc (f : string) (c : ascii) :
  (f = "" \/ field f) -> isspace c = false -> field (f +++ String c "").
Proof.
  intros Hf Hc. split.
  - destruct f; discriminate.
  - intros x. rewrite list_ascii_app, in_app_iff. simpl.
    intros [Hx | [<- | []]]; [|exact Hc].
    destruct Hf as [-> | [_ Hf]]; [destruct Hx | now apply Hf].
Qed.

Lemma split_ws_aux_fields (s : string) :
  forall cur,
    (forall f, cur = Some f -> field f) ->
    forall g, In g (split_ws_aux cur s) -> field g.
Proof.
  induction s as [|c s IH]; intros cur Hcur g; cbn [split_ws_aux].
  - destruct cur as [f|]; simpl; [|tauto]. intros [<- | []]. now apply Hcur.
  - destruct (isspace c) eqn:Hc.
    + destruct cur as [f|].
      * simpl. intros [<- | Hg]; [now apply Hcur|].
        apply (IH None); [discriminate | exact Hg].
      * apply IH. discriminate.
    + destruct cur as [f|]; apply IH; intros f' Hf'; injection Hf' as <-.
      * apply field_snoc; [right; now apply Hcur | exact Hc].
      * apply (field_snoc "" c); [now left | exact Hc].
Qed.

Lemma split_ws_fields (s g : string) : In g (split_ws s) -> field g.
Proof. apply split_ws_aux_fields. discriminate. Qed.

Section Paths.
Context {W : Type} (host : Host W).

(** The row loop adds device paths only. *)
Lemma rows_device_paths (kind : string) (lines : list string) :
  forall (entries entries' : list string) (w w1 : W) (t : list event),
    Forall device_path entries ->
    for_each lines entries (row_step kind) w = (Ok entries', w1, t) ->
    Forall device_path entries'.
Proof.
  induction lines as [|l lines IH]; intros entries entries' w w1 t Hall Hrun.
  - cbn in Hrun. now injection Hrun as <- _ _.
  - cbn [for_each] in Hrun. unfold bind at 1 in Hrun.
    unfold row_step at 1 in Hrun. unfold bind at 1, unpack2 in Hrun.
    pose proof (split_ws_fields l) as Hf.
    destruct (split_ws l) as [|name [|typ [|c r]]]; cbn [raise ret] in Hrun;
      try discriminate.
    cbn [snd fst] in Hrun.
    destruct (String.eqb typ kind); cbn [ret] in Hrun;
      destruct (for_each lines _ (row_step kind) w) as [[r' w2] t2] eqn:Hrest;
      injection Hrun as -> _ _.
    + eapply IH; [|exact Hrest].
      apply Forall_app. split; [exact Hall|]. constructor; [|constructor].
      exists name. split; [reflexivity|]. apply Hf. now left.
    + eapply IH; [exact Hall | exact Hrest].
Qed.

(** X5: whatever [lsblk] prints, every entry that [get_disks] and
    [get_partitions] return is "/dev/" followed by a non-empty name without
    whitespace, so each is one argument for the tools it is handed to. *)
Theorem enumerated_entries_are_device_paths (disk : string) (w : W) :
  (exists disks w1 tr,
      get_disks host w = (Ok disks, w1, tr) /\ Forall device_path disks)
  /\ (exists parts w1 tr,
      get_partitions host disk w = (Ok parts, w1, tr) /\ Forall device_path parts).
Proof.
  split.
  - destruct (get_disks_returns host w) as (disks & w1 & tr & H).
    exists disks, w1, tr. split; [exact H|].
    unfold get_disks, try_except in H. unfold bind at 1, subprocess_run, call in H.
    destruct (host_run host _ w) as [[e|cp] w0].
    + cbn in H. now injection H as <- _ _.
    + change (for_each (split_on newline (strip (stdout cp))) [] _ w0)
        with (for_each (split_on newline (strip (stdout cp))) []
                (row_step (W:=W) "disk") w0) in H.
      destruct (for_each _ [] (row_step "disk") w0) as [[[entries|e|] w2] t2] eqn:Hloop.
      * injection H as <- _ _. eapply rows_device_paths; [constructor | exact Hloop].
      * cbn in H. now injection H as <- _ _.
      * discriminate.
  - destruct (get_partitions_returns host disk w) as (parts & w1 & tr & H).
    exists parts, w1, tr. split; [exact H|].
    unfold get_partitions, try_except in H.
    unfold bind at 1, subprocess_run, call in H.
    destruct (host_run host _ w) as [[e|cp] w0].
    + cbn in H. now injection H as <- _ _.
    + change (for_each (split_on newline (strip (stdout cp))) [] _ w0)
        with (for_each (split_on newline (strip (stdout cp))) []
                (row_step (W:=W) "part") w0) in H.
      destruct (for_each _ [] (row_step "part") w0) as [[[entries|e|] w2] t2] eqn:Hloop.
      * injection H as <- _ _. eapply rows_device_paths; [constructor | exact Hloop].
      * cbn in H. now injection H as <- _ _.
      * discriminate.
Qed.
End Paths.

Lemma lstrip_blank (s : string) :
  (forall c, In c (list_ascii_of_string s) -> isspace c = true) -> lstrip s = "".
Proof.
  induction s as [|c s IH]; intros H; [reflexivity|]. cbn [lstrip].
  rewrite (H c (or_introl eq_refl)). apply IH. intros x Hx. apply H. now right.
Qed.

Section Listings.
Context {W : Type} (host : Host W) (config : Config).

(** X6: on a listing in which every row has exactly two fields, [get_disks]
    returns "/dev/" + name for exactly the rows of type disk, in the order
    of the listing, and [get_partitions] the same for the rows of type
    part; rows of any other type are left out, and nothing is printed. *)
Theorem enumeration_of_well_formed_listing (cp : CompletedProcess) :
  Forall (fun line => List.length (split_ws line) = 2)
         (split_on newline (strip (stdout cp))) ->
  (forall w w1,
      host_run host ["lsblk"; "-dn"; "-o"; "NAME,TYPE"] w = (Returned cp, w1) ->
      get_disks host w =
        (Ok (well_formed_entries "disk" (stdout cp)), w1,
         [EvRun ["lsblk"; "-dn"; "-o"; "NAME,TYPE"] (Returned cp)]))
  /\ (forall disk w w1,
        host_run host ["lsblk"; "-ln"; "-o"; "NAME,TYPE"; disk] w = (Returned cp, w1) ->
        get_partitions host disk w =
          (Ok (well_formed_entries "part" (stdout cp)), w1,
           [EvRun ["lsblk"; "-ln"; "-o"; "NAME,TYPE"; disk] (Returned cp)])).
Proof.
  intros Hall. split.
  - intros w w1 Hrun. now apply get_disks_well_formed.
  - intros disk w w1 Hrun. now apply get_partitions_well_formed.
Qed.

(** X7: a listing that is empty or blank is not taken for an empty list of
    disks but for an error: the one empty row cannot be unpacked, so
    [get_disks] prints the unpacking error and returns no disk, and [main]
    ends after "No disks found." *)
Theorem blank_listing_is_an_error (cp : CompletedProcess) (fuel : nat) (w w1 : W) :
  host_run host ["lsblk"; "-dn"; "-o"; "NAME,TYPE"] w = (Returned cp, w1) ->
  (forall c, In c (list_ascii_of_string (stdout cp)) -> isspace c = true) ->
  get_disks host w =
    (Ok [], w1,
     [EvRun ["lsblk"; "-dn"; "-o"; "NAME,TYPE"] (Returned cp);
      EvPrint "Error getting disks: not enough values to unpack (expected 2, got 0)"])
  /\ main host config fuel w =
       (Ok tt, w1,
        [EvRun ["lsblk"; "-dn"; "-o"; "NAME,TYPE"] (Returned cp);
         EvPrint "Error getting disks: not enough values to unpack (expected 2, got 0)";
         EvPrint "No disks found."]).
Proof.
  intros Hrun Hblank.
  assert (Hg : get_disks host w =
    (Ok [], w1,
     [EvRun ["lsblk"; "-dn"; "-o"; "NAME,TYPE"] (Returned cp);
      EvPrint "Error getting disks: not enough values to unpack (expected 2, got 0)"])).
  { unfold get_disks, try_except.
    rewrite (bind_ok _ _ _ _ _ _ (subprocess_run_returned _ _ _ _ _ Hrun)).
    unfold strip. rewrite (lstrip_blank _ Hblank). reflexivity. }
  split; [exact Hg|].
  unfold main. rewrite (bind_ok _ _ _ _ _ _ Hg). reflexivity.
Qed.
End Listings.

(** Witness for X6: the listing of [two_disks_host], with a rom row. *)
Lemma enumeration_of_well_formed_listing_witness :
  get_disks two_disks_host [] =
    (Ok ["/dev/sda"; "/dev/sdb"], [],
     [EvRun ["lsblk"; "-dn"; "-o"; "NAME,TYPE"]
        (exited 0 ("sda disk" +++ nl +++ "sdb disk" +++ nl +++ "sr0 rom" +++ nl))]).
Proof.
  assert (Hall : Forall (fun line => List.length (split_ws line) = 2)
                   (split_on newline
                      (strip ("sda disk" +++ nl +++ "sdb disk" +++ nl +++ "sr0 rom" +++ nl))))
    by (vm_compute; repeat constructor).
  exact (proj1 (enumeration_of_well_formed_listing two_disks_host
                  (mkCompleted 0 ("sda disk" +++ nl +++ "sdb disk" +++ nl
                                  +++ "sr0 rom" +++ nl) "") Hall)
           [] [] eq_refl).
Defined.

(** Witness for X7: the registry of [no_disks_host] prints nothing. *)
Lemma blank_listing_is_an_error_witness :
  main no_disks_host example_config 1 [] =
    (Ok tt, [],
     [EvRun ["lsblk"; "-dn"; "-o"; "NAME,TYPE"] (exited 0 "");
      EvPrint "Error getting disks: not enough values to unpack (expected 2, got 0)";
      EvPrint "No disks found."]).
Proof.
  exact (proj2 (blank_listing_is_an_error no_disks_host example_config
                  (mkCompleted 0 "" "") 1 [] [] eq_refl
                  (fun c (H : In c []) => match H with end))).
Defined.

(* --------------------------------------------------------------------- *)
(** ** The classification pass *)
(* --------------------------------------------------------------------- *)

Lemma commands_app (t1 t2 : list event) :
  commands (t1 ++ t2) = commands t1 ++ commands t2.
Proof. apply flat_map_app. Qed.

Section ClassificationPass.
Context {W : Type} (host : Host W).

(** One query of the self-assessment per call, launched or not. *)
Lemma check_smart_status_commands (disk : string) (w : W) :
  commands (snd (check_smart_status host disk w)) = [["smartctl"; "-H"; disk]].
Proof.
  unfold check_smart_status. unfold_monad.
  destruct (host_run host _ w) as [[e|cp] w1]; [reflexivity|].
  now destruct (re_search_word_after smart_pattern (stdout cp)).
Qed.

Lemma classify_loop_commands (disks : list string) :
  forall (before : list string) (w : W),
  exists failed w1 t,
    for_each disks before
      (fun failed_disks disk =>
         status <- check_smart_status host disk ;;
         print (disk +++ ": SMART status = " +++ status) ;;;
         if negb (String.eqb (lower status) "passed")
         then ret (failed_disks ++ [disk])
         else ret failed_disks) w
    = (Ok failed, w1, t)
    /\ commands t = map (fun d => ["smartctl"; "-H"; d]) disks
    /\ (forall d, In d failed -> In d before \/ In d disks).
Proof.
  set (body := fun (failed_disks : list string) (disk : string) => _).
  induction disks as [|disk disks IH]; intros before w.
  - exists before, w, []. cbn. auto.
  - cbn [for_each].
    pose proof (check_smart_status_commands disk w) as Hc.
    destruct (check_smart_status_returns host disk w) as (status & w1 & t1 & Hs).
    rewrite Hs in Hc. cbn [snd] in Hc.
    assert (Hb : exists acc,
               body before disk w
               = (Ok acc, w1, t1 ++ [EvPrint (disk +++ ": SMART status = " +++ status)])
               /\ (forall d, In d acc -> In d before \/ d = disk)).
    { unfold body, bind. rewrite Hs. cbn [print].
      destruct (negb (String.eqb (lower status) "passed")); cbn [ret].
      - exists (before ++ [disk]). rewrite app_nil_r. split; [reflexivity|].
        intros d Hd. apply in_app_iff in Hd as [Hd | [<- | []]]; auto.
      - exists before. rewrite app_nil_r. split; [reflexivity|]. auto. }
    destruct Hb as (acc & Hb & Hacc).
    destruct (IH acc w1) as (failed & w2 & t2 & Hrest & Hcmd & Hin).
    exists failed, w2, ((t1 ++ [EvPrint (disk +++ ": SMART status = " +++ status)]) ++ t2).
    split; [|split].
    + rewrite (bind_ok _ _ _ _ _ _ Hb). now rewrite Hrest.
    + rewrite !commands_app, Hc, Hcmd. reflexivity.
    + intros d Hd. destruct (Hin d Hd) as [H | H].
      * destruct (Hacc d H) as [H' | ->]; [now left | right; now left].
      * right. now right.
Qed.

(** X8: the classification pass of [main] queries every enumerated disk
    exactly once, in enumeration order, and goes on after a query that
    cannot be launched; it issues no other command, always returns, and
    every disk it reports as failed is one of the enumerated disks. *)
Theorem classification_queries_every_disk_once (disks : list string) (w : W) :
  exists failed w1 t,
    classify_disks host disks w = (Ok failed, w1, t)
    /\ commands t = map (fun d => ["smartctl"; "-H"; d]) disks
    /\ (forall d, In d failed -> In d disks).
Proof.
  destruct (classify_loop_commands disks [] w) as (failed & w1 & t & H1 & H2 & H3).
  exists failed, w1, t. split; [exact H1|]. split; [exact H2|].
  intros d Hd. destruct (H3 d Hd) as [[] | H]. exact H.
Qed.
End ClassificationPass.

(* --------------------------------------------------------------------- *)
(** ** One alert at most *)
(* --------------------------------------------------------------------- *)

Lemma alerts_nil_of_not_fired (tr : list event) :
  alert_fired tr = false -> alerts tr = [].
Proof.
  unfold alert_fired. induction tr as [|ev tr IH]; [reflexivity|].
  cbn [existsb alerts flat_map]. rewrite orb_false_iff. intros [Hev Htr].
  destruct ev; try discriminate; cbn [app]; now apply IH.
Qed.

Section OneAlert.
Context {W : Type} (host : Host W) (config : Config).

Lemma report_alerts (fuel : nat) (failed_disks log_errors : list string) (w : W) :
  alerts (snd (report host config fuel failed_disks log_errors w))
  = match failed_disks, log_errors with
    | [], [] => []
    | _, _ =>
        [mkEmail (EMAIL_FROM config) (EMAIL_TO config) subject_line
                 (compose_body failed_disks log_errors)]
    end.
Proof.
  rewrite report_run.
  pose proof (fun l w1 => proj2 (quiet_no_alert _ (prompt_repair_quiet host fuel l w1)))
    as Hq.
  pose proof (proj2 (quiet_no_alert _ (log_prints_quiet log_errors))) as Hl.
  destruct failed_disks as [|d ds], log_errors as [|x l];
    [ reflexivity | | | ];
    cbv zeta;
    match goal with
    | |- context [host_smtp host ?s w] =>
        destruct (host_smtp host s w) as [o w1]
    end;
    match goal with
    | |- context [prompt_repair host fuel ?l ?w'] =>
        specialize (Hq l w');
        destruct (prompt_repair host fuel l w') as [[r w2] t2]
    end;
    cbn [snd] in *; rewrite !alerts_app, Hq, Hl; reflexivity.
Qed.

(** X9: a run of [main] hands at most one message to the mail relay,
    whatever the number of failed disks and of anomalous log lines, and
    whether or not the delivery and the repairs that follow succeed. *)
Theorem at_most_one_alert_per_run (fuel : nat) (w : W) :
  List.length (alerts (snd (main host config fuel w))) <= 1.
Proof.
  pose proof (get_disks_quiet host w) as Hq.
  destruct (get_disks_returns host w) as (disks & w1 & t1 & Hd).
  unfold main. rewrite (bind_ok _ _ _ _ _ _ Hd). rewrite Hd in Hq. cbn [snd] in Hq.
  destruct disks as [|d ds].
  - cbn [print snd]. rewrite alerts_app, (proj2 (quiet_no_alert _ Hq)). cbn. lia.
  - pose proof (classify_disks_quiet host (d :: ds) w1) as Hc.
    destruct (classify_disks_returns host (d :: ds) w1) as (failed & w2 & t2 & Hf).
    rewrite (bind_ok _ _ _ _ _ _ Hf). rewrite Hf in Hc. cbn [snd] in Hc.
    destruct (parse_log_for_errors_scans_once host config w2) as [_ Hp].
    destruct (parse_log_for_errors_returns host config w2) as (errs & w3 & t3 & He).
    rewrite (bind_ok _ _ _ _ _ _ He). rewrite He in Hp. cbn [snd] in Hp.
    pose proof (report_alerts fuel failed errs w3) as Hr.
    destruct (report host config fuel failed errs w3) as [[r w4] t4].
    cbn [snd] in *. rewrite !alerts_app.
    rewrite (proj2 (quiet_no_alert _ Hq)), (proj2 (quiet_no_alert _ Hc)),
      (alerts_nil_of_not_fired _ Hp), Hr.
    destruct failed, errs; cbn; lia.
Qed.
End OneAlert.

(* --------------------------------------------------------------------- *)
(** ** Nothing is left out of the alert *)
(* --------------------------------------------------------------------- *)

Lemma itemize_In (items : list string) (x : string) :
  In x items ->
  exists a b, itemize items = a +++ (" - " +++ x +++ nl) +++ b.
Proof.
  induction items as [|y items IH]; [intros []|].
  intros [-> | Hin]; cbn [itemize].
  - exists "", (itemize items). cbn [append]. now rewrite !append_assoc.
  - destruct (IH Hin) as (a & b & ->).
    exists (" - " +++ y +++ nl +++ a), b. now rewrite !append_assoc.
Qed.

(** X10: the body of the alert starts with the introduction and holds one
    line " - item" for every failed disk and for every anomalous log line:
    no finding is left out of the message. *)
Theorem alert_body_lists_every_finding (failed_disks log_errors : list string) :
  startswith body_intro (compose_body failed_disks log_errors) = true
  /\ (forall d, In d failed_disks ->
        contains (" - " +++ d +++ nl) (compose_body failed_disks log_errors) = true)
  /\ (forall e, In e log_errors ->
        contains (" - " +++ e +++ nl) (compose_body failed_disks log_errors) = true).
Proof.
  rewrite compose_body_sections. split; [|split].
  - apply startswith_spec. eexists; reflexivity.
  - intros d Hd. apply contains_spec.
    destruct (itemize_In _ _ Hd) as (a & b & Hi).
    unfold failed_section. destruct failed_disks as [|d0 ds]; [destruct Hd|].
    rewrite Hi.
    exists (body_intro +++ "Failed or failing disks (SMART):" +++ nl +++ a),
           (b +++ nl +++ log_section log_errors).
    now rewrite !append_assoc.
  - intros e He. apply contains_spec.
    destruct (itemize_In _ _ He) as (a & b & Hi).
    unfold log_section. destruct log_errors as [|e0 es]; [destruct He|].
    rewrite Hi.
    exists (body_intro +++ failed_section failed_disks
            +++ "Disk-related errors from system logs:" +++ nl +++ a), b.
    now rewrite !append_assoc.
Qed.

(* --------------------------------------------------------------------- *)
(** ** The question loop *)
(* --------------------------------------------------------------------- *)

Lemma means_no_not_yes (typed : string) : means_no typed = true -> means_yes typed = false.
Proof.
  unfold means_no, means_yes, mem. cbn [existsb]. rewrite !orb_false_r.
  rewrite orb_true_iff, !String.eqb_eq. intros [-> | ->]; reflexivity.
Qed.

Section Questions.
Variable run : list string -> outcome CompletedProcess.
Variable readlines : string -> outcome (list string).
Variable smtp : outcome unit.

(** X11: the question for a partition is asked again after every answer
    that is neither yes/y nor no/n (stripped, in any letter case); the first
    no ends the loop, and up to there nothing was run on the partition: the
    only events are the questions and the reminders, and the lines after
    the no stay on standard input. *)
Theorem unrecognised_answers_are_asked_again
    (part typed : string) (garbage rest : list string) (fuel : nat) :
  Forall (fun g => means_yes g = false /\ means_no g = false) garbage ->
  means_no typed = true ->
  List.length garbage < fuel ->
  ask_repair (scripted_host run readlines smtp) fuel part (garbage ++ typed :: rest)
  = (Ok tt, rest,
     flat_map
       (fun g => [EvInput (repair_prompt part) (Returned g);
                  EvPrint "Please answer 'yes' or 'no'."]) garbage
     ++ [EvInput (repair_prompt part) (Returned typed);
         EvPrint ("Skipping repair on " +++ part +++ ".")]).
Proof.
  intros Hg Hno. pose proof (means_no_not_yes typed Hno) as Hyes.
  revert fuel. induction Hg as [|g garbage [Hgy Hgn] Hg IH]; intros fuel Hfuel.
  - destruct fuel as [|fuel]; [cbn in Hfuel; lia|].
    cbn [app ask_repair flat_map]. fold (repair_prompt part).
    unfold bind at 1, input, call. cbn [host_input scripted_host].
    unfold means_yes in Hyes. unfold means_no in Hno. rewrite Hyes, Hno.
    reflexivity.
  - destruct fuel as [|fuel]; [cbn in Hfuel; lia|].
    cbn [app ask_repair flat_map]. fold (repair_prompt part).
    unfold bind at 1, input, call. cbn [host_input scripted_host].
    unfold means_yes in Hgy. unfold means_no in Hgn. rewrite Hgy, Hgn.
    unfold bind at 1. cbn [print].
    rewrite IH by (cbn in Hfuel; lia). reflexivity.
Qed.
End Questions.

(** Witness for X11: two answers that are not understood, then "N". *)
Lemma unrecognised_answers_are_asked_again_witness :
  ask_repair failing_disk_host 3 "/dev/sda1" ["maybe"; "ja"; " N"; "yes"]
  = (Ok tt, ["yes"],
     [EvInput (repair_prompt "/dev/sda1") (Returned "maybe");
      EvPrint "Please answer 'yes' or 'no'.";
      EvInput (repair_prompt "/dev/sda1") (Returned "ja");
      EvPrint "Please answer 'yes' or 'no'.";
      EvInput (repair_prompt "/dev/sda1") (Returned " N");
      EvPrint "Skipping repair on /dev/sda1."]).
Proof.
  apply (unrecognised_answers_are_asked_again failing_disk_run quiet_log (Returned tt)
           "/dev/sda1" " N" ["maybe"; "ja"] ["yes"] 3).
  - repeat constructor.
  - reflexivity.
  - simpl. lia.
Defined.

(* --------------------------------------------------------------------- *)
(** ** The log source *)
(* --------------------------------------------------------------------- *)

Section LogSource.
Context {W : Type} (host : Host W) (config : Config).

(** X12: [parse_log_for_errors] reads one source only.  With a non-empty
    [LOG_FILE] it opens that file and runs no command; with [LOG_FILE] unset
    or empty it runs the journal query and opens no file, and takes the
    output whatever the exit status.  A source that raises gives no anomaly
    and one line "Error parsing logs"; the function itself never raises. *)
Theorem log_source_selection (w : W) :
  match LOG_FILE config with
  | Some (String c p) =>
      match host_readlines host (String c p) w with
      | (Returned lines, w1) =>
          parse_log_for_errors host config w
          = (Ok (scan_lines lines), w1, [EvRead (String c p) (Returned lines)])
      | (Raised e, w1) =>
          parse_log_for_errors host config w
          = (Ok [], w1,
             [EvRead (String c p) (Raised e); EvPrint ("Error parsing logs: " +++ e)])
      end
  | _ =>
      match host_run host ["journalctl"; "-k"; "--since"; "1 hour ago"] w with
      | (Returned cp, w1) =>
          parse_log_for_errors host config w
          = (Ok (scan_lines (splitlines (stdout cp))), w1,
             [EvRun ["journalctl"; "-k"; "--since"; "1 hour ago"] (Returned cp)])
      | (Raised e, w1) =>
          parse_log_for_errors host config w
          = (Ok [], w1,
             [EvRun ["journalctl"; "-k"; "--since"; "1 hour ago"] (Raised e);
              EvPrint ("Error parsing logs: " +++ e)])
      end
  end.
Proof.
  unfold parse_log_for_errors. unfold_monad.
  destruct (LOG_FILE config) as [[|c p]|].
  - now destruct (host_run host _ w) as [[e|cp] w1].
  - now destruct (host_readlines host _ w) as [[e|lines] w1].
  - now destruct (host_run host _ w) as [[e|cp] w1].
Qed.
End LogSource.

(* --------------------------------------------------------------------- *)
(** ** Runs that only look *)
(* --------------------------------------------------------------------- *)

Section LooksOnly.
Context {W : Type} (host : Host W) (config : Config).

Lemma report_without_alert (fuel : nat) (failed_disks log_errors : list string) (w : W) :
  alert_fired (snd (report host config fuel failed_disks log_errors w)) = false ->
  report host config fuel failed_disks log_errors w
  = (Ok tt, w,
     [EvPrint (nl +++ "All disks passed SMART checks and no disk errors found in logs.")]).
Proof.
  intros H.
  destruct failed_disks as [|d ds], log_errors as [|x l];
    [ now rewrite report_run | | | ];
    exfalso;
    match type of H with
    | alert_fired (snd (report _ _ _ ?f ?l _)) = false =>
        assert (Hf : f <> [] \/ l <> [])
          by (first [left; discriminate | right; discriminate]);
        apply (report_alert_fired host config fuel f l w) in Hf
    end; congruence.
Qed.

(** X13: a run of [main] in which no alert fires only looks: it returns
    normally, and apart from printing it does nothing but list the disks,
    query their self-assessment and query the log source; it asks the user
    nothing, lists no partition, and runs no mountpoint, umount or fsck. *)
Theorem run_without_alert_only_looks (fuel : nat) (w : W) :
  alert_fired (snd (main host config fuel w)) = false ->
  fst (fst (main host config fuel w)) = Ok tt
  /\ forallb looks_only (snd (main host config fuel w)) = true.
Proof.
  assert (Hg : emits looks_only (get_disks host)) by (unfold get_disks; walk).
  assert (Hc : forall disks, emits looks_only (classify_disks host disks))
    by (intros; unfold classify_disks, check_smart_status; walk).
  assert (Hp : emits looks_only (parse_log_for_errors host config))
    by (unfold parse_log_for_errors; walk).
  specialize (Hg w).
  destruct (get_disks_returns host w) as (disks & w1 & t1 & Hd).
  unfold main. rewrite (bind_ok _ _ _ _ _ _ Hd). rewrite Hd in Hg. cbn [snd] in Hg.
  destruct disks as [|d ds].
  - intros _. cbn [print fst snd]. split; [reflexivity|].
    rewrite forallb_app, Hg. reflexivity.
  - specialize (Hc (d :: ds) w1).
    destruct (classify_disks_returns host (d :: ds) w1) as (failed & w2 & t2 & Hf).
    rewrite (bind_ok _ _ _ _ _ _ Hf). rewrite Hf in Hc. cbn [snd] in Hc.
    specialize (Hp w2).
    destruct (parse_log_for_errors_returns host config w2) as (errs & w3 & t3 & He).
    rewrite (bind_ok _ _ _ _ _ _ He). rewrite He in Hp. cbn [snd] in Hp.
    pose proof (report_without_alert fuel failed errs w3) as Hr.
    destruct (report host config fuel failed errs w3) as [[r w4] t4].
    cbn [fst snd] in *. rewrite !alert_fired_app, !orb_false_iff.
    intros (_ & _ & _ & Hno). specialize (Hr Hno). injection Hr as -> _ ->.
    split; [reflexivity|].
    rewrite !forallb_app, Hg, Hc, Hp. reflexivity.
Qed.

(** X14: anomalous log lines alone lead to an alert and to nothing else:
    when no disk failed its self-assessment, [main] sends the message,
    prints the outcome of the delivery and returns, without listing a
    partition, asking a question or running mountpoint, umount or fsck. *)
Theorem log_anomalies_alone_repair_nothing
    (fuel : nat) (log_errors : list string) (w : W) :
  log_errors <> [] ->
  let s := alert_session config subject_line (compose_body [] log_errors) in
  report host config fuel [] log_errors w
  = (Ok tt, snd (host_smtp host s w),
     log_prints log_errors
     ++ [EvSmtp s (fst (host_smtp host s w));
         EvPrint (delivery_note (fst (host_smtp host s w)))]).
Proof.
  intros Hne s. rewrite report_run.
  destruct log_errors as [|x l]; [congruence|].
  cbv zeta. fold s. destruct (host_smtp host s w) as [o w1].
  cbn [prompt_repair for_ ret fst snd]. now rewrite app_nil_r.
Qed.
End LooksOnly.

(** Witness for X13: the run of [healthy_host]. *)
Lemma run_without_alert_only_looks_witness :
  commands (snd (main healthy_host example_config 1 []))
  = [["lsblk"; "-dn"; "-o"; "NAME,TYPE"]; ["smartctl"; "-H"; "/dev/sda"]]
  /\ forallb looks_only (snd (main healthy_host example_config 1 [])) = true.
Proof.
  split; [reflexivity|].
  exact (proj2 (run_without_alert_only_looks healthy_host example_config 1 [] eq_refl)).
Defined.

(** Witness for X14: a healthy disk and a log with an I/O error. *)
Lemma log_anomalies_alone_repair_nothing_witness :
  report healthy_host example_config 1 [] ["I/O error, dev sda"] ["yes"]
  = (Ok tt, ["yes"],
     [EvPrint (nl +++ "Disk-related errors found in system logs:");
      EvPrint "I/O error, dev sda";
      EvSmtp (alert_session example_config subject_line
                (compose_body [] ["I/O error, dev sda"])) (Returned tt);
      EvPrint "Alert email sent."]).
Proof.
  apply (log_anomalies_alone_repair_nothing healthy_host example_config
           1 ["I/O error, dev sda"] ["yes"]).
  discriminate.
Defined.

(* --------------------------------------------------------------------- *)
(** ** Stability of the keyword matching *)
(* --------------------------------------------------------------------- *)

Lemma lower_char_idem (c : ascii) : lower_char (lower_char c) = lower_char c.
Proof. destruct c as [[] [] [] [] [] [] [] []]; reflexivity. Qed.

Lemma lower_idem (s : string) : lower (lower s) = lower s.
Proof.
  induction s as [|c s IH]; [reflexivity|]. cbn [lower].
  now rewrite lower_char_idem, IH.
Qed.

Lemma space_lower_char (c : ascii) : isspace c = true -> lower_char c = c.
Proof.
  destruct c as [[] [] [] [] [] [] [] []]; vm_compute; intros H;
    first [reflexivity | discriminate H].
Qed.

Lemma blank_lower (s : string) : blank s -> lower s = s.
Proof.
  induction s as [|c s IH]; intros H; [reflexivity|]. cbn [lower].
  rewrite space_lower_char by (apply H; now left).
  rewrite IH; [reflexivity|]. intros x Hx. apply H. now right.
Qed.

Lemma contains_embed (k line pre post : string) :
  contains k line = true -> contains k (pre +++ line +++ post) = true.
Proof.
  rewrite !contains_spec. intros (a & b & ->).
  exists (pre +++ a), (b +++ post). now rewrite !append_assoc.
Qed.

Lemma lstrip_split (s : string) : exists a, s = a +++ lstrip s /\ blank a.
Proof.
  induction s as [|c s (a & IH & Ha)]; cbn [lstrip].
  - exists "". split; [reflexivity | intros c []].
  - destruct (isspace c) eqn:Hc.
    + exists (String c a). split; [cbn; now rewrite <- IH|].
      intros x [<- | Hx]; auto.
    + exists "". split; [reflexivity | intros x []].
Qed.

Lemma rstrip_split (s : string) : exists b, s = rstrip s +++ b /\ blank b.
Proof.
  induction s as [|c s (b & IH & Hb)]; cbn [rstrip].
  - exists "". split; [reflexivity | intros c []].
  - destruct (rstrip s) as [|r0 r] eqn:Hr.
    + cbn in IH. subst b. destruct (isspace c) eqn:Hc.
      * exists (String c s). split; [reflexivity|].
        intros x [<- | Hx]; auto.
      * exists s. split; [reflexivity | exact Hb].
    + exists b. split; [cbn [append] in *; congruence | exact Hb].
Qed.

Lemma strip_split (s : string) :
  exists a b, s = a +++ strip s +++ b /\ blank a /\ blank b.
Proof.
  destruct (lstrip_split s) as (a & Ha & Hba).
  destruct (rstrip_split (lstrip s)) as (b & Hb & Hbb).
  exists a, b. unfold strip. rewrite <- Hb. auto.
Qed.

(** Whitespace in front of a text hides no occurrence of a word that
    starts with something else. *)
Lemma contains_blank_prefix (k a x : string) :
  match k with String c _ => isspace c = false | EmptyString => False end ->
  blank a -> contains k (a +++ x) = contains k x.
Proof.
  intros Hk. induction a as [|c a IH]; intros Ha; [reflexivity|].
  cbn [append contains]. rewrite IH by (intros y Hy; apply Ha; now right).
  destruct k as [|k0 k']; [destruct Hk|]. cbn [startswith].
  destruct (Ascii.eqb k0 c) eqn:E; [|reflexivity].
  apply Ascii.eqb_eq in E. subst c.
  rewrite (Ha k0 (or_introl eq_refl)) in Hk. discriminate.
Qed.

Lemma last_char_In (s : string) (c : ascii) :
  last_char s = Some c -> In c (list_ascii_of_string s).
Proof.
  induction s as [|x s IH]; [discriminate|]. cbn [last_char].
  destruct s as [|y s]; [intros H; injection H as <-; now left|].
  intros H. right. now apply IH.
Qed.

Lemma startswith_chars (k s : string) :
  startswith k s = true ->
  forall c, In c (list_ascii_of_string k) -> In c (list_ascii_of_string s).
Proof.
  rewrite startswith_spec. intros [t ->] c Hc.
  rewrite list_ascii_app. apply in_or_app. now left.
Qed.

(** A word found at the front of [m +++ b] lies within [m], or its last
    character lies in [b]. *)
Lemma startswith_app (k m b : string) :
  startswith k (m +++ b) = true ->
  startswith k m = true
  \/ exists c, last_char k = Some c /\ In c (list_ascii_of_string b).
Proof.
  revert m. induction k as [|k0 k IH]; intros m H; [now left|].
  destruct m as [|m0 m].
  - right. cbn [append] in H.
    destruct (last_char (String k0 k)) as [c|] eqn:Hl.
    + exists c. split; [reflexivity|].
      apply (startswith_chars _ _ H). now apply last_char_In.
    + cbn [last_char] in Hl. destruct k; [discriminate|].
      exfalso. clear -Hl. revert a Hl.
      induction k as [|y k IHk]; intros a Hl; [discriminate|].
      cbn [last_char] in Hl. destruct k; [discriminate|]. now apply (IHk y).
  - cbn [append startswith] in H. apply andb_true_iff in H as [H0 H].
    destruct (IH m H) as [Hm | (c & Hc & Hin)].
    + left. cbn [startswith]. now rewrite H0, Hm.
    + right. exists c. split; [|exact Hin].
      cbn [last_char]. destruct k; [discriminate | exact Hc].
Qed.

(** Whitespace behind a text hides no occurrence of a word that ends with
    something else. *)
Lemma contains_blank_suffix (k m b : string) (kl : ascii) :
  last_char k = Some kl -> isspace kl = false -> blank b ->
  contains k (m +++ b) = true -> contains k m = true.
Proof.
  intros Hl Hkl Hb. induction m as [|m0 m IH]; intros H.
  - cbn [append] in H. apply contains_spec in H as (pre & post & Hs).
    exfalso. assert (Hin : In kl (list_ascii_of_string b)).
    { rewrite Hs, !list_ascii_app. apply in_or_app. right.
      apply in_or_app. left. now apply last_char_In. }
    rewrite (Hb kl Hin) in Hkl. discriminate.
  - cbn [append contains] in H. apply orb_true_iff in H as [H | H].
    + destruct (startswith_app k (String m0 m) b H) as [Hm | (c & Hc & Hin)].
      * cbn [contains]. now rewrite Hm.
      * exfalso. rewrite Hl in Hc. injection Hc as <-.
        rewrite (Hb kl Hin) in Hkl. discriminate.
    + cbn [contains]. rewrite (IH H). apply orb_true_r.
Qed.

Lemma contains_strip (k line : string) :
  clean_ends k = true ->
  contains k (lower (strip line)) = contains k (lower line).
Proof.
  unfold clean_ends. rewrite andb_true_iff. intros [Hfirst Hlast].
  destruct (last_char k) as [kl|] eqn:Hl; [|discriminate].
  apply negb_true_iff in Hlast.
  destruct (strip_split line) as (a & b & Hs & Ha & Hb).
  rewrite Hs at 2. rewrite !lower_app, (blank_lower _ Ha), (blank_lower _ Hb).
  rewrite contains_blank_prefix;
    [|destruct k; [discriminate | now apply negb_true_iff] | exact Ha].
  destruct (contains k (lower (strip line) +++ b)) eqn:E.
  - now apply (contains_blank_suffix k _ b kl).
  - destruct (contains k (lower (strip line))) eqn:E'; [|reflexivity].
    pose proof (contains_embed k _ "" b E') as H. cbn [append] in H. congruence.
Qed.

Lemma keywords_clean_ends : forallb clean_ends (map lower error_keywords) = true.
Proof. reflexivity. Qed.

Lemma any_keyword_strip (line : string) : any_keyword (strip line) = any_keyword line.
Proof.
  unfold any_keyword.
  pose proof keywords_clean_ends as H. rewrite forallb_forall in H.
  induction error_keywords as [|k ks IH]; [reflexivity|]. cbn [existsb].
  rewrite contains_strip by (apply H; now left).
  rewrite IH; [reflexivity|]. intros x Hx. apply H. now right.
Qed.

(** X15: whether a line is flagged does not depend on its letter case, on
    whitespace at its ends, or on what surrounds a flagged text: putting a
    flagged text into a longer line gives a flagged line. *)
Theorem keyword_matching_is_stable (line : string) :
  any_keyword (lower line) = any_keyword line
  /\ any_keyword (strip line) = any_keyword line
  /\ (forall pre post,
        any_keyword line = true -> any_keyword (pre +++ line +++ post) = true).
Proof.
  split; [|split].
  - unfold any_keyword. now rewrite lower_idem.
  - apply any_keyword_strip.
  - intros pre post. unfold any_keyword. rewrite !existsb_exists.
    intros (k & Hin & Hk). exists k. split; [exact Hin|].
    rewrite !lower_app. now apply contains_embed.
Qed.

Lemma rstrip_idem (s : string) : rstrip (rstrip s) = rstrip s.
Proof.
  induction s as [|c s IH]; [reflexivity|]. cbn [rstrip].
  destruct (rstrip s) as [|r0 r] eqn:Hr.
  - destruct (isspace c) eqn:Hc; [reflexivity|]. cbn [rstrip]. now rewrite Hc.
  - cbn [rstrip]. cbn [rstrip] in IH. now rewrite IH.
Qed.

Lemma lstrip_head (s : string) :
  match lstrip s with
  | EmptyString => True
  | String c _ => isspace c = false
  end.
Proof.
  induction s as [|c s IH]; [exact I|]. cbn [lstrip].
  destruct (isspace c) eqn:Hc; [exact IH | exact Hc].
Qed.

Lemma lstrip_rstrip (t : string) :
  match t with
  | EmptyString => True
  | String c _ => isspace c = false
  end ->
  lstrip (rstrip t) = rstrip t.
Proof.
  destruct t as [|c t]; [reflexivity|]. intros Hc. cbn [rstrip].
  destruct (rstrip t); [rewrite Hc|]; cbn [lstrip]; now rewrite Hc.
Qed.

Lemma strip_idem (s : string) : strip (strip s) = strip s.
Proof.
  unfold strip. rewrite (lstrip_rstrip _ (lstrip_head s)). apply rstrip_idem.
Qed.

(** X16: every anomaly that [parse_log_for_errors] collects is itself a
    flagged line and has no whitespace at its ends, and scanning the
    collected anomalies again returns them unchanged. *)
Theorem rescanning_anomalies_changes_nothing (logs : list string) :
  Forall (fun a => any_keyword a = true /\ strip a = a) (scan_lines logs)
  /\ scan_lines (scan_lines logs) = scan_lines logs.
Proof.
  assert (H : Forall (fun a => any_keyword a = true /\ strip a = a) (scan_lines logs)).
  { rewrite scan_lines_filter. apply Forall_forall. intros a Ha.
    apply in_map_iff in Ha as (line & <- & Hin). apply filter_In in Hin as [_ Hf].
    split; [now rewrite any_keyword_strip | apply strip_idem]. }
  split; [exact H|].
  rewrite (scan_lines_filter (scan_lines logs)).
  induction H as [|a l [Ha Hs] Hl IH]; [reflexivity|].
  cbn [filter]. rewrite Ha. cbn [map]. now rewrite Hs, IH.
Qed.

(* --------------------------------------------------------------------- *)
(** ** Declining every repair *)
(* --------------------------------------------------------------------- *)

Lemma confirmed_only_without_yes (device : string) (tr : list event) :
  confirmed_only device false tr = true ->
  (forall prompt r, In (EvInput prompt r) tr -> said_yes r = false) ->
  umount_attempted device tr = false /\ fsck_invoked device tr = false.
Proof.
  unfold umount_attempted, fsck_invoked.
  induction tr as [|ev tr IH]; intros Hc Hno; [split; reflexivity|].
  assert (Hno' : forall prompt r, In (EvInput prompt r) tr -> said_yes r = false)
    by (intros prompt r Hin; apply (Hno prompt r); now right).
  destruct ev as [argv r| | |prompt r|]; cbn [confirmed_only existsb ran] in *;
    try (apply IH; assumption).
  - destruct (same_argv argv ["umount"; device]) eqn:Eu;
      destruct (same_argv argv ["fsck"; "-y"; device]) eqn:Ef;
      cbn [orb andb] in *; try discriminate.
    now apply IH.
  - rewrite (Hno prompt r (or_introl eq_refl)) in Hc.
    destruct (String.eqb prompt (repair_prompt device)); now apply IH.
Qed.

(** X17: a run of [main] in which no answer of the user means yes unmounts
    nothing and checks nothing, whatever disks failed. *)
Theorem declining_every_repair_changes_nothing
    {W : Type} (host : Host W) (config : Config) (fuel : nat) (w : W)
    (device : string) :
  (forall prompt r,
      In (EvInput prompt r) (snd (main host config fuel w)) -> said_yes r = false) ->
  umount_attempted device (snd (main host config fuel w)) = false
  /\ fsck_invoked device (snd (main host config fuel w)) = false.
Proof.
  intros Hno. apply confirmed_only_without_yes; [|exact Hno].
  apply main_confirming.
Qed.

(** Witness for X17: the user of [declining_host] answers " No ". *)
Lemma declining_every_repair_changes_nothing_witness :
  umount_attempted "/dev/sda1" (snd (main declining_host example_config 1 tt)) = false
  /\ fsck_invoked "/dev/sda1" (snd (main declining_host example_config 1 tt)) = false.
Proof.
  apply (declining_every_repair_changes_nothing declining_host example_config 1 tt).
  intros prompt r Hin. vm_compute in Hin.
  repeat (destruct Hin as [Hin | Hin]; [try discriminate Hin|]);
    [injection Hin as _ <-; reflexivity | destruct Hin].
Defined.

(* --------------------------------------------------------------------- *)
(** ** The order of the phases *)
(* --------------------------------------------------------------------- *)

Lemma in_order_weaken (tr : list event) :
  forall cur n, cur <= n -> in_order n tr = true -> in_order cur tr = true.
Proof.
  induction tr as [|ev tr IH]; intros cur n Hle H; [reflexivity|].
  cbn [in_order] in *. destruct (phase ev) as [p|]; [|now apply (IH cur n)].
  apply andb_true_iff in H as [Hp H]. apply Nat.leb_le in Hp.
  rewrite H, andb_true_r. apply Nat.leb_le. lia.
Qed.

Lemma in_order_app (n : nat) (t1 t2 : list event) :
  forall cur,
    cur <= n -> forallb (in_phase n) t1 = true -> in_order n t2 = true ->
    in_order cur (t1 ++ t2) = true.
Proof.
  induction t1 as [|ev t1 IH]; intros cur Hle H1 H2.
  - now apply (in_order_weaken t2 cur n).
  - cbn [app in_order forallb] in *. apply andb_true_iff in H1 as [Hev H1].
    unfold in_phase in Hev. destruct (phase ev) as [p|]; [|now apply IH].
    apply Nat.eqb_eq in Hev. subst p.
    rewrite (IH n (le_n n) H1 H2), andb_true_r. now apply Nat.leb_le.
Qed.

Lemma in_order_phase (n : nat) (tr : list event) :
  forallb (in_phase n) tr = true -> forall cur, cur <= n -> in_order cur tr = true.
Proof.
  intros H cur Hle. rewrite <- (app_nil_r tr). now apply (in_order_app n).
Qed.

Section Phases.
Context {W : Type} (host : Host W) (config : Config).

Lemma prompt_repair_phase (fuel : nat) (disks : list string) :
  emits (in_phase 4) (prompt_repair host fuel disks).
Proof.
  assert (Hr : forall part, emits (in_phase 4) (repair_filesystem host part))
    by (intros; unfold repair_filesystem, is_mounted, run_fsck; walk).
  assert (Ha : forall part, emits (in_phase 4) (ask_repair host fuel part)).
  { intros part. induction fuel as [|f IH]; cbn [ask_repair]; walk; auto. }
  unfold prompt_repair, get_partitions, is_mounted. walk; auto.
Qed.

Lemma report_in_order (fuel : nat) (failed_disks log_errors : list string) (w : W) :
  in_order 3 (snd (report host config fuel failed_disks log_errors w)) = true.
Proof.
  rewrite report_run.
  assert (Hl : forallb (in_phase 3) (log_prints log_errors) = true).
  { destruct log_errors as [|x l]; [reflexivity|]. cbn [log_prints forallb].
    induction (x :: l) as [|y l' IH]; [reflexivity | exact IH]. }
  pose proof (fun l w1 => prompt_repair_phase fuel l w1) as Hq.
  destruct failed_disks as [|d ds], log_errors as [|x l];
    [ reflexivity | | | ];
    cbv zeta;
    match goal with
    | |- context [host_smtp host ?s w] =>
        destruct (host_smtp host s w) as [o w1]
    end;
    match goal with
    | |- context [prompt_repair host fuel ?l ?w'] =>
        specialize (Hq l w');
        destruct (prompt_repair host fuel l w') as [[r w2] t2]
    end;
    cbn [snd] in *;
    (apply (in_order_app 3); [lia | exact Hl |]);
    cbn [app in_order phase Nat.leb andb];
    (apply (in_order_phase 4); [exact Hq | lia]).
Qed.

(** X18: [main] works in phases that never go back: the disk listing, then
    the self-assessment queries, then the log scan, then the alert, then
    the repairs.  In particular the message is handed to the mail relay
    before the first partition is listed, the first question is asked and
    anything is unmounted or checked. *)
Theorem main_runs_in_phases (fuel : nat) (w : W) :
  in_order 0 (snd (main host config fuel w)) = true.
Proof.
  assert (Hg : emits (in_phase 0) (get_disks host)) by (unfold get_disks; walk).
  assert (Hc : forall disks, emits (in_phase 1) (classify_disks host disks))
    by (intros; unfold classify_disks, check_smart_status; walk).
  assert (Hp : emits (in_phase 2) (parse_log_for_errors host config))
    by (unfold parse_log_for_errors; walk).
  specialize (Hg w).
  destruct (get_disks_returns host w) as (disks & w1 & t1 & Hd).
  unfold main. rewrite (bind_ok _ _ _ _ _ _ Hd). rewrite Hd in Hg. cbn [snd] in Hg.
  destruct disks as [|d ds].
  - cbn [print snd]. apply (in_order_app 0); [lia | exact Hg | reflexivity].
  - specialize (Hc (d :: ds) w1).
    destruct (classify_disks_returns host (d :: ds) w1) as (failed & w2 & t2 & Hf).
    rewrite (bind_ok _ _ _ _ _ _ Hf). rewrite Hf in Hc. cbn [snd] in Hc.
    specialize (Hp w2).
    destruct (parse_log_for_errors_returns host config w2) as (errs & w3 & t3 & He).
    rewrite (bind_ok _ _ _ _ _ _ He). rewrite He in Hp. cbn [snd] in Hp.
    pose proof (report_in_order fuel failed errs w3) as Hr.
    destruct (report host config fuel failed errs w3) as [[r w4] t4].
    cbn [snd] in *.
    apply (in_order_app 0); [lia | exact Hg |].
    apply (in_order_app 1); [lia | exact Hc |].
    apply (in_order_app 2); [lia | exact Hp |].
    apply (in_order_weaken t4 2 3); [lia | exact Hr].
Qed.
End Phases.

(** The order monitor at work: a question before the alert is rejected. *)
Example in_order_rejects :
  in_order 0
    [EvRun ["lsblk"; "-dn"; "-o"; "NAME,TYPE"] (exited 0 "");
     EvInput (repair_prompt "/dev/sda1") (Returned "yes");
     EvSmtp (alert_session example_config subject_line "") (Returned tt)] = false.
Proof. reflexivity. Qed.

(* --------------------------------------------------------------------- *)
(** ** No partition is passed over *)
(* --------------------------------------------------------------------- *)

Lemma questions_app (t1 t2 : list event) :
  questions (t1 ++ t2) = questions t1 ++ questions t2.
Proof. apply flat_map_app. Qed.

Lemma listed_partitions_app (t1 t2 : list event) :
  listed_partitions (t1 ++ t2) = listed_partitions t1 ++ listed_partitions t2.
Proof. apply flat_map_app. Qed.

Lemma no_question_no_listing_trace (tr : list event) :
  forallb no_question_no_listing tr = true ->
  questions tr = [] /\ listed_partitions tr = []
  /\ filter is_partition_listing (commands tr) = [].
Proof.
  induction tr as [|ev tr IH]; [auto|].
  cbn [forallb]. rewrite andb_true_iff. intros [Hev Htr].
  destruct (IH Htr) as (H1 & H2 & H3).
  unfold questions, listed_partitions, commands in *.
  destruct ev as [argv r| | |prompt r|]; cbn [flat_map app];
    try discriminate; auto.
  cbn [no_question_no_listing] in Hev. apply negb_true_iff in Hev.
  cbn [filter]. rewrite Hev.
  destruct r; cbn [app]; auto.
Qed.

Lemma forallb_false_exists {A} (f : A -> bool) (l : list A) :
  forallb f l = false -> exists x, In x l /\ f x = false.
Proof.
  induction l as [|x l IH]; [discriminate|]. cbn [forallb].
  destruct (f x) eqn:E.
  - intros H. destruct (IH H) as (y & Hy & Hf). exists y. split; [now right | exact Hf].
  - intros _. exists x. split; [now left | exact E].
Qed.

Lemma forallb_bind_prefix {W A B} (P : event -> bool)
    (m : M W A) (k : A -> M W B) (w : W) :
  forallb P (snd (bind m k w)) = true -> forallb P (snd (m w)) = true.
Proof.
  destruct (bind_trace_prefix m k w) as [t ->].
  rewrite forallb_app, andb_true_iff. tauto.
Qed.

Lemma forallb_bind_rest {W A B} (P : event -> bool)
    (m : M W A) (k : A -> M W B) (w : W) a w1 t1 :
  m w = (Ok a, w1, t1) ->
  forallb P (snd (bind m k w)) = true -> forallb P (snd (k a w1)) = true.
Proof.
  intros Hm. rewrite (bind_ok _ _ _ _ _ _ Hm).
  destruct (k a w1) as [[r w2] t2]. cbn [snd].
  rewrite forallb_app, andb_true_iff. tauto.
Qed.

Section Partitions.
Context {W : Type} (host : Host W).

(** [get_partitions] on a listing whose rows all have two fields, and on
    a listing that cannot be launched: what it returns is what the listing
    shows, and it asks no question. *)
Lemma get_partitions_listed (disk : string) (w : W) :
  well_listed (snd (get_partitions host disk w)) = true ->
  exists parts w1 t,
    get_partitions host disk w = (Ok parts, w1, t)
    /\ listed_partitions t = parts
    /\ questions t = []
    /\ filter is_partition_listing (commands t)
       = [["lsblk"; "-ln"; "-o"; "NAME,TYPE"; disk]].
Proof.
  destruct (host_run host ["lsblk"; "-ln"; "-o"; "NAME,TYPE"; disk] w)
    as [[e|cp] w1] eqn:Hrun.
  - intros _. exists [], w1. eexists. split.
    { unfold get_partitions, try_except. unfold bind at 1.
      rewrite (subprocess_run_raised _ _ _ _ _ Hrun). reflexivity. }
    cbn. auto.
  - destruct (two_field_rows (stdout cp)) eqn:Hrows; unfold two_field_rows in Hrows.
    + intros _.
      assert (Hall : Forall (fun line => List.length (split_ws line) = 2)
                       (split_on newline (strip (stdout cp)))).
      { apply Forall_forall. intros line Hin.
        rewrite forallb_forall in Hrows. now apply Nat.eqb_eq, Hrows. }
      exists (well_formed_entries "part" (stdout cp)), w1. eexists.
      split; [exact (get_partitions_well_formed host disk cp w w1 Hrun Hall)|].
      cbn [listed_partitions questions commands flat_map is_partition_listing
           filter app].
      rewrite app_nil_r. auto.
    + destruct (forallb_false_exists _ _ Hrows) as (line & Hin & Hbad).
      apply Nat.eqb_neq in Hbad.
      destruct (rows_abort (W:=W) "part" _ [] w1 (ex_intro _ line (conj Hin Hbad)))
        as [e He].
      assert (Hg : get_partitions host disk w =
                (Ok [], w1,
                 [EvRun ["lsblk"; "-ln"; "-o"; "NAME,TYPE"; disk] (Returned cp);
                  EvPrint ("Error getting partitions for " +++ disk +++ ": " +++ e)])).
      { unfold get_partitions, try_except.
        rewrite (bind_ok _ _ _ _ _ _ (subprocess_run_returned _ _ _ _ _ Hrun)).
        change (for_each (split_on newline (strip (stdout cp))) [] _ w1)
          with (for_each (split_on newline (strip (stdout cp))) []
                  (row_step (W:=W) "part") w1).
        rewrite He. reflexivity. }
      rewrite Hg.
      cbn [snd well_listed forallb well_formed_listing is_partition_listing negb orb].
      unfold two_field_rows. rewrite Hrows. discriminate.
Qed.

(** One question per partition when the user answers it with a yes or a
    no. *)
Lemma ask_repair_one_question (fuel : nat) (part : string) (w : W) :
  all_answered (snd (ask_repair host (S fuel) part w)) = true ->
  exists w1 t,
    ask_repair host (S fuel) part w = (Ok tt, w1, t)
    /\ questions t = [repair_prompt part]
    /\ listed_partitions t = []
    /\ filter is_partition_listing (commands t) = [].
Proof.
  assert (Hr : emits no_question_no_listing (repair_filesystem host part))
    by (unfold repair_filesystem, is_mounted, run_fsck; walk).
  rewrite ask_repair_step.
  destruct (host_input host (repair_prompt part) w) as [[e|typed] w1];
    [discriminate|].
  destruct (means_yes typed) eqn:Hyes.
  - intros _. specialize (Hr w1).
    destruct (repair_filesystem_returns host part w1) as (b & w2 & t2 & Hb).
    rewrite (bind_ok _ _ _ _ _ _ Hb). rewrite Hb in Hr. cbn [snd ret] in *.
    rewrite app_nil_r.
    destruct (no_question_no_listing_trace _ Hr) as (H1 & H2 & H3).
    exists w2. eexists. split; [reflexivity|].
    unfold questions, listed_partitions, commands in *.
    cbn [flat_map app]. rewrite H1, H2, H3. auto.
  - destruct (means_no typed) eqn:Hno.
    + intros _. cbn [print]. exists w1. eexists. split; [reflexivity|]. auto.
    + match goal with
      | |- context [bind ?m ?k w1] => destruct (bind m k w1) as [[r w2] t2]
      end.
      cbn [snd all_answered forallb answer_given]. rewrite Hyes, Hno. discriminate.
Qed.

Lemma partitions_loop_questions (fuel : nat) (parts : list string) :
  forall w,
  all_answered
    (snd (for_ parts (fun part =>
            mounted <- is_mounted host part ;;
            print ("Partition " +++ part +++ " is "
                   +++ (if mounted then "mounted" else "unmounted") +++ ".") ;;;
            ask_repair host (S fuel) part) w)) = true ->
  exists w1 t,
    for_ parts (fun part =>
      mounted <- is_mounted host part ;;
      print ("Partition " +++ part +++ " is "
             +++ (if mounted then "mounted" else "unmounted") +++ ".") ;;;
      ask_repair host (S fuel) part) w = (Ok tt, w1, t)
    /\ questions t = map repair_prompt parts
    /\ listed_partitions t = []
    /\ filter is_partition_listing (commands t) = [].
Proof.
  assert (Hm : forall part, emits no_question_no_listing (is_mounted host part))
    by (intros; unfold is_mounted; walk).
  unfold all_answered.
  induction parts as [|part parts IH]; intros w Hans.
  - exists w, []. cbn. auto.
  - cbn [for_] in *.
    specialize (Hm part w).
    destruct (is_mounted_returns host part w) as (m & w1 & t1 & Hi).
    rewrite Hi in Hm. cbn [snd] in Hm.
    destruct (no_question_no_listing_trace _ Hm) as (M1 & M2 & M3).
    pose proof (forallb_bind_prefix _ _ _ _ Hans) as Hbody.
    pose proof (forallb_bind_rest _ _ _ _ _ _ _ Hi Hbody) as Hask.
    cbv beta in Hask.
    pose proof (forallb_bind_rest _ _ _ _ tt w1 _ eq_refl Hask) as Hask'.
    cbv beta in Hask'.
    destruct (ask_repair_one_question fuel part w1 Hask')
      as (w2 & t2 & Ha & A1 & A2 & A3).
    match type of Hans with
    | forallb _ (snd (bind ?b _ w)) = true =>
        assert (Hb : b w = (Ok tt, w2, t1 ++ EvPrint
                      ("Partition " +++ part +++ " is "
                       +++ (if m then "mounted" else "unmounted") +++ ".") :: t2))
    end.
    { rewrite (bind_ok _ _ _ _ _ _ Hi). unfold bind at 1. cbn [print].
      rewrite Ha. reflexivity. }
    pose proof (forallb_bind_rest _ _ _ _ _ _ _ Hb Hans) as Hrest.
    cbv beta in Hrest.
    destruct (IH w2 Hrest) as (w3 & t3 & Hloop & R1 & R2 & R3).
    exists w3. eexists. split.
    + rewrite (bind_ok _ _ _ _ _ _ Hb), Hloop. reflexivity.
    + rewrite !questions_app, !listed_partitions_app, !commands_app, !filter_app.
      unfold questions, listed_partitions, commands in *.
      cbn [flat_map app filter].
      rewrite M1, M2, M3, A1, A2, A3, R1, R2, R3. cbn. auto.
Qed.

(** X19: in a run of [prompt_repair] in which every partition listing has
    two fields in every row and the user answered every question with a yes
    or a no, nothing is passed over: the partitions of every failed disk are
    listed, once and in order, and exactly one question is put for every row
    of type part that the listings show, in the order shown, whatever the
    mount queries and the repairs in between did. *)
Theorem every_listed_partition_is_offered (fuel : nat) (disks : list string) (w : W) :
  all_answered (snd (prompt_repair host (S fuel) disks w)) = true ->
  well_listed (snd (prompt_repair host (S fuel) disks w)) = true ->
  exists w1 t,
    prompt_repair host (S fuel) disks w = (Ok tt, w1, t)
    /\ filter is_partition_listing (commands t)
       = map (fun disk => ["lsblk"; "-ln"; "-o"; "NAME,TYPE"; disk]) disks
    /\ questions t = map repair_prompt (listed_partitions t).
Proof.
  unfold prompt_repair, all_answered, well_listed. revert w.
  induction disks as [|disk disks IH]; intros w Hans Hwl.
  - exists w, []. cbn. auto.
  - cbn [for_] in *.
    pose proof (forallb_bind_prefix _ _ _ _ Hans) as Ha1.
    pose proof (forallb_bind_rest _ _ _ _ tt w _ eq_refl Ha1) as Ha2.
    pose proof (forallb_bind_prefix _ _ _ _ Hwl) as Hw1.
    pose proof (forallb_bind_rest _ _ _ _ tt w _ eq_refl Hw1) as Hw2.
    cbv beta in Ha2, Hw2.
    pose proof (forallb_bind_prefix _ _ _ _ Hw2) as Hw3.
    destruct (get_partitions_listed disk w Hw3)
      as (parts & w1 & t1 & Hg & G1 & G2 & G3).
    pose proof (forallb_bind_rest _ _ _ _ _ _ _ Hg Ha2) as Ha3.
    cbv beta in Ha3.
    assert (Hdisk : exists w2 t2,
               (match parts with
                | [] => print ("No partitions found on " +++ disk +++ ".")
                | _ :: _ =>
                    for_ parts (fun part =>
                      mounted <- is_mounted host part ;;
                      print ("Partition " +++ part +++ " is "
                             +++ (if mounted then "mounted" else "unmounted")
                             +++ ".") ;;;
                      ask_repair host (S fuel) part)
                end) w1 = (Ok tt, w2, t2)
               /\ questions t2 = map repair_prompt parts
               /\ listed_partitions t2 = []
               /\ filter is_partition_listing (commands t2) = []).
    { destruct parts as [|p ps].
      - exists w1. eexists. split; [reflexivity|]. cbn. auto.
      - exact (partitions_loop_questions fuel (p :: ps) w1 Ha3). }
    destruct Hdisk as (w2 & t2 & Hd & D1 & D2 & D3).
    match type of Hans with
    | forallb _ (snd (bind ?b _ w)) = true =>
        assert (Hb : b w = (Ok tt, w2,
                            EvPrint (nl +++ "Disk " +++ disk
                                     +++ " has issues. Checking partitions for repair...")
                            :: t1 ++ t2))
    end.
    { unfold bind at 1. cbn [print]. rewrite (bind_ok _ _ _ _ _ _ Hg), Hd.
      reflexivity. }
    pose proof (forallb_bind_rest _ _ _ _ _ _ _ Hb Hans) as Hans'.
    pose proof (forallb_bind_rest _ _ _ _ _ _ _ Hb Hwl) as Hwl'.
    cbv beta in Hans', Hwl'.
    destruct (IH w2 Hans' Hwl') as (w3 & t3 & Hrest & R1 & R2).
    exists w3. eexists. split; [|split].
    + rewrite (bind_ok _ _ _ _ _ _ Hb), Hrest. reflexivity.
    + rewrite !commands_app, !filter_app.
      unfold commands in *. cbn [flat_map app].
      rewrite !flat_map_app, !filter_app, G3, D3, R1. reflexivity.
    + rewrite !questions_app, !listed_partitions_app.
      unfold questions, listed_partitions in *. cbn [flat_map app].
      rewrite !flat_map_app, G1, G2, D1, D2, R2, app_nil_r, map_app. reflexivity.
Qed.
End Partitions.

(** Witness for X19: on [failing_disk_host] the listing of /dev/sda shows
    one partition; standard input holds a yes. *)
Lemma every_listed_partition_is_offered_witness :
  exists w1 t,
    prompt_repair failing_disk_host 1 ["/dev/sda"] ["yes"] = (Ok tt, w1, t)
    /\ filter is_partition_listing (commands t)
       = map (fun disk => ["lsblk"; "-ln"; "-o"; "NAME,TYPE"; disk]) ["/dev/sda"]
    /\ questions t = map repair_prompt (listed_partitions t).
Proof.
  exact (every_listed_partition_is_offered failing_disk_host 0 ["/dev/sda"] ["yes"]
           eq_refl eq_refl).
Defined.

Example failing_disk_host_questions :
  questions (snd (prompt_repair failing_disk_host 1 ["/dev/sda"] ["yes"]))
  = [repair_prompt "/dev/sda1"]
  /\ listed_partitions (snd (prompt_repair failing_disk_host 1 ["/dev/sda"] ["yes"]))
     = ["/dev/sda1"].
Proof. split; reflexivity. Qed.

(** Why the rows must have two fields: the listing of [ragged_host] shows
    two partitions around a row of one field; [get_partitions] gives up on
    the listing, and no question is put for either of them. *)
Example ragged_listing_is_not_offered :
  let tr := snd (prompt_repair ragged_host 1 ["/dev/sda"] ["yes"; "yes"]) in
  well_listed tr = false
  /\ listed_partitions tr = ["/dev/sda1"; "/dev/sda2"]
  /\ questions tr = [].
Proof. repeat split; reflexivity. Qed.
